(** * OSSOS pipeline helpers: a shallow embedding of the Python sources

    The development follows the layout of the repository:
    - [Py]: the handful of Python built-ins the sources rely on (byte strings,
      [str.replace], [int], [str.format] on integers, [os.path.join], exceptions);
    - [Storage]: [daomop/storage.py] ([datasec_to_list], [reset_datasec], [copy]);
    - [OssosStorage]: [ossos/storage/__init__.py] ([get_uri], [SyncingVOFile]);
    - [Daophot]: [pymop/astrometry/daophot.py] ([phot], [phot_mag]);
    - [AstromMagCheck]: [pipeline/astrom_mag_check.py] ([match_lists]).

    Python 2 [str] values are byte strings and are modelled as [list ascii];
    Python integers are unbounded and modelled as [Z]; Python floats are IEEE
    binary64 numbers and are modelled by the primitive [float] type. *)

From Stdlib Require Import ZArith Lia Bool Ascii String Floats.
From stdpp Require Import base option list gmap strings.

Set Warnings "-inexact-float".
Local Open Scope Z_scope.

(* ===================================================================== *)
(** * Python built-ins *)
(* ===================================================================== *)
Module Py.

(** A Python 2 byte string. *)
Definition pystr : Type := list ascii.

(** String literals of the sources are written [py "..."]. *)
Definition py (s : string) : pystr := list_ascii_of_string s.

(** The exceptions that the modelled code can raise. *)
Inductive exn : Type :=
| ValueError
| IndexError
| KeyError
| TypeError.

(** A computation either returns a value or raises. *)
Inductive result (A : Type) : Type :=
| Ok (a : A)
| Raise (e : exn).
Arguments Ok {A} a.
Arguments Raise {A} e.

Definition bind {A B} (m : result A) (k : A -> result B) : result B :=
  match m with
  | Ok a => k a
  | Raise e => Raise e
  end.

Declare Scope py_scope.
Delimit Scope py_scope with py.
Notation "'let*' x ':=' m 'in' k" := (bind m (fun x => k))
  (at level 10, x name, m at level 100, k at level 200) : py_scope.
Notation "'let*' ' p ':=' m 'in' k" := (bind m (fun p => k))
  (at level 10, p strict pattern, m at level 100, k at level 200) : py_scope.

(** [l[i]] for a Python list and a non-negative literal index. *)
Definition getitem {A} (l : list A) (i : nat) : result A :=
  match l !! i with
  | Some x => Ok x
  | None => Raise IndexError
  end.

(** [[f(x) for x in l]] where [f] may raise: the first failure propagates. *)
Fixpoint map_result {A B} (f : A -> result B) (l : list A) : result (list B) :=
  match l with
  | [] => Ok []
  | x :: t =>
      match f x with
      | Raise e => Raise e
      | Ok y =>
          match map_result f t with
          | Raise e => Raise e
          | Ok ys => Ok (y :: ys)
          end
      end
  end.

(** ** Characters *)

Definition is_digit (c : ascii) : bool :=
  let n := nat_of_ascii c in (48 <=? n)%nat && (n <=? 57)%nat.

Definition all_digits (s : pystr) : Prop := Forall (fun c => is_digit c = true) s.

Definition digit_val (c : ascii) : Z := Z.of_nat (nat_of_ascii c) - 48.

Definition digit_char (d : Z) : ascii := ascii_of_nat (Z.to_nat (d + 48)).

(** ** [str(n)] and ["{}".format(n)] for an integer [n] *)

Fixpoint digits_of (fuel : nat) (n : Z) (acc : pystr) : pystr :=
  match fuel with
  | O => acc
  | S f =>
      let acc' := digit_char (n mod 10) :: acc in
      if n <? 10 then acc' else digits_of f (n / 10) acc'
  end.

(** The binary length of [n] bounds its number of decimal digits. *)
Definition str_of_nonneg (n : Z) : pystr :=
  digits_of (S (Z.to_nat (Z.log2 n))) n [].

Definition str_of_Z (n : Z) : pystr :=
  if n <? 0 then "-"%char :: str_of_nonneg (- n) else str_of_nonneg n.

(** ** [int(s)] for a byte string [s] without surrounding white space *)

Fixpoint parse_digits (acc : Z) (s : pystr) : result Z :=
  match s with
  | [] => Ok acc
  | c :: t =>
      if is_digit c then parse_digits (10 * acc + digit_val c) t
      else Raise ValueError
  end.

Definition int_of_str (s : pystr) : result Z :=
  match s with
  | [] => Raise ValueError
  | c :: t =>
      if Ascii.eqb c "-" then
        match t with
        | [] => Raise ValueError
        | _ => (let* z := parse_digits 0 t in Ok (- z))%py
        end
      else if Ascii.eqb c "+" then
        match t with
        | [] => Raise ValueError
        | _ => parse_digits 0 t
        end
      else parse_digits 0 s
  end.

(** ** [s.startswith(p)], [s.endswith(c)] and [s.replace(old, new)] *)

Fixpoint startswith (p s : pystr) : bool :=
  match p, s with
  | [], _ => true
  | _ :: _, [] => false
  | a :: p', b :: s' => Ascii.eqb a b && startswith p' s'
  end.

Definition endswith_char (c : ascii) (s : pystr) : bool :=
  match last s with
  | Some d => Ascii.eqb c d
  | None => false
  end.

(** Left-to-right replacement of the non-overlapping occurrences of a
    non-empty [old]; [skip] counts the characters of an occurrence that
    remain to be dropped. *)
Fixpoint replace_from (old new : pystr) (skip : nat) (s : pystr) : pystr :=
  match s with
  | [] => []
  | c :: t =>
      match skip with
      | S k => replace_from old new k t
      | O =>
          if startswith old s
          then new ++ replace_from old new (Nat.pred (length old)) t
          else c :: replace_from old new O t
      end
  end.

Definition replace (old new s : pystr) : pystr := replace_from old new O s.

(** [s.zfill(width)]: left padding with zeros, after a leading sign. *)
Definition zfill (width : nat) (s : pystr) : pystr :=
  let pad := List.repeat "0"%char (width - length s) in
  match s with
  | c :: t =>
      if Ascii.eqb c "-" || Ascii.eqb c "+" then c :: pad ++ t else pad ++ s
  | [] => pad
  end.

(** [os.path.join(a, b)] of [posixpath]: an absolute [b] discards [a]. *)
Definition path_join (a b : pystr) : pystr :=
  if startswith (py "/") b then b
  else
    match a with
    | [] => b
    | _ => if endswith_char "/" a then a ++ b else a ++ py "/" ++ b
    end.

End Py.

(* ===================================================================== *)
(** * daomop/storage.py *)
(* ===================================================================== *)
Module Storage.
Import Py.
Local Open Scope py_scope.

Definition MAX_RETRY : Z := 10.

(** ** [datasec_to_list]

    The pattern [([-+]?[*\d]+?)[:,\]]+] has three parts: an optional sign,
    a lazy non-empty run of stars and digits, a greedy non-empty run of
    delimiters.  The two character classes are disjoint, so a match that
    starts at a position takes the whole run of stars and digits found
    there, and exists exactly when that run is non-empty and a delimiter
    follows it. *)

Definition is_sign (c : ascii) : bool := Ascii.eqb c "-" || Ascii.eqb c "+".

Definition is_star_digit (c : ascii) : bool := Ascii.eqb c "*" || is_digit c.

Definition is_delim (c : ascii) : bool :=
  Ascii.eqb c ":" || Ascii.eqb c "," || Ascii.eqb c "]".

(** The longest prefix of [s] in the class [p], and what follows it. *)
Fixpoint span (p : ascii -> bool) (s : pystr) : pystr * pystr :=
  match s with
  | [] => ([], [])
  | c :: t =>
      if p c then let '(run, rest) := span p t in (c :: run, rest)
      else ([], s)
  end.

(** The match of the pattern that starts at the head of [s], if any:
    its group and the text after the match. *)
Definition match_here (s : pystr) : option (pystr * pystr) :=
  let '(sign, s1) :=
    match s with
    | c :: t => if is_sign c then ([c], t) else ([], s)
    | [] => ([], s)
    end in
  let '(body, s2) := span is_star_digit s1 in
  let '(delims, s3) := span is_delim s2 in
  match body, delims with
  | _ :: _, _ :: _ => Some (sign ++ body, s3)
  | _, _ => None
  end.

(** [re.findall]: the groups of the successive non-overlapping matches,
    scanning from the left. *)
Fixpoint findall_fuel (fuel : nat) (s : pystr) : list pystr :=
  match fuel with
  | O => []
  | S f =>
      match s with
      | [] => []
      | _ :: t =>
          match match_here s with
          | Some (g, rest) => g :: findall_fuel f rest
          | None => findall_fuel f t
          end
      end
  end.

Definition findall (s : pystr) : list pystr := findall_fuel (length s) s.

Definition datasec_to_list (datasec : pystr) : result (list Z) :=
  map_result int_of_str (findall datasec).

(** ** [reset_datasec] *)

(** What [reset_datasec] hands back: a string, or the list of integers
    that the name [datasec] is bound to after the first parse. *)
Inductive value : Type :=
| VStr (s : pystr)
| VList (l : list Z).

(** ["[{}:{},{}:{}]".format(a, b, c, d)] *)
Definition format_section (a b c d : Z) : pystr :=
  py "[" ++ str_of_Z a ++ py ":" ++ str_of_Z b ++ py "," ++
  str_of_Z c ++ py ":" ++ str_of_Z d ++ py "]".

(** The characters that a formatted section is made of. *)
Definition is_section_char (c : ascii) : bool :=
  is_digit c || is_sign c || is_delim c || Ascii.eqb c "[".

(** A section that lies within an image of [width] by [height] pixels. *)
Definition within_extent (width height : Z) (section : pystr) : Prop :=
  exists a b c d, section = format_section a b c d /\
    1 <= a /\ b <= width /\ 1 <= c /\ d <= height.

(** The five [cutout.replace] calls that precede the parse of the cutout. *)
Definition substitute_wildcards (cutout : pystr) (naxis1 naxis2 : Z) : pystr :=
  let cutout := replace (py " ") (py "") cutout in
  let cutout := replace (py "[-*,") (str_of_Z naxis1 ++ py ":1,") cutout in
  let cutout := replace (py ",-*]") (py "," ++ str_of_Z naxis2 ++ py ":1]") cutout in
  let cutout := replace (py "[*,") (py "[1:" ++ str_of_Z naxis1 ++ py ",") cutout in
  let cutout := replace (py ",*]") (py ",1:" ++ str_of_Z naxis1 ++ py "]") cutout in
  cutout.

(** [if cutout[idx] < 0: cutout[idx] = naxis - cutout[idx] + 1] *)
Definition from_end (naxis : Z) (idx : nat) (cutout : list Z) : result (list Z) :=
  let* v := getitem cutout idx in
  if v <? 0 then Ok (<[idx := naxis - v + 1]> cutout) else Ok cutout.

Definition reset_datasec (cutout : option pystr) (datasec : pystr)
    (naxis1 naxis2 : Z) : result value :=
  match cutout with
  | None => Ok (VStr datasec)
  | Some cutout =>
      if bool_decide (cutout = py "[*,*]") then Ok (VStr datasec)
      else
        match datasec_to_list datasec with
        | Raise _ => Ok (VStr datasec)
        | Ok datasec =>
            let cutout := substitute_wildcards cutout naxis1 naxis2 in
            match datasec_to_list cutout with
            | Raise _ => Ok (VList datasec)
            | Ok cutout =>
                let cutout :=
                  if bool_decide (length cutout = 5%nat) then drop 1 cutout
                  else cutout in
                let* cutout := from_end naxis1 0 cutout in
                let* cutout := from_end naxis1 1 cutout in
                let* cutout := from_end naxis2 2 cutout in
                let* cutout := from_end naxis2 3 cutout in
                let* c0 := getitem cutout 0 in
                let* c1 := getitem cutout 1 in
                let flip := c0 >? c1 in
                let* c2 := getitem cutout 2 in
                let* c3 := getitem cutout 3 in
                let flop := c2 >? c3 in
                let* '(cutout, datasec) :=
                  if flip then
                    let* d1 := getitem datasec 1 in
                    let* d0 := getitem datasec 0 in
                    let* d2 := getitem datasec 2 in
                    let* d3 := getitem datasec 3 in
                    Ok ([naxis1 - c0 + 1; naxis1 - c1 + 1; c2; c3],
                        [naxis1 - d1 + 1; naxis1 - d0 + 1; d2; d3])
                  else Ok (cutout, datasec) in
                let* '(cutout, datasec) :=
                  if flop then
                    let* c0 := getitem cutout 0 in
                    let* c1 := getitem cutout 1 in
                    let* c2 := getitem cutout 2 in
                    let* c3 := getitem cutout 3 in
                    let* d0 := getitem datasec 0 in
                    let* d1 := getitem datasec 1 in
                    let* d3 := getitem datasec 3 in
                    let* d2 := getitem datasec 2 in
                    Ok ([c0; c1; naxis2 - c2 + 1; naxis2 - c3 + 1],
                        [d0; d1; naxis2 - d3 + 1; naxis2 - d2 + 1])
                  else Ok (cutout, datasec) in
                let* d0 := getitem datasec 0 in
                let* c0 := getitem cutout 0 in
                let* d1 := getitem datasec 1 in
                let* d2 := getitem datasec 2 in
                let* c2 := getitem cutout 2 in
                let* d3 := getitem datasec 3 in
                Ok (VStr (format_section
                            (Z.max (d0 - c0 + 1) 1)
                            (Z.min (d1 - c0 + 1) naxis1)
                            (Z.max (d2 - c2 + 1) 1)
                            (Z.min (d3 - c2 + 1) naxis2)))
            end
        end
  end.

(** ** [copy]

    [vospace.client.copy(source, destination)] talks to a remote service:
    its successive invocations are modelled by an oracle that gives the
    outcome of the call number [n] (counted from 0), which either returns
    a value or raises an [Exception]. *)
Section Copy.
Context {R E : Type}.

Inductive outcome : Type :=
| Returned (r : R)
| Raised (ex : E).

Variable client_copy : pystr -> pystr -> nat -> outcome.

(** One turn of [while True] per unit of fuel; [calls] is the number of
    calls made so far and [count] the loop's counter.  The result is the
    outcome of [copy] with the number of calls made, or [None] when the
    fuel ran out. *)
Fixpoint copy_loop (fuel : nat) (source destination : pystr)
    (calls : nat) (count : Z) : option (outcome * nat) :=
  match fuel with
  | O => None
  | S fuel' =>
      match client_copy source destination calls with
      | Returned r => Some (Returned r, S calls)
      | Raised ex =>
          let count := count + 1 in
          if count >? MAX_RETRY then Some (Raised ex, S calls)
          else copy_loop fuel' source destination (S calls) count
      end
  end.

Definition copy (fuel : nat) (source destination : pystr)
    : option (outcome * nat) :=
  copy_loop fuel source destination 0 1.
End Copy.

End Storage.

(* ===================================================================== *)
(** * ossos/storage/__init__.py *)
(* ===================================================================== *)
Module OssosStorage.
Import Py.

Definition DBIMAGES : pystr := py "vos:OSSOS/dbimages".

(** An exposure number or a CCD number is passed as an [int] or as a [str]. *)
Inductive pyobj : Type :=
| PInt (z : Z)
| PStr (s : pystr).

(** [str(x)] *)
Definition str (x : pyobj) : pystr :=
  match x with
  | PInt z => str_of_Z z
  | PStr s => s
  end.

(** ** [get_uri]

    The keyword defaults are [ccd=None], [version='p'], [ext='fits'],
    [subdir=None], [prefix=None]; [ccd] is a CCD number of the mosaic. *)
Definition get_uri (expnum : pyobj) (ccd : option Z) (version : pystr)
    (ext subdir prefix : option pystr) : pystr :=
  let subdir := match subdir with None => str expnum | Some d => d end in
  let prefix := match prefix with None => py "" | Some p => p end in
  let uri := path_join DBIMAGES subdir in
  let ext :=
    match ext with
    | None => py ""
    | Some e =>
        match e with
        | c :: _ => if negb (Ascii.eqb c ".") then py "." ++ e else e
        | [] => e
        end
    end in
  match ccd with
  | Some ccd =>
      let ccd := zfill 2 (str_of_Z ccd) in
      path_join (path_join uri (py "ccd" ++ ccd))
                (prefix ++ str expnum ++ version ++ ccd ++ ext)
  | None =>
      path_join uri (prefix ++ str expnum ++ version ++ ext)
  end.

(** *** The layout of the URI, as the specification words it *)

(** [ext] with a leading dot when it is non-empty and has none; [None] is
    the empty string. *)
Definition dotted (ext : option pystr) : pystr :=
  match ext with
  | None => py ""
  | Some [] => py ""
  | Some (c :: e) => if Ascii.eqb c "." then c :: e else "."%char :: c :: e
  end.

(** [{prefix}{expnum}{version}NN{ext'}], without [NN] when there is no CCD. *)
Definition image_name (expnum : pyobj) (ccd : option Z) (version : pystr)
    (ext prefix : option pystr) : pystr :=
  default (py "") prefix ++ str expnum ++ version ++
  match ccd with Some n => zfill 2 (str_of_Z n) | None => py "" end ++
  dotted ext.

(** [DBIMAGES/subdir/ccdNN/name] or [DBIMAGES/subdir/name], the components
    being separated by one slash. *)
Definition uri_layout (expnum : pyobj) (ccd : option Z) (version : pystr)
    (ext subdir prefix : option pystr) : pystr :=
  let subdir := default (str expnum) subdir in
  let name := image_name expnum ccd version ext prefix in
  match ccd with
  | Some n =>
      DBIMAGES ++ py "/" ++ subdir ++ py "/" ++ py "ccd" ++ zfill 2 (str_of_Z n) ++
      py "/" ++ name
  | None => DBIMAGES ++ py "/" ++ subdir ++ py "/" ++ name
  end.

(** ** [SyncingVOFile] *)

(** The local file, opened with mode ["a+b"]: reads start at the current
    position, every write goes to the end of the file. *)
Record filehandle : Type := FileHandle {
  fh_contents : pystr;
  fh_position : nat
}.

Definition fh_seek (offset : nat) (fh : filehandle) : filehandle :=
  FileHandle (fh_contents fh) offset.

Definition fh_read (fh : filehandle) : pystr * filehandle :=
  (drop (fh_position fh) (fh_contents fh),
   FileHandle (fh_contents fh)
              (Nat.max (fh_position fh) (length (fh_contents fh)))).

Definition fh_write (content : pystr) (fh : filehandle) : filehandle :=
  let contents := fh_contents fh ++ content in
  FileHandle contents (length contents).

Record SyncingVOFile : Type := VOFile {
  uri : pystr;
  local_filename : pystr;
  local_filehandle : filehandle
}.

Definition with_handle (self : SyncingVOFile) (fh : filehandle) : SyncingVOFile :=
  VOFile (uri self) (local_filename self) fh.

Definition read (self : SyncingVOFile) : pystr * SyncingVOFile :=
  let fh := fh_seek 0 (local_filehandle self) in
  let '(content, fh) := fh_read fh in
  (content, with_handle self fh).

Definition write (content : pystr) (self : SyncingVOFile) : SyncingVOFile :=
  with_handle self (fh_write content (local_filehandle self)).

Definition seek (offset : nat) (self : SyncingVOFile) : SyncingVOFile := self.

(** A client's successive method calls, and the contents that the [read]
    calls among them returned, in order. *)
Inductive call : Type :=
| CallRead
| CallWrite (content : pystr)
| CallSeek (offset : nat).

Fixpoint run (calls : list call) (self : SyncingVOFile)
    : list pystr * SyncingVOFile :=
  match calls with
  | [] => ([], self)
  | CallRead :: rest =>
      let '(content, self) := read self in
      let '(outs, self) := run rest self in
      (content :: outs, self)
  | CallWrite c :: rest => run rest (write c self)
  | CallSeek o :: rest => run rest (seek o self)
  end.

(** What the [write] calls of a sequence wrote, in order. *)
Definition written (calls : list call) : pystr :=
  concat (omap (fun c => match c with CallWrite w => Some w | _ => None end) calls).

End OssosStorage.

(* ===================================================================== *)
(** * pymop/astrometry/daophot.py *)
(* ===================================================================== *)
Module Daophot.
Import Py.
Local Open Scope py_scope.

(** A FITS header card holds a string or a number. *)
Inductive hval : Type :=
| HStr (s : pystr)
| HNum (f : float).

(** A cell of the returned table. *)
Inductive cell : Type :=
| CFloat (f : float)
| CInt (z : Z)
| CStr (s : pystr).

(** [d[key]] for a dictionary with string keys. *)
Definition dict_getitem {V} (d : gmap pystr V) (key : pystr) : result V :=
  match d !! key with
  | Some v => Ok v
  | None => Raise KeyError
  end.

(** Some CFHT zeropoints that might be useful. *)
Definition zeropoints : gmap pystr float :=
  list_to_map
    [ (py "I", 25.77%float);
      (py "R", 26.07%float);
      (py "V", 26.07%float);
      (py "B", 25.92%float);
      (py "DEFAULT", 26.0%float);
      (py "g.MP9401", 26.4%float) ].

Definition order : list pystr :=
  [py "X"; py "Y"; py "MAG"; py "MERR"; py "ID"; py "XSHIFT"; py "YSHIFT"; py "LID"].

Definition format : gmap pystr pystr :=
  list_to_map
    [ (py "X", py "%10.2f");
      (py "Y", py "%10.2f");
      (py "MAG", py "%10.2f");
      (py "MERR", py "%10.2f");
      (py "ID", py "%8d");
      (py "XSHIFT", py "%10.2f");
      (py "YSHIFT", py "%10.2f");
      (py "LID", py "%8d") ].

(** [re.match('\%.*c', fmt)]: a percent sign at the start, then the
    character [c] somewhere on the same line. *)
Fixpoint on_line (c : ascii) (s : pystr) : bool :=
  match s with
  | [] => false
  | d :: t =>
      if Ascii.eqb d c then true
      else if Ascii.eqb d "010" then false
      else on_line c t
  end.

Definition re_match_percent (c : ascii) (fmt : pystr) : bool :=
  match fmt with
  | d :: t => Ascii.eqb d "%" && on_line c t
  | [] => false
  end.

(** [line.split()]: the maximal runs of characters that are not white space. *)
Definition is_space (c : ascii) : bool :=
  let n := nat_of_ascii c in ((9 <=? n)%nat && (n <=? 13)%nat) || (n =? 32)%nat.

Fixpoint split_from (word : pystr) (s : pystr) : list pystr :=
  match s with
  | [] => match word with [] => [] | _ => [word] end
  | c :: t =>
      if is_space c
      then match word with [] => split_from [] t | _ => word :: split_from [] t end
      else split_from (word ++ [c]) t
  end.

Definition split (line : pystr) : list pystr := split_from [] line.

Section Phot.
(** [float(s)] for a string [s]: the decimal-to-binary conversion of the
    interpreter, which raises [ValueError] on a malformed literal. *)
Variable float_of_str : pystr -> result float.

(** The external photometry package: the lines that [iraf.pdump] prints
    for the image once [iraf.photpars.zmag] is set. *)
Variable pdump : hval -> list pystr.

(** [header.get('FILTER', 'DEFAULT')] followed by the membership test. *)
Definition filter_of (header : gmap pystr hval) : pystr :=
  let filter := default (HStr (py "DEFAULT")) (header !! py "FILTER") in
  match filter with
  | HStr name => if bool_decide (is_Some (zeropoints !! name)) then name else py "DEFAULT"
  | HNum _ => py "DEFAULT"
  end.

(** The zeropoint that [phot] hands to the package.  [readable] maps the
    names of the readable files of the working directory to their
    contents. *)
Definition phot_zmag (header : gmap pystr hval) (readable : gmap pystr pystr)
    : result hval :=
  let filter := filter_of header in
  let* fallback := dict_getitem zeropoints filter in
  let zmag := default (HNum fallback) (header !! py "PHOTZP") in
  let zpu_file := py "zeropoint.used" in
  match readable !! zpu_file with
  | Some text => let* z := float_of_str text in Ok (HNum z)
  | None => Ok zmag
  end.

(** The zeropoint as the specification words it: the contents of a
    readable file [zeropoint.used]; otherwise the PHOTZP card of the
    header; otherwise the entry of the filter in the table, and 26.0 when
    the table has no entry for it. *)
Definition zmag_by_precedence (header : gmap pystr hval)
    (readable : gmap pystr pystr) : result hval :=
  match readable !! py "zeropoint.used" with
  | Some text => let* z := float_of_str text in Ok (HNum z)
  | None =>
      match header !! py "PHOTZP" with
      | Some card => Ok card
      | None =>
          match header !! py "FILTER" with
          | Some (HStr name) =>
              match zeropoints !! name with
              | Some z => Ok (HNum z)
              | None => Ok (HNum 26.0%float)
              end
          | _ => Ok (HNum 26.0%float)
          end
      end
  end.

(** [hdu['data'][col].append(v)] *)
Definition append_cell (col : pystr) (v : cell) (data : gmap pystr (list cell))
    : result (gmap pystr (list cell)) :=
  let* column := dict_getitem data col in
  Ok (<[col := column ++ [v]]> data).

(** The body of [for col in hdu['order']]: one token of [values] is
    consumed and converted according to the format of the column.  For
    the MAG column the head of [values] is first overwritten with
    [float(values[0]) - float(apcor)], a float that the following
    [float(values.pop(0))] leaves unchanged. *)
Definition parse_column (apcor : float) (col : pystr)
    (st : list pystr * gmap pystr (list cell))
    : result (list pystr * gmap pystr (list cell)) :=
  let '(values, data) := st in
  let* fmt := dict_getitem format col in
  if re_match_percent "f" fmt then
    let* v :=
      if bool_decide (col = py "MAG") then
        let* token := getitem values 0 in
        let* mag := float_of_str token in
        Ok (mag - apcor)%float
      else
        let* token := getitem values 0 in
        float_of_str token in
    let* data := append_cell col (CFloat v) data in
    Ok (drop 1 values, data)
  else if re_match_percent "d" fmt then
    let* token := getitem values 0 in
    let* n := int_of_str token in
    let* data := append_cell col (CInt n) data in
    Ok (drop 1 values, data)
  else
    let* token := getitem values 0 in
    let* data := append_cell col (CStr token) data in
    Ok (drop 1 values, data).

Fixpoint parse_columns (apcor : float) (cols : list pystr)
    (st : list pystr * gmap pystr (list cell))
    : result (list pystr * gmap pystr (list cell)) :=
  match cols with
  | [] => Ok st
  | col :: rest =>
      let* st := parse_column apcor col st in
      parse_columns apcor rest st
  end.

(** The body of [for line in pdump_out]. *)
Definition parse_line (apcor : float) (line : pystr)
    (data : gmap pystr (list cell)) : result (gmap pystr (list cell)) :=
  let* '(_, data) := parse_columns apcor order (split line, data) in
  Ok data.

Fixpoint parse_lines (apcor : float) (lines : list pystr)
    (data : gmap pystr (list cell)) : result (gmap pystr (list cell)) :=
  match lines with
  | [] => Ok data
  | line :: rest =>
      let* data := parse_line apcor line data in
      parse_lines apcor rest data
  end.

(** [hdu['data']] before the first line: an empty list per column. *)
Definition empty_data : gmap pystr (list cell) :=
  foldl (fun data col => <[col := []]> data) ∅ order.

(** The MOP structure that [phot] returns. *)
Record hdu : Type := Hdu {
  hdu_aper_cor : float;
  hdu_zeropoint : hval;
  hdu_data : gmap pystr (list cell)
}.

Definition phot (header : gmap pystr hval) (readable : gmap pystr pystr)
    (apcor : float) : result hdu :=
  let* zmag := phot_zmag header readable in
  let pdump_out := pdump zmag in
  let* data := parse_lines apcor pdump_out empty_data in
  Ok (Hdu apcor zmag data).

Definition phot_mag (header : gmap pystr hval) (readable : gmap pystr pystr)
    (apcor : float) : result cell :=
  let* hdu := phot header readable apcor in
  let* mags := dict_getitem (hdu_data hdu) (py "MAG") in
  getitem mags 0.
End Phot.

End Daophot.

(* ===================================================================== *)
(** * pipeline/astrom_mag_check.py *)
(* ===================================================================== *)
Module AstromMagCheck.
Import Py.
Local Open Scope py_scope.

(** A row of a two-column array of x/y positions. *)
Definition position : Type := float * float.

(** A 16-bit signed integer keeps the low 16 bits of what is stored in it. *)
Definition wrap16 (z : Z) : Z := (z + 32768) mod 65536 - 32768.

(** [numpy.arange(n, dtype=numpy.int16)]: the successive integers from 0,
    each stored in 16 bits. *)
Fixpoint arange16_from (start : Z) (n : nat) : list Z :=
  match n with
  | O => []
  | S n' => wrap16 start :: arange16_from (start + 1) n'
  end.

Definition arange16 (n : nat) : list Z := arange16_from 0 n.

(** [arr[i]] for an array and an integer index: a negative index counts
    from the end. *)
Definition array_getitem {A} (arr : list A) (i : Z) : result A :=
  let n := Z.of_nat (length arr) in
  let i := if i <? 0 then i + n else i in
  if (0 <=? i) && (i <? n) then getitem arr (Z.to_nat i) else Raise IndexError.

(** [arr[mask]] for a boolean mask of the length of [arr]. *)
Fixpoint select {A} (arr : list A) (mask : list bool) : list A :=
  match arr, mask with
  | x :: arr', b :: mask' => if b then x :: select arr' mask' else select arr' mask'
  | _, _ => []
  end.

(** [numpy.minimum]: the smaller operand, and a NaN when there is one. *)
Definition minimum (a b : float) : float :=
  if ((a <=? b) || is_nan a)%float then a else b.

(** [arr.min()]: the reduction by [numpy.minimum]; it raises on an empty
    array. *)
Definition amin (arr : list float) : result float :=
  match arr with
  | [] => Raise ValueError
  | x :: rest => Ok (fold_left minimum rest x)
  end.

(** [numpy.sqrt((pos[:, 0] - p[0]) ** 2 + (pos[:, 1] - p[1]) ** 2)]: the
    distance from [p] to every row of [pos]. *)
Definition distance (p q : position) : float :=
  let dx := (fst q - fst p)%float in
  let dy := (snd q - snd p)%float in
  sqrt (dx * dx + dy * dy)%float.

Definition separations (p : position) (pos : list position) : list float :=
  distance p <$> pos.

(** [numpy.all((sep <= tolerance, sep == sep.min()), axis=0)] *)
Definition match_condition (tolerance : float) (sep : list float)
    : result (list bool) :=
  let* smallest := amin sep in
  Ok ((fun s => (s <=? tolerance)%float && (s =? smallest)%float) <$> sep).

(** The loop [for idx2 in match_group_1] for a given [idx1]: the value
    stored in [match[idx1]], if any. *)
Fixpoint first_mutual (pos1 pos2 : list position) (tolerance : float)
    (idx1 : nat) (match_group_1 : list Z) : result (option Z) :=
  match match_group_1 with
  | [] => Ok None
  | idx2 :: rest =>
      let* q := array_getitem pos2 idx2 in
      let sep := separations q pos1 in
      let* cond := match_condition tolerance sep in
      let match_group_2 := select (arange16 (length pos1)) cond in
      if bool_decide (Z.of_nat idx1 ∈ match_group_2) then Ok (Some idx2)
      else first_mutual pos1 pos2 tolerance idx1 rest
  end.

(** The body of [for idx1 in range(npts1)]; a masked entry of [match] is
    [None]. *)
Definition match_row (pos1 pos2 : list position) (tolerance : float)
    (idx1 : nat) (matched : list (option Z)) : result (list (option Z)) :=
  let* p := getitem pos1 idx1 in
  let sep := separations p pos2 in
  let* cond := match_condition tolerance sep in
  let match_group_1 := select (arange16 (length pos2)) cond in
  let* found := first_mutual pos1 pos2 tolerance idx1 match_group_1 in
  match found with
  | Some idx2 => Ok (<[idx1 := Some idx2]> matched)
  | None => Ok matched
  end.

Fixpoint match_rows (pos1 pos2 : list position) (tolerance : float)
    (rows : list nat) (matched : list (option Z)) : result (list (option Z)) :=
  match rows with
  | [] => Ok matched
  | idx1 :: rest =>
      let* matched := match_row pos1 pos2 tolerance idx1 matched in
      match_rows pos1 pos2 tolerance rest matched
  end.

Definition match_lists (pos1 pos2 : list position) (tolerance : float)
    : result (list (option Z)) :=
  let npts1 := length pos1 in
  match_rows pos1 pos2 tolerance (seq 0 npts1) (replicate npts1 None).

(** Row [i] of [pos1] and row [j] of [pos2] are within [tolerance] of
    each other, row [j] is a nearest row of [pos2] to row [i], and row [i]
    is a nearest row of [pos1] to row [j], for the distances that the code
    computes. *)
Definition mutual_nearest (pos1 pos2 : list position) (tolerance : float)
    (i : nat) (j : Z) : Prop :=
  exists p q,
    pos1 !! i = Some p /\ 0 <= j /\ pos2 !! Z.to_nat j = Some q /\
    (distance p q <=? tolerance)%float = true /\
    (forall q', q' ∈ pos2 -> (distance p q <=? distance p q')%float = true) /\
    (forall p', p' ∈ pos1 -> (distance q p <=? distance q p')%float = true).

End AstromMagCheck.

(* ===================================================================== *)
(** * daomop/storage.py: the arithmetic of [reset_datasec], axis by axis *)
(* ===================================================================== *)
Module DatasecAxis.
Import Py Storage.

(** A cutout bound after the loops over [idx]: a negative bound [v] has
    become [naxis - v + 1]. *)
Definition from_end_value (naxis v : Z) : Z :=
  if v <? 0 then naxis - v + 1 else v.

(** The bounds [a:b] of the data section on an axis of length [naxis] under
    the cutout [lo:hi] of that axis: mirrored when the cutout runs
    backwards, shifted by the start of the cutout, and clipped to
    [1..naxis]. *)
Definition remap_axis (naxis lo hi a b : Z) : Z * Z :=
  if lo >? hi then
    (Z.max ((naxis - b + 1) - (naxis - lo + 1) + 1) 1,
     Z.min ((naxis - a + 1) - (naxis - lo + 1) + 1) naxis)
  else
    (Z.max (a - lo + 1) 1, Z.min (b - lo + 1) naxis).

(** The section that [reset_datasec] formats from the four cutout bounds
    and the four bounds of the data section. *)
Definition remapped (naxis1 naxis2 c0 c1 c2 c3 a b c d : Z) : pystr :=
  let x := remap_axis naxis1 (from_end_value naxis1 c0) (from_end_value naxis1 c1) a b in
  let y := remap_axis naxis2 (from_end_value naxis2 c2) (from_end_value naxis2 c3) c d in
  format_section (fst x) (snd x) (fst y) (snd y).

(** The four bounds that [reset_datasec] reads in a parsed cutout: a
    leading extension number is dropped from a list of five. *)
Definition cutout_bounds (cutout : list Z) : option (Z * Z * Z * Z) :=
  match cutout with
  | [c0; c1; c2; c3] => Some (c0, c1, c2, c3)
  | [_; c0; c1; c2; c3] => Some (c0, c1, c2, c3)
  | c0 :: c1 :: c2 :: c3 :: _ :: _ :: _ => Some (c0, c1, c2, c3)
  | _ => None
  end.

End DatasecAxis.

(* ===================================================================== *)
(** * pymop/astrometry/daophot.py: the shape of the returned table *)
(* ===================================================================== *)
Module DaophotTable.
Import Py Daophot.

Definition is_float_cell (v : cell) : bool :=
  match v with CFloat _ => true | _ => false end.

Definition is_int_cell (v : cell) : bool :=
  match v with CInt _ => true | _ => false end.

Definition is_str_cell (v : cell) : bool :=
  match v with CStr _ => true | _ => false end.

(** The kind of cell that the format of a column calls for. *)
Definition column_kind (col : pystr) (v : cell) : bool :=
  match format !! col with
  | Some fmt =>
      if re_match_percent "f" fmt then is_float_cell v
      else if re_match_percent "d" fmt then is_int_cell v
      else is_str_cell v
  | None => false
  end.

Definition float_columns : list pystr :=
  [py "X"; py "Y"; py "MAG"; py "MERR"; py "XSHIFT"; py "YSHIFT"].

Definition int_columns : list pystr := [py "ID"; py "LID"].

(** A conversion that reads the integer literals only, for the examples. *)
Definition float_of_int_literal (s : pystr) : result float :=
  match int_of_str s with
  | Ok z => Ok (PrimFloat.of_uint63 (Uint63.of_Z z))
  | Raise e => Raise e
  end.

End DaophotTable.

(* ===================================================================== *)
(** * More Python built-ins: substrings, stripping, paths, padding *)
(* ===================================================================== *)
Module PyMore.
Import Py.

(** [sub in s] for two strings. *)
Fixpoint contains (sub s : pystr) : bool :=
  startswith sub s ||
  match s with
  | [] => false
  | _ :: t => contains sub t
  end.

(** White space for [str.strip] and [str.split]. *)
Definition is_whitespace (c : ascii) : bool :=
  let n := nat_of_ascii c in ((9 <=? n)%nat && (n <=? 13)%nat) || (n =? 32)%nat.

Fixpoint lstrip (s : pystr) : pystr :=
  match s with
  | c :: t => if is_whitespace c then lstrip t else s
  | [] => []
  end.

(** [s.strip()] *)
Definition strip (s : pystr) : pystr := rev (lstrip (rev (lstrip s))).

Fixpoint lstrip_slash (s : pystr) : pystr :=
  match s with
  | c :: t => if Ascii.eqb c "/" then lstrip_slash t else s
  | [] => []
  end.

(** [s.rstrip('/')] *)
Definition rstrip_slash (s : pystr) : pystr := rev (lstrip_slash (rev s)).

(** The characters after the last slash; [since] holds those read since the
    last slash seen. *)
Fixpoint basename_from (since s : pystr) : pystr :=
  match s with
  | [] => since
  | c :: t => if Ascii.eqb c "/" then basename_from [] t else basename_from (since ++ [c]) t
  end.

(** [os.path.basename(p)]: [p[p.rfind('/') + 1:]] *)
Definition basename (p : pystr) : pystr := basename_from [] p.

(** [p[:p.rfind('/') + 1]]: [p] up to its last slash, included. *)
Definition head_of (p : pystr) : pystr := take (length p - length (basename p)) p.

(** [os.path.dirname(p)]: the head, without its trailing slashes unless it
    consists of slashes only. *)
Definition dirname (p : pystr) : pystr :=
  let head := head_of p in
  if forallb (fun c => Ascii.eqb c "/") head then head else rstrip_slash head.


(** ["{:02d}".format(n)] for an integer [n]: the sign, then the digits
    filled with zeros up to two characters in all. *)
Definition format_02d (n : Z) : pystr :=
  if n <? 0 then
    "-"%char :: List.repeat "0"%char (2 - S (length (str_of_nonneg (- n)))) ++
    str_of_nonneg (- n)
  else
    List.repeat "0"%char (2 - length (str_of_nonneg n)) ++ str_of_nonneg n.

End PyMore.

(* ===================================================================== *)
(** * ossos/ephem_target.py *)
(* ===================================================================== *)
Module EphemTarget.
Import Py PyMore.

Section Save.
(** The two XML fragments [ASTRO_FORMAT_HEADER] and [ASTRO_FORMAT_FOOTER]
    of the class, taken as they are. *)
Variables ASTRO_FORMAT_HEADER ASTRO_FORMAT_FOOTER : pystr.





End Save.

End EphemTarget.

(* ===================================================================== *)
(** * Tags of the two storage modules *)
(* ===================================================================== *)
Module Tags.
Import Py PyMore.

(** [daomop/storage.py] *)
Definition TAG_URI_BASE : pystr := py "ivo://canfar.uvic.ca/daomop".

(** [ossos/storage/__init__.py] *)
Definition OSSOS_TAG_URI_BASE : pystr := py "ivo://canfar.uvic.ca/ossos".

(** [tag_uri] of [daomop/storage.py] *)
Definition tag_uri (key : pystr) : pystr :=
  if contains TAG_URI_BASE key then key
  else TAG_URI_BASE ++ py "#" ++ strip key.

(** [tag_uri] of [ossos/storage/__init__.py] *)
Definition ossos_tag_uri (key : pystr) : pystr :=
  if contains OSSOS_TAG_URI_BASE key then key
  else OSSOS_TAG_URI_BASE ++ py "#" ++ strip key.

(** [get_process_tag] of [daomop/storage.py]:
    ["%s_%s%s" % (program, str(version), str(ccd).zfill(2))] *)
Definition get_process_tag (program : pystr) (ccd : Z) (version : pystr) : pystr :=
  program ++ py "_" ++ version ++ zfill 2 (str_of_Z ccd).

(** [get_process_tag] of [ossos/storage/__init__.py]:
    ["%s_%s" % (program, str(ccd).zfill(2))] *)
Definition ossos_get_process_tag (program : pystr) (ccd : Z) : pystr :=
  program ++ py "_" ++ zfill 2 (str_of_Z ccd).

End Tags.

(* ===================================================================== *)
(** * daomop/storage.py: artifacts and their names *)
(* ===================================================================== *)
Module Artifacts.
Import Py PyMore.

Definition DBIMAGES : pystr := py "vos:cfis/solar_system/dbimages".
Definition PROCESSED_VERSION : pystr := py "p".
Definition IMAGE_EXT : pystr := py ".fits.fz".

(** [class Observation]: the name of the data set, an [int] or a [str],
    and the container node. *)
Record Observation : Type := MkObservation {
  dataset_name : OssosStorage.pyobj;
  dbimages : pystr
}.

(** [Observation.__str__]: ["{}".format(self.dataset_name)] *)
Definition observation_str (o : Observation) : pystr :=
  OssosStorage.str (dataset_name o).

(** [class Artifact]; [ccd] is an [int] or [None]. *)
Record Artifact : Type := MkArtifact {
  observation : Observation;
  ccd : option Z;
  _subdir : option pystr;
  _ext : option pystr;
  _version : option pystr;
  _prefix : option pystr
}.

(** [Artifact(observation, ccd=ccd)], the other keywords at their defaults. *)
Definition artifact_of (o : Observation) (ccd : option Z) : Artifact :=
  MkArtifact o ccd None (Some IMAGE_EXT) (Some PROCESSED_VERSION) None.

(** The properties [subdir], [ext], [version] and [prefix]. *)
Definition subdir (self : Artifact) : pystr :=
  match _subdir self with
  | None => OssosStorage.str (dataset_name (observation self))
  | Some s => s
  end.

Definition ext (self : Artifact) : pystr :=
  match _ext self with None => py "" | Some e => e end.

Definition version (self : Artifact) : pystr :=
  match _version self with None => py "" | Some v => v end.

Definition prefix (self : Artifact) : pystr :=
  match _prefix self with None => py "" | Some p => p end.

(** [Artifact.uri] *)
Definition uri (self : Artifact) : pystr :=
  let uri := dbimages (observation self) ++ py "/" ++ subdir self in
  match ccd self with
  | None =>
      uri ++ py "/" ++ prefix self ++ observation_str (observation self) ++
      version self ++ ext self
  | Some n =>
      uri ++ py "/ccd" ++ format_02d n ++ py "/" ++
      prefix self ++ observation_str (observation self) ++ version self ++
      format_02d n ++ ext self
  end.

(** [Artifact.filename] *)
Definition filename (self : Artifact) : pystr := basename (uri self).

(** [log_location] *)
Definition log_location (expnum : OssosStorage.pyobj) (ccd : option Z) : pystr :=
  dirname (uri (artifact_of (MkObservation expnum DBIMAGES) ccd)).

End Artifacts.

(* ===================================================================== *)
(** * ossos/storage: the local name of an image *)
(* ===================================================================== *)
Module GetImage.
Import Py PyMore OssosStorage.

(** The name of the local file of [get_image]: an empty or missing
    [subdir] is replaced by [str(expnum)], and the name is the last
    component of the URI. *)
Definition get_image_filename (expnum : pyobj) (ccd : option Z)
    (version : pystr) (ext subdir prefix : option pystr) : pystr :=
  let subdir :=
    match subdir with
    | None => str expnum
    | Some [] => str expnum
    | Some d => d
    end in
  let uri := get_uri expnum ccd version ext (Some subdir) prefix in
  basename uri.

End GetImage.

(* ===================================================================== *)
(** * ossos/storage: the life of a [SyncingVOFile] *)
(* ===================================================================== *)
Module SyncingLife.
Import Py PyMore OssosStorage.



Section Life.
(** [tempfile.gettempdir()] *)
Variable tempdir : pystr.





End Life.

End SyncingLife.

(* ===================================================================== *)
(** * [mkdir] of the two storage modules *)
(* ===================================================================== *)
Module Mkdir.
Import Py PyMore.

(** The first loop: the directories that are missing, from [dirname]
    upwards.  [dirs] holds the directories of VOSpace, those for which
    [isdir] answers true; the loop ends at the first of them. *)
Fixpoint queue (fuel : nat) (dirs : gset pystr) (dirname_ : pystr)
    (dir_list : list pystr) : option (list pystr) :=
  match fuel with
  | O => None
  | S fuel =>
      if bool_decide (dirname_ ∈ dirs) then Some dir_list
      else queue fuel dirs (dirname dirname_) (dir_list ++ [dirname_])
  end.

(** The second loop: [dir_list.pop()] takes the directories from the end
    of the list; each one is made ([EEXIST] counting as made).  The state
    is the directories of VOSpace and the calls of [mkdir] so far. *)
Definition create (dir_list : list pystr) (dirs : gset pystr)
    : gset pystr * list pystr :=
  fold_left (fun '(dirs, made) d => ({[d]} ∪ dirs, made ++ [d]))
            (rev dir_list) (dirs, []).

(** [mkdir(dirname)]; [None] when the first loop is still running after
    [fuel] turns. *)
Definition mkdir (fuel : nat) (dirname_ : pystr) (dirs : gset pystr)
    : option (gset pystr * list pystr) :=
  match queue fuel dirs dirname_ [] with
  | Some dir_list => Some (create dir_list dirs)
  | None => None
  end.

(** [dirname], [os.path.dirname(dirname)], ...: the first [k] of them,
    [dirname] first. *)
Fixpoint ancestors (k : nat) (dirname_ : pystr) : list pystr :=
  match k with
  | O => []
  | S k => dirname_ :: ancestors k (dirname dirname_)
  end.

End Mkdir.

(* ===================================================================== *)
(** * mopgui/view/list_ctrl.py *)
(* ===================================================================== *)
Module ListCtrl.
Import Py.

(** The loop of [populate_list], for the dictionary [item_data_map]. *)
Fixpoint populate_from (index : nat) (datatuples : list (list pystr))
    (item_data_map : gmap nat (list pystr)) : gmap nat (list pystr) :=
  match datatuples with
  | [] => item_data_map
  | tuple :: rest => populate_from (S index) rest (<[index := tuple]> item_data_map)
  end.

(** [self.itemDataMap] after [populate_list(datatuples)] *)
Definition populate_list (datatuples : list (list pystr)) : gmap nat (list pystr) :=
  populate_from 0 datatuples ∅.

End ListCtrl.

(* ===================================================================== *)
(** * Facts about the Python built-ins *)
(* ===================================================================== *)
Section PyFacts.
Import Py.

Lemma digit_char_spec (d : Z) :
  0 <= d < 10 -> is_digit (digit_char d) = true /\ digit_val (digit_char d) = d.
Proof.
  intros H.
  assert (Hd : d = 0 \/ d = 1 \/ d = 2 \/ d = 3 \/ d = 4 \/ d = 5 \/
               d = 6 \/ d = 7 \/ d = 8 \/ d = 9) by lia.
  repeat (destruct Hd as [-> | Hd]; [split; reflexivity|]).
  subst d; split; reflexivity.
Qed.

Lemma parse_digits_cons (a d : Z) (t : pystr) :
  0 <= d < 10 ->
  parse_digits a (digit_char d :: t) = parse_digits (10 * a + d) t.
Proof.
  intros H. destruct (digit_char_spec d H) as [Hc Hv].
  simpl. rewrite Hc, Hv. reflexivity.
Qed.

(** The digits are produced most significant first, and reading them back
    shifts the accumulator and adds the number. *)
Lemma digits_of_spec (k : nat) : forall (n : Z) (acc : pystr),
  0 <= n < 2 ^ Z.of_nat (S k) ->
  exists ds, digits_of (S k) n acc = ds ++ acc /\ ds <> [] /\ all_digits ds /\
    exists m, forall a t, parse_digits a (ds ++ t) = parse_digits (a * m + n) t.
Proof.
  induction k as [|k IH]; intros n acc Hn.
  - assert (Hlt : (n <? 10) = true) by (apply Z.ltb_lt; simpl in Hn; lia).
    simpl digits_of. rewrite Hlt.
    assert (Hmod : n mod 10 = n) by (apply Z.mod_small; simpl in Hn; lia).
    rewrite Hmod. exists [digit_char n].
    assert (Hd : 0 <= n < 10) by (simpl in Hn; lia).
    split; [reflexivity|]. split; [discriminate|]. split.
    + constructor; [apply digit_char_spec; exact Hd | constructor].
    + exists 10. intros a t. simpl app. rewrite parse_digits_cons by exact Hd.
      f_equal. lia.
  - change (digits_of (S (S k)) n acc) with
      (if n <? 10 then digit_char (n mod 10) :: acc
       else digits_of (S k) (n / 10) (digit_char (n mod 10) :: acc)).
    assert (Hm : 0 <= n mod 10 < 10) by (apply Z.mod_pos_bound; lia).
    destruct (n <? 10) eqn:Hlt.
    + apply Z.ltb_lt in Hlt.
      assert (Hmod : n mod 10 = n) by (apply Z.mod_small; lia).
      rewrite Hmod. exists [digit_char n].
      split; [reflexivity|]. split; [discriminate|]. split.
      * constructor; [apply digit_char_spec; lia | constructor].
      * exists 10. intros a t. simpl app. rewrite parse_digits_cons by lia.
        f_equal. lia.
    + apply Z.ltb_ge in Hlt.
      assert (Hdiv : 0 <= n / 10 < 2 ^ Z.of_nat (S k)).
      { split; [apply Z.div_pos; lia|].
        apply Z.div_lt_upper_bound; [lia|].
        rewrite (Nat2Z.inj_succ (S k)), Z.pow_succ_r in Hn by lia.
        assert (0 < 2 ^ Z.of_nat (S k)) by (apply Z.pow_pos_nonneg; lia).
        lia. }
      destruct (IH (n / 10) (digit_char (n mod 10) :: acc) Hdiv)
        as (ds & Heq & Hne & Hall & m & Hparse).
      exists (ds ++ [digit_char (n mod 10)]).
      split; [rewrite Heq, <- app_assoc; reflexivity|].
      split; [destruct ds; discriminate|].
      split.
      * apply Forall_app; split; [exact Hall|].
        constructor; [apply digit_char_spec; exact Hm | constructor].
      * exists (10 * m). intros a t.
        rewrite <- app_assoc. simpl app. rewrite Hparse.
        rewrite parse_digits_cons by exact Hm.
        f_equal. pose proof (Z.div_mod n 10). lia.
Qed.

Lemma str_of_nonneg_spec (n : Z) :
  0 <= n ->
  str_of_nonneg n <> [] /\ all_digits (str_of_nonneg n) /\
  forall t, parse_digits 0 (str_of_nonneg n ++ t) = parse_digits n t.
Proof.
  intros Hn. unfold str_of_nonneg.
  assert (Hb : 0 <= n < 2 ^ Z.of_nat (S (Z.to_nat (Z.log2 n)))).
  { split; [exact Hn|].
    rewrite Nat2Z.inj_succ, Z2Nat.id by apply Z.log2_nonneg.
    destruct (Z.eq_dec n 0) as [-> | Hnz]; [reflexivity|].
    apply Z.log2_spec. lia. }
  destruct (digits_of_spec _ n [] Hb) as (ds & Heq & Hne & Hall & m & Hparse).
  rewrite Heq, app_nil_r.
  split; [exact Hne|]. split; [exact Hall|].
  intros t. rewrite Hparse. f_equal.
Qed.

Lemma is_digit_not_sign (c : ascii) :
  is_digit c = true -> Ascii.eqb c "-" = false /\ Ascii.eqb c "+" = false.
Proof.
  intros H. split; apply Ascii.eqb_neq; intros ->; discriminate H.
Qed.

(** [int] reads back what [str] prints. *)
Lemma int_of_str_of_Z (z : Z) : int_of_str (str_of_Z z) = Ok z.
Proof.
  unfold str_of_Z. destruct (z <? 0) eqn:Hneg.
  - apply Z.ltb_lt in Hneg.
    destruct (str_of_nonneg_spec (- z)) as (Hne & _ & Hparse); [lia|].
    specialize (Hparse []). rewrite app_nil_r in Hparse.
    unfold int_of_str. rewrite Ascii.eqb_refl.
    destruct (str_of_nonneg (- z)) as [|c t] eqn:Hs; [congruence|].
    rewrite Hparse. simpl. f_equal. lia.
  - apply Z.ltb_ge in Hneg.
    destruct (str_of_nonneg_spec z Hneg) as (Hne & Hall & Hparse).
    specialize (Hparse []). rewrite app_nil_r in Hparse.
    unfold int_of_str.
    destruct (str_of_nonneg z) as [|c t] eqn:Hs; [congruence|].
    inversion Hall as [|? ? Hc _]; subst.
    destruct (is_digit_not_sign c Hc) as [-> ->].
    rewrite Hparse. reflexivity.
Qed.

(** A printed integer is an optional minus sign and a non-empty run of
    digits. *)
Lemma str_of_Z_shape (z : Z) :
  exists sign ds, str_of_Z z = sign ++ ds /\ (sign = [] \/ sign = ["-"%char]) /\
                  ds <> [] /\ all_digits ds.
Proof.
  unfold str_of_Z. destruct (z <? 0) eqn:Hneg.
  - apply Z.ltb_lt in Hneg.
    destruct (str_of_nonneg_spec (- z)) as (Hne & Hall & _); [lia|].
    exists ["-"%char]. exists (str_of_nonneg (- z)). auto.
  - apply Z.ltb_ge in Hneg.
    destruct (str_of_nonneg_spec z Hneg) as (Hne & Hall & _).
    exists []. exists (str_of_nonneg z). auto.
Qed.

Lemma startswith_In (old s : pystr) (c : ascii) :
  startswith old s = true -> In c old -> In c s.
Proof.
  revert s. induction old as [|a old IH]; intros s Hs Hin; [destruct Hin|].
  destruct s as [|b s]; [discriminate|].
  simpl in Hs. apply andb_prop in Hs as [Hab Hrest].
  apply Ascii.eqb_eq in Hab. subst b.
  destruct Hin as [-> | Hin]; [left; reflexivity | right; auto].
Qed.

(** Replacing a pattern that needs a character absent from the text leaves
    the text as it is. *)
Lemma replace_absent (old new s : pystr) (c : ascii) :
  In c old -> ~ In c s -> replace old new s = s.
Proof.
  intros Hold. unfold replace. induction s as [|a s IH]; intros Hs; [reflexivity|].
  simpl. destruct (startswith old (a :: s)) eqn:Hsw.
  - exfalso. apply Hs. eapply startswith_In; eauto.
  - f_equal. apply IH. intros Hin. apply Hs. right. exact Hin.
Qed.

End PyFacts.

(* ===================================================================== *)
(** * daomop/storage.py: data sections under cutouts *)
(* ===================================================================== *)
Section DatasecFacts.
Import Py Storage.

Lemma span_app_run (p : ascii -> bool) (run rest : pystr) :
  Forall (fun c => p c = true) run ->
  span p (run ++ rest) = (run ++ fst (span p rest), snd (span p rest)).
Proof.
  induction 1 as [|c run Hc _ IH]; simpl.
  - destruct (span p rest); reflexivity.
  - rewrite Hc, IH. reflexivity.
Qed.

Lemma span_split (p : ascii -> bool) (s : pystr) :
  s = fst (span p s) ++ snd (span p s).
Proof.
  induction s as [|c s IH]; simpl; [reflexivity|].
  destruct (p c); [|reflexivity].
  destruct (span p s) as [run rest]. simpl in *. congruence.
Qed.

Lemma span_length (p : ascii -> bool) (s : pystr) :
  (length (snd (span p s)) <= length s)%nat.
Proof.
  rewrite (span_split p s) at 2. rewrite length_app. lia.
Qed.

(** A match consumes at least its group and one delimiter. *)
Lemma match_here_length (s g rest : pystr) :
  match_here s = Some (g, rest) -> (length rest < length s)%nat.
Proof.
  unfold match_here. intros H.
  set (s1 := match s with
             | c :: t => if is_sign c then ([c], t) else ([], s)
             | [] => ([], s)
             end) in H.
  assert (Hs1 : (length (snd s1) <= length s)%nat).
  { subst s1. destruct s as [|c t]; simpl; [lia|].
    destruct (is_sign c); simpl; lia. }
  destruct s1 as [sign s1']. simpl in Hs1.
  pose proof (span_split is_star_digit s1') as Hb.
  destruct (span is_star_digit s1') as [body s2]. simpl in Hb.
  pose proof (span_length is_delim s2) as Hd.
  destruct (span is_delim s2) as [delims s3]. simpl in Hd.
  destruct body as [|b body]; [discriminate|].
  destruct delims; [discriminate|].
  inversion H; subst. rewrite length_app in Hs1. simpl in Hs1. lia.
Qed.

Lemma findall_fuel_enough (f1 : nat) : forall (f2 : nat) (s : pystr),
  (length s <= f1)%nat -> (length s <= f2)%nat ->
  findall_fuel f1 s = findall_fuel f2 s.
Proof.
  induction f1 as [|f1 IH]; intros f2 s H1 H2.
  - destruct s; [|simpl in H1; lia]. destruct f2; reflexivity.
  - destruct f2 as [|f2]; [destruct s; [reflexivity | simpl in H2; lia]|].
    destruct s as [|c t]; [reflexivity|].
    simpl findall_fuel. simpl in H1, H2.
    destruct (match_here (c :: t)) as [[g rest]|] eqn:Hm.
    + apply match_here_length in Hm. simpl in Hm.
      f_equal. apply IH; lia.
    + apply IH; lia.
Qed.

(** The scan, without its fuel. *)
Lemma findall_unfold (s : pystr) :
  findall s =
  match s with
  | [] => []
  | _ :: t =>
      match match_here s with
      | Some (g, rest) => g :: findall rest
      | None => findall t
      end
  end.
Proof.
  unfold findall. destruct s as [|c t]; [reflexivity|].
  simpl findall_fuel.
  destruct (match_here (c :: t)) as [[g rest]|] eqn:Hm.
  - apply match_here_length in Hm. simpl in Hm.
    f_equal. apply findall_fuel_enough; lia.
  - reflexivity.
Qed.

Lemma digit_is_star_digit (c : ascii) : is_digit c = true -> is_star_digit c = true.
Proof. intros H. unfold is_star_digit. rewrite H. apply orb_true_r. Qed.

Lemma digit_not_delim (c : ascii) : is_digit c = true -> is_delim c = false.
Proof.
  intros H. unfold is_delim.
  destruct (Ascii.eqb_spec c ":") as [-> | _]; [discriminate H|].
  destruct (Ascii.eqb_spec c ",") as [-> | _]; [discriminate H|].
  destruct (Ascii.eqb_spec c "]") as [-> | _]; [discriminate H|].
  reflexivity.
Qed.

(** No delimiter starts a printed integer. *)
Lemma span_delim_number (z : Z) (t : pystr) :
  span is_delim (str_of_Z z ++ t) = ([], str_of_Z z ++ t).
Proof.
  destruct (str_of_Z_shape z) as (sign & ds & -> & Hsign & Hne & Hall).
  destruct ds as [|c ds]; [congruence|].
  inversion Hall as [|? ? Hc _]; subst.
  destruct Hsign as [-> | ->]; simpl.
  - rewrite (digit_not_delim c Hc). reflexivity.
  - reflexivity.
Qed.

(** A printed integer followed by a delimiter is matched as a whole, with
    the run of delimiters after it. *)
Lemma match_here_number (z : Z) (d : ascii) (rest : pystr) :
  is_delim d = true ->
  match_here (str_of_Z z ++ d :: rest) = Some (str_of_Z z, snd (span is_delim rest)).
Proof.
  intros Hd.
  destruct (str_of_Z_shape z) as (sign & ds & -> & Hsign & Hne & Hall).
  assert (Hsd : Forall (fun c => is_star_digit c = true) ds).
  { eapply Forall_impl; [exact Hall|]. apply digit_is_star_digit. }
  assert (Hnd : is_star_digit d = false).
  { unfold is_delim in Hd. unfold is_star_digit.
    destruct (Ascii.eqb_spec d ":") as [-> | _]; [reflexivity|].
    destruct (Ascii.eqb_spec d ",") as [-> | _]; [reflexivity|].
    destruct (Ascii.eqb_spec d "]") as [-> | _]; [reflexivity|].
    discriminate Hd. }
  assert (Hbody : span is_star_digit (ds ++ d :: rest) = (ds, d :: rest)).
  { rewrite span_app_run by exact Hsd. simpl. rewrite Hnd. simpl.
    rewrite app_nil_r. reflexivity. }
  destruct ds as [|c ds]; [congruence|].
  inversion Hall as [|? ? Hc _]; subst.
  destruct (is_digit_not_sign c Hc) as [Hm Hp].
  destruct Hsign as [-> | ->]; cbn [app] in *; unfold match_here.
  - replace (is_sign c) with false by (unfold is_sign; rewrite Hm, Hp; reflexivity).
    rewrite Hbody. cbn [span]. rewrite Hd.
    destruct (span is_delim rest); reflexivity.
  - change (is_sign "-") with true. cbv iota.
    rewrite Hbody. cbn [span]. rewrite Hd.
    destruct (span is_delim rest); reflexivity.
Qed.

Lemma findall_number (z : Z) (d : ascii) (rest : pystr) :
  is_delim d = true ->
  span is_delim rest = ([], rest) ->
  findall (str_of_Z z ++ d :: rest) = str_of_Z z :: findall rest.
Proof.
  intros Hd Hrest. rewrite findall_unfold.
  rewrite (match_here_number z d rest Hd), Hrest. simpl.
  destruct (str_of_Z_shape z) as (sign & ds & Heq & Hsign & Hne & _).
  destruct (str_of_Z z ++ d :: rest) eqn:E; [|reflexivity].
  rewrite Heq in E. destruct Hsign as [-> | ->]; destruct ds; simpl in E; congruence.
Qed.

Lemma findall_skip (c : ascii) (t : pystr) :
  is_sign c = false -> is_star_digit c = false -> findall (c :: t) = findall t.
Proof.
  intros Hs Hb. rewrite findall_unfold. unfold match_here.
  rewrite Hs. cbn [span]. rewrite Hb.
  destruct (span is_delim (c :: t)); reflexivity.
Qed.

Lemma findall_format_section (a b c d : Z) :
  findall (format_section a b c d) = [str_of_Z a; str_of_Z b; str_of_Z c; str_of_Z d].
Proof.
  unfold format_section, py. cbn [list_ascii_of_string app].
  rewrite findall_skip by reflexivity.
  rewrite findall_number; [|reflexivity|apply span_delim_number].
  rewrite findall_number; [|reflexivity|apply span_delim_number].
  rewrite findall_number; [|reflexivity|apply span_delim_number].
  rewrite findall_number; [|reflexivity|reflexivity].
  reflexivity.
Qed.

(** Parsing a formatted section gives its four bounds back. *)
Lemma datasec_to_list_format_section (a b c d : Z) :
  datasec_to_list (format_section a b c d) = Ok [a; b; c; d].
Proof.
  unfold datasec_to_list. rewrite findall_format_section.
  simpl. rewrite !int_of_str_of_Z. reflexivity.
Qed.

Lemma str_of_Z_section_chars (z : Z) :
  Forall (fun c => is_section_char c = true) (str_of_Z z).
Proof.
  destruct (str_of_Z_shape z) as (sign & ds & -> & Hsign & _ & Hall).
  apply Forall_app. split.
  - destruct Hsign as [-> | ->]; repeat constructor.
  - eapply Forall_impl; [exact Hall|].
    intros c Hc. unfold is_section_char. rewrite Hc. reflexivity.
Qed.

Lemma format_section_chars (a b c d : Z) :
  Forall (fun ch => is_section_char ch = true) (format_section a b c d).
Proof.
  unfold format_section.
  repeat (apply Forall_app; split);
    try apply str_of_Z_section_chars; repeat constructor.
Qed.

Lemma section_chars_absent (s : pystr) (c : ascii) :
  Forall (fun ch => is_section_char ch = true) s ->
  is_section_char c = false -> ~ In c s.
Proof.
  intros Hall Hc Hin. rewrite Forall_forall in Hall.
  apply list_elem_of_In, Hall in Hin. congruence.
Qed.

(** A cutout without blanks and stars goes through the substitutions
    unchanged. *)
Lemma substitute_wildcards_plain (s : pystr) (naxis1 naxis2 : Z) :
  Forall (fun ch => is_section_char ch = true) s ->
  substitute_wildcards s naxis1 naxis2 = s.
Proof.
  intros Hall. unfold substitute_wildcards.
  assert (Hblank : ~ In " "%char s) by (apply section_chars_absent; auto).
  assert (Hstar : ~ In "*"%char s) by (apply section_chars_absent; auto).
  rewrite (replace_absent _ _ s " ") by (auto; simpl; tauto).
  rewrite (replace_absent _ _ s "*") by (auto; simpl; tauto).
  rewrite (replace_absent _ _ s "*") by (auto; simpl; tauto).
  rewrite (replace_absent _ _ s "*") by (auto; simpl; tauto).
  rewrite (replace_absent _ _ s "*") by (auto; simpl; tauto).
  reflexivity.
Qed.

Lemma format_section_inj (a b c d a' b' c' d' : Z) :
  format_section a b c d = format_section a' b' c' d' ->
  a = a' /\ b = b' /\ c = c' /\ d = d'.
Proof.
  intros H. apply (f_equal datasec_to_list) in H.
  rewrite !datasec_to_list_format_section in H.
  inversion H. auto.
Qed.

(** C3: without a cutout ([None]) or with the whole-image cutout
    ["[*,*]"], [reset_datasec] returns its [datasec] argument unchanged,
    whatever the string and the image dimensions are. *)
Theorem reset_datasec_without_cutout (datasec : pystr) (naxis1 naxis2 : Z) :
  reset_datasec None datasec naxis1 naxis2 = Ok (VStr datasec) /\
  reset_datasec (Some (py "[*,*]")) datasec naxis1 naxis2 = Ok (VStr datasec).
Proof. split; reflexivity. Qed.

(** C4, as the code has it: for a cutout ["[x1:x2,y1:y2]"] with
    [1 <= x1 <= x2 <= naxis1] and [1 <= y1 <= y2 <= naxis2] and a data
    section that parses to the four bounds [a], [b], [c], [d], the result
    is the section shifted by [x1 - 1] and [y1 - 1], with its lower bounds
    raised to 1 and its upper bounds lowered to [naxis1] and [naxis2], the
    dimensions passed as arguments (not the extent of the cutout). *)
Theorem reset_datasec_shifts_and_clips
    (x1 x2 y1 y2 a b c d naxis1 naxis2 : Z) (datasec : pystr) :
  1 <= x1 -> x1 <= x2 -> x2 <= naxis1 ->
  1 <= y1 -> y1 <= y2 -> y2 <= naxis2 ->
  datasec_to_list datasec = Ok [a; b; c; d] ->
  reset_datasec (Some (format_section x1 x2 y1 y2)) datasec naxis1 naxis2 =
  Ok (VStr (format_section (Z.max (a - x1 + 1) 1) (Z.min (b - x1 + 1) naxis1)
                           (Z.max (c - y1 + 1) 1) (Z.min (d - y1 + 1) naxis2))).
Proof.
  intros Hx1 Hx12 Hx2 Hy1 Hy12 Hy2 Hparse.
  unfold reset_datasec.
  rewrite bool_decide_eq_false_2.
  2:{ intros Heq.
      apply (section_chars_absent _ "*" (format_section_chars x1 x2 y1 y2));
        [reflexivity|].
      rewrite Heq. simpl. tauto. }
  rewrite Hparse.
  rewrite substitute_wildcards_plain by apply format_section_chars.
  rewrite datasec_to_list_format_section.
  cbn [length bool_decide decide_rel]. 
  rewrite bool_decide_eq_false_2 by discriminate.
  unfold from_end. cbn [getitem lookup list_lookup bind].
  replace (x1 <? 0) with false by (symmetry; apply Z.ltb_ge; lia).
  cbn [getitem lookup list_lookup bind].
  replace (x2 <? 0) with false by (symmetry; apply Z.ltb_ge; lia).
  cbn [getitem lookup list_lookup bind].
  replace (y1 <? 0) with false by (symmetry; apply Z.ltb_ge; lia).
  cbn [getitem lookup list_lookup bind].
  replace (y2 <? 0) with false by (symmetry; apply Z.ltb_ge; lia).
  cbn [getitem lookup list_lookup bind].
  replace (x1 >? x2) with false by (rewrite Z.gtb_ltb; symmetry; apply Z.ltb_ge; lia).
  replace (y1 >? y2) with false by (rewrite Z.gtb_ltb; symmetry; apply Z.ltb_ge; lia).
  cbn [getitem lookup list_lookup bind].
  reflexivity.
Qed.

Lemma reset_datasec_shifts_and_clips_witness :
  reset_datasec (Some (format_section 11 20 1 30)) (py "[33:2080,1:4612]") 2112 4644 =
  Ok (VStr (format_section (Z.max (33 - 11 + 1) 1) (Z.min (2080 - 11 + 1) 2112)
                           (Z.max (1 - 1 + 1) 1) (Z.min (4612 - 1 + 1) 4644))).
Proof.
  apply (reset_datasec_shifts_and_clips 11 20 1 30 33 2080 1 4612 2112 4644);
    try lia; reflexivity.
Defined.

(** C4, counterexample: the 10 by 10 cutout ["[1:10,1:10]"] of a 100 by 100
    image whose data section is ["[1:100,1:100]"] gets the section
    ["[1:100,1:100]"], which does not lie within the 10 by 10 cutout. *)
Lemma reset_datasec_exceeds_cutout :
  ~ (exists section,
       reset_datasec (Some (py "[1:10,1:10]")) (py "[1:100,1:100]") 100 100
         = Ok (VStr section) /\
       within_extent (10 - 1 + 1) (10 - 1 + 1) section).
Proof.
  intros (section & Hrun & a & b & c & d & Heq & _ & Hb & _).
  vm_compute in Hrun. inversion Hrun as [Hs]. clear Hrun.
  rewrite Heq in Hs.
  change (format_section 1 100 1 100 = format_section a b c d) in Hs.
  apply format_section_inj in Hs as (_ & <- & _). lia.
Qed.

(** Line 701: the wildcard of the y axis is replaced by ["1:naxis1"],
    the extent of the x axis.  On a 100 by 200 image the cutout
    ["[1:5,*]"] becomes ["[1:5,1:100]"] and is parsed as such.  The end of
    a range that runs forwards is not used by the re-mapping, so that the
    re-mapped section differs from that of ["[1:5,1:naxis2]"] only when
    [naxis1 < 1 <= naxis2], which no image has. *)
Lemma wildcard_y_takes_naxis1 :
  substitute_wildcards (py "[1:5,*]") 100 200 = py "[1:5,1:100]" /\
  datasec_to_list (substitute_wildcards (py "[1:5,*]") 100 200) = Ok [1; 5; 1; 100] /\
  substitute_wildcards (py "[*,1:5]") 100 200 = py "[1:100,1:5]" /\
  reset_datasec (Some (py "[1:5,*]")) (py "[1:10,1:10]") 0 10 = Ok (VStr (py "[1:0,1:1]")) /\
  reset_datasec (Some (py "[1:5,1:10]")) (py "[1:10,1:10]") 0 10 = Ok (VStr (py "[1:0,1:10]")).
Proof. repeat split; vm_compute; reflexivity. Qed.

(** C9, the defect: when the cutout does not parse, the name [datasec]
    is already bound to the parsed list, which is returned in place of the
    string; and a cutout with fewer than four bounds raises [IndexError]. *)
Lemma reset_datasec_unparsed_cutout :
  reset_datasec (Some (py "[1:*,1:2]")) (py "[1:10,1:10]") 100 100
    = Ok (VList [1; 10; 1; 10]) /\
  reset_datasec (Some (py "[1]")) (py "[1:10,1:10]") 100 100 = Raise IndexError /\
  reset_datasec (Some (py "[1:5,1:5]")) (py "[*:10,1:10]") 100 100
    = Ok (VStr (py "[*:10,1:10]")).
Proof. repeat split; vm_compute; reflexivity. Qed.

End DatasecFacts.

(* ===================================================================== *)
(** * daomop/storage.py: the retry loop of [copy] *)
(* ===================================================================== *)
Section CopyFacts.
Import Py Storage.
Context {R E : Type}.
Variable client_copy : pystr -> pystr -> nat -> @outcome R E.
Variables source destination : pystr.

(** The loop counter is one more than the number of calls made; from a
    state with fewer than ten calls, enough fuel leads to an outcome after
    at most ten calls in all. *)
Lemma copy_loop_spec (fuel : nat) : forall (calls : nat),
  (calls < 10)%nat -> (10 <= fuel + calls)%nat ->
  exists res n,
    copy_loop client_copy fuel source destination calls (Z.of_nat calls + 1)
      = Some (res, n) /\
    (calls < n <= 10)%nat /\
    (forall k, (calls <= k < n - 1)%nat -> exists ex, client_copy source destination k = Raised ex) /\
    client_copy source destination (n - 1)%nat = res /\
    ((exists ex, res = Raised ex) -> n = 10%nat).
Proof.
  induction fuel as [|fuel IH]; intros calls Hlt Hfuel; [lia|].
  simpl copy_loop.
  destruct (client_copy source destination calls) as [r | ex] eqn:Hcall.
  - exists (Returned r), (S calls). split; [reflexivity|].
    split; [lia|]. split; [intros k Hk; lia|].
    split; [replace (S calls - 1)%nat with calls by lia; exact Hcall|].
    intros [ex Hex]. discriminate Hex.
  - unfold MAX_RETRY.
    destruct (Z.of_nat calls + 1 + 1 >? 10) eqn:Hgt.
    + assert (calls = 9%nat) by (rewrite Z.gtb_ltb in Hgt; apply Z.ltb_lt in Hgt; lia).
      subst calls.
      exists (Raised ex), 10%nat. split; [reflexivity|].
      split; [lia|]. split; [intros k Hk; lia|].
      split; [exact Hcall|]. intros _. reflexivity.
    + assert (Hc : (S calls < 10)%nat).
      { rewrite Z.gtb_ltb in Hgt. apply Z.ltb_ge in Hgt. lia. }
      destruct (IH (S calls) Hc) as (res & n & Hrun & Hn & Hprev & Hlast & Hmax);
        [lia|].
      replace (Z.of_nat (S calls) + 1) with (Z.of_nat calls + 1 + 1) in Hrun by lia.
      exists res, n. split; [exact Hrun|].
      split; [lia|]. split.
      * intros k Hk. destruct (Nat.eq_dec k calls) as [-> | Hne].
        -- exists ex. exact Hcall.
        -- apply Hprev. lia.
      * split; [exact Hlast | exact Hmax].
Qed.

(** C2: with fuel for ten turns of the loop, [copy] ends after [n] calls
    of [vospace.client.copy], with [1 <= n <= 10]; every call before the
    last one raised, the outcome of [copy] is the outcome of the last
    call (the value of the first successful call, or the exception of the
    last attempt), an exception leaves [copy] only after the tenth call,
    and [copy] raises exactly when every attempt it made raised. *)
Theorem copy_bounded_retry (fuel : nat) :
  (10 <= fuel)%nat ->
  exists res n,
    copy client_copy fuel source destination = Some (res, n) /\
    (1 <= n <= Z.to_nat MAX_RETRY)%nat /\
    (forall k, (k < n - 1)%nat -> exists ex, client_copy source destination k = Raised ex) /\
    client_copy source destination (n - 1)%nat = res /\
    ((exists ex, res = Raised ex) -> n = Z.to_nat MAX_RETRY) /\
    ((exists ex, res = Raised ex) <->
     (forall k, (k < n)%nat -> exists ex, client_copy source destination k = Raised ex)).
Proof.
  intros Hfuel. unfold copy.
  destruct (copy_loop_spec fuel 0%nat) as (res & n & Hrun & Hn & Hprev & Hlast & Hmax);
    [lia | lia |].
  change (Z.of_nat 0 + 1) with 1 in Hrun.
  change (Z.to_nat MAX_RETRY) with 10%nat.
  exists res, n. split; [exact Hrun|]. split; [lia|].
  split; [intros k Hk; apply Hprev; lia|].
  split; [exact Hlast|]. split; [exact Hmax|].
  split.
  - intros [ex Hex] k Hk.
    destruct (Nat.eq_dec k (n - 1)%nat) as [-> | Hne].
    + exists ex. rewrite Hlast. exact Hex.
    + apply Hprev. lia.
  - intros Hall. destruct (Hall (n - 1)%nat) as [ex Hex]; [lia|].
    exists ex. rewrite <- Hlast. exact Hex.
Qed.

End CopyFacts.

(** A service that fails three times and then answers. *)
Lemma copy_bounded_retry_witness :
  exists res n,
    Storage.copy (fun _ _ k => if (k <? 3)%nat then Storage.Raised k else Storage.Returned tt)
                 10 (Py.py "vos:a") (Py.py "b") = Some (res, n) /\
    (1 <= n <= Z.to_nat Storage.MAX_RETRY)%nat /\
    (forall k, (k < n - 1)%nat -> exists ex,
       (if (k <? 3)%nat then Storage.Raised k else Storage.Returned tt) = Storage.Raised ex) /\
    (if (n - 1 <? 3)%nat then Storage.Raised (n - 1)%nat else Storage.Returned tt) = res /\
    ((exists ex, res = Storage.Raised ex) -> n = Z.to_nat Storage.MAX_RETRY) /\
    ((exists ex, res = Storage.Raised ex) <->
     (forall k, (k < n)%nat -> exists ex,
        (if (k <? 3)%nat then Storage.Raised k else Storage.Returned tt) = Storage.Raised ex)).
Proof.
  apply (copy_bounded_retry
           (fun _ _ k => if (k <? 3)%nat then Storage.Raised k else Storage.Returned tt)
           (Py.py "vos:a") (Py.py "b") 10).
  lia.
Defined.

(* ===================================================================== *)
(** * ossos/storage: URIs and the syncing file *)
(* ===================================================================== *)
Section UriFacts.
Import Py OssosStorage.

Lemma endswith_char_app (c : ascii) (a b : pystr) :
  b <> [] -> endswith_char c (a ++ b) = endswith_char c b.
Proof.
  intros Hb. unfold endswith_char.
  destruct b as [|x b]; [congruence|].
  rewrite last_app_cons. reflexivity.
Qed.

(** Joining a base that does not end with a slash and a relative
    component puts exactly one slash between them. *)
Lemma path_join_relative (a b : pystr) :
  a <> [] -> endswith_char "/" a = false -> startswith (py "/") b = false ->
  path_join a b = a ++ py "/" ++ b.
Proof.
  intros Ha Hend Hrel. unfold path_join. rewrite Hrel, Hend.
  destruct a; [congruence | reflexivity].
Qed.

Lemma all_digits_last (ds : pystr) :
  ds <> [] -> all_digits ds -> endswith_char "/" ds = false.
Proof.
  intros Hne Hall. unfold endswith_char.
  destruct (last ds) as [d|] eqn:Hlast; [|reflexivity].
  apply last_Some in Hlast as [l' ->].
  apply Forall_app in Hall as [_ Hd]. inversion Hd as [|? ? Hdig _]; subst.
  apply Ascii.eqb_neq. intros <-. discriminate Hdig.
Qed.

(** A zero-filled CCD number ends with a digit. *)
Lemma zfill_number_end (n : Z) : endswith_char "/" (zfill 2 (str_of_Z n)) = false.
Proof.
  destruct (str_of_Z_shape n) as (sign & ds & -> & Hsign & Hne & Hall).
  pose proof (all_digits_last ds Hne Hall) as Hend.
  unfold zfill. destruct Hsign as [-> | ->]; cbn [app].
  - destruct ds as [|c ds]; [congruence|].
    inversion Hall as [|? ? Hc _]; subst.
    destruct (is_digit_not_sign c Hc) as [-> ->]. cbn [orb].
    rewrite endswith_char_app by discriminate. exact Hend.
  - rewrite Ascii.eqb_refl. cbn [orb].
    change ("-"%char :: ?p ++ ds) with (("-"%char :: p) ++ ds).
    rewrite endswith_char_app by exact Hne. exact Hend.
Qed.

Lemma dotted_spec (ext : option pystr) :
  dotted ext =
  match ext with
  | None => py ""
  | Some e =>
      match e with
      | c :: _ => if negb (Ascii.eqb c ".") then py "." ++ e else e
      | [] => e
      end
  end.
Proof.
  destruct ext as [[|c e]|]; try reflexivity.
  simpl. destruct (Ascii.eqb c "."); reflexivity.
Qed.

(** C7, as the code has it: the components are put together by
    [os.path.join].  When the directory ([subdir], by default
    [str(expnum)]) is not empty and neither starts nor ends with a slash,
    and the file name does not start with a slash, [get_uri] returns
    [DBIMAGES/subdir/ccdNN/{prefix}{expnum}{version}NN{ext'}] for a CCD
    number and [DBIMAGES/subdir/{prefix}{expnum}{version}{ext'}] without
    one, where [NN] is the number filled with zeros to two characters and
    [ext'] is [ext] with a leading dot when it is non-empty and has none. *)
Theorem get_uri_layout (expnum : pyobj) (ccd : option Z) (version : pystr)
    (ext subdir prefix : option pystr) :
  default (str expnum) subdir <> [] ->
  startswith (py "/") (default (str expnum) subdir) = false ->
  endswith_char "/" (default (str expnum) subdir) = false ->
  startswith (py "/") (image_name expnum ccd version ext prefix) = false ->
  get_uri expnum ccd version ext subdir prefix =
  uri_layout expnum ccd version ext subdir prefix.
Proof.
  intros Hne Hrel Hend Hname.
  unfold get_uri, uri_layout, image_name in *.
  rewrite <- dotted_spec.
  replace (match subdir with Some d => d | None => str expnum end)
    with (default (str expnum) subdir) by (destruct subdir; reflexivity).
  replace (match prefix with Some p => p | None => py "" end)
    with (default (py "") prefix) by (destruct prefix; reflexivity).
  set (dir := default (str expnum) subdir) in *.
  assert (Hbase : path_join DBIMAGES dir = DBIMAGES ++ py "/" ++ dir).
  { apply path_join_relative; [discriminate | reflexivity | exact Hrel]. }
  assert (Hbase_end : endswith_char "/" (DBIMAGES ++ py "/" ++ dir) = false).
  { rewrite app_assoc, endswith_char_app by exact Hne. exact Hend. }
  rewrite Hbase.
  destruct ccd as [n|].
  - rewrite (path_join_relative _ (py "ccd" ++ _));
      [|discriminate | exact Hbase_end | reflexivity].
    rewrite path_join_relative; [|discriminate| |exact Hname].
    + rewrite <- !app_assoc. reflexivity.
    + rewrite !app_assoc.
      destruct (zfill 2 (str_of_Z n)) as [|c t] eqn:Hz.
      * unfold zfill in Hz. destruct (str_of_Z_shape n) as (sg & ds & Hs & Hsg & Hds & _).
        rewrite Hs in Hz. destruct Hsg as [-> | ->]; destruct ds as [|d ds]; try congruence;
          cbn [app] in Hz.
        -- destruct (Ascii.eqb d "-" || Ascii.eqb d "+"); [discriminate|].
           destruct (List.repeat "0"%char (2 - length (d :: ds))); discriminate.
        -- rewrite Ascii.eqb_refl in Hz. discriminate.
      * rewrite endswith_char_app by discriminate.
        rewrite <- Hz. apply zfill_number_end.
  - rewrite path_join_relative; [|discriminate | exact Hbase_end | exact Hname].
    rewrite <- !app_assoc. reflexivity.
Qed.

Lemma get_uri_layout_witness :
  get_uri (PInt 1616681) (Some 5) (py "p") (Some (py "fits")) None (Some (py "fk")) =
  uri_layout (PInt 1616681) (Some 5) (py "p") (Some (py "fits")) None (Some (py "fk")).
Proof.
  apply get_uri_layout; [discriminate | reflexivity | reflexivity | reflexivity].
Defined.

(** C7, counterexample: a directory given with its trailing slash is
    joined without a second slash, so the URI is not the slash-separated
    concatenation of the components. *)
Lemma get_uri_trailing_slash :
  get_uri (PInt 1616681) None (py "p") (Some (py "fits")) (Some (py "1616681/")) None
    = py "vos:OSSOS/dbimages/1616681/1616681p.fits" /\
  uri_layout (PInt 1616681) None (py "p") (Some (py "fits")) (Some (py "1616681/")) None
    = py "vos:OSSOS/dbimages/1616681//1616681p.fits" /\
  get_uri (PInt 1616681) None (py "p") (Some (py "fits")) (Some (py "1616681/")) None
    <> uri_layout (PInt 1616681) None (py "p") (Some (py "fits")) (Some (py "1616681/")) None.
Proof. repeat split; try (vm_compute; reflexivity). vm_compute. discriminate. Qed.

End UriFacts.

Section SyncingFileFacts.
Import Py OssosStorage.

Lemma read_contents (self : SyncingVOFile) :
  fst (read self) = fh_contents (local_filehandle self) /\
  fh_contents (local_filehandle (snd (read self))) = fh_contents (local_filehandle self).
Proof. split; reflexivity. Qed.

Lemma write_contents (c : pystr) (self : SyncingVOFile) :
  fh_contents (local_filehandle (write c self)) =
  fh_contents (local_filehandle self) ++ c.
Proof. reflexivity. Qed.

(** The local file after a sequence of calls holds what it held before,
    followed by what was written, whatever the position of the handle. *)
Lemma run_contents (calls : list call) : forall (self : SyncingVOFile),
  fh_contents (local_filehandle (snd (run calls self))) =
  fh_contents (local_filehandle self) ++ written calls.
Proof.
  induction calls as [|c calls IH]; intros self.
  - simpl. rewrite app_nil_r. reflexivity.
  - destruct c as [|w|o]; cbn [run].
    + destruct (read self) as [content self1] eqn:Hread.
      pose proof (read_contents self) as [_ Hkeep]. rewrite Hread in Hkeep.
      specialize (IH self1). destruct (run calls self1) as [outs self2].
      cbn [fst snd] in *. rewrite IH, Hkeep. reflexivity.
    + rewrite IH, write_contents. unfold written. simpl.
      rewrite <- app_assoc. reflexivity.
    + unfold seek. rewrite IH. reflexivity.
Qed.

(** Every [read] of a sequence returns the initial contents followed by
    what the earlier [write] calls of the sequence wrote. *)
Lemma run_outputs (calls : list call) : forall (self : SyncingVOFile),
  Forall (fun out => exists before after,
            calls = before ++ CallRead :: after /\
            out = fh_contents (local_filehandle self) ++ written before)
         (fst (run calls self)).
Proof.
  induction calls as [|c calls IH]; intros self.
  - constructor.
  - destruct c as [|w|o]; cbn [run].
    + destruct (read self) as [content self1] eqn:Hread.
      pose proof (read_contents self) as [Hout Hkeep]. rewrite Hread in Hout, Hkeep.
      specialize (IH self1). destruct (run calls self1) as [outs self2].
      cbn [fst snd] in *. constructor.
      * exists [], calls. split; [reflexivity|]. rewrite app_nil_r. exact Hout.
      * eapply Forall_impl; [exact IH|].
        intros out (before & after & -> & ->).
        exists (CallRead :: before), after. split; [reflexivity|].
        rewrite Hkeep. reflexivity.
    + specialize (IH (write w self)).
      eapply Forall_impl; [exact IH|].
      intros out (before & after & -> & ->).
      exists (CallWrite w :: before), after. split; [reflexivity|].
      rewrite write_contents. unfold written. simpl.
      rewrite <- app_assoc. reflexivity.
    + specialize (IH (seek o self)).
      eapply Forall_impl; [exact IH|].
      intros out (before & after & -> & ->).
      exists (CallSeek o :: before), after. split; reflexivity.
Qed.

(** C10: after any sequence of [read], [write] and [seek] calls, [read]
    returns the initial contents of the file followed by the contents of
    the [write] calls in their order; so did every [read] inside the
    sequence for the writes before it; and [seek] leaves the object as it
    is. *)
Theorem syncing_file_read_all (calls : list call) (self : SyncingVOFile) :
  fst (read (snd (run calls self))) =
    fh_contents (local_filehandle self) ++ written calls /\
  Forall (fun out => exists before after,
            calls = before ++ CallRead :: after /\
            out = fh_contents (local_filehandle self) ++ written before)
         (fst (run calls self)) /\
  (forall offset, seek offset self = self) /\
  (forall content, fst (read (write content (snd (run calls self)))) =
     fh_contents (local_filehandle self) ++ written calls ++ content).
Proof.
  split; [|split; [|split]].
  - destruct (read_contents (snd (run calls self))) as [-> _]. apply run_contents.
  - apply run_outputs.
  - reflexivity.
  - intros content.
    destruct (read_contents (write content (snd (run calls self)))) as [-> _].
    rewrite write_contents, run_contents, <- app_assoc. reflexivity.
Qed.

End SyncingFileFacts.

(* ===================================================================== *)
(** * pymop/astrometry/daophot.py: zeropoint and magnitudes *)
(* ===================================================================== *)
Section PhotFacts.
Import Py Daophot.
Variable float_of_str : pystr -> result float.
Variable pdump : hval -> list pystr.

Lemma bind_Ok {A B} (m : result A) (k : A -> result B) (b : B) :
  bind m k = Ok b -> exists a, m = Ok a /\ k a = Ok b.
Proof. destruct m as [a|e]; simpl; [eauto | discriminate]. Qed.

(** The filter that [phot] looks up is always a key of the table. *)
Lemma filter_of_in_table (header : gmap pystr hval) :
  dict_getitem zeropoints (filter_of header) =
  Ok match header !! py "FILTER" with
     | Some (HStr name) => default 26.0%float (zeropoints !! name)
     | _ => 26.0%float
     end.
Proof.
  unfold filter_of.
  destruct (header !! py "FILTER") as [[name|f]|]; cbn [default from_option id]; try reflexivity.
  destruct (zeropoints !! name) as [z|] eqn:Hz.
  - rewrite bool_decide_eq_true_2 by eauto.
    unfold dict_getitem. rewrite Hz. reflexivity.
  - rewrite bool_decide_eq_false_2 by (intros [z Hz']; discriminate).
    reflexivity.
Qed.

(** The zeropoint that the first lines of [phot] compute follows the
    precedence: file, then header card, then table entry of the filter,
    then 26.0. *)
Lemma phot_zmag_selects (header : gmap pystr hval) (readable : gmap pystr pystr) :
  phot_zmag float_of_str header readable =
  zmag_by_precedence float_of_str header readable.
Proof.
  unfold phot_zmag, zmag_by_precedence.
  rewrite filter_of_in_table. cbn [bind].
  destruct (readable !! py "zeropoint.used") as [text|]; [reflexivity|].
  destruct (header !! py "PHOTZP") as [card|]; [reflexivity|].
  cbn [default from_option id].
  destruct (header !! py "FILTER") as [[name|f]|]; try reflexivity.
  destruct (zeropoints !! name); reflexivity.
Qed.

(** C6: the zeropoint that [phot] selects is the float read from a
    readable file [zeropoint.used] when there is one; otherwise the PHOTZP
    card of the header; otherwise the table entry of the header's filter,
    and the DEFAULT entry 26.0 when the filter has no entry.  It is this
    zeropoint that [phot] hands to the package ([iraf.photpars.zmag]) and
    stores in the header of the structure it returns: [phot] raises when
    the selection raises (a malformed [zeropoint.used]), and is otherwise
    the parse of what the package prints for the selected zeropoint. *)
Theorem phot_zmag_precedence (header : gmap pystr hval) (readable : gmap pystr pystr)
    (apcor : float) :
  phot_zmag float_of_str header readable =
    zmag_by_precedence float_of_str header readable /\
  match zmag_by_precedence float_of_str header readable with
  | Raise e => phot float_of_str pdump header readable apcor = Raise e
  | Ok zmag =>
      phot float_of_str pdump header readable apcor =
      match parse_lines float_of_str apcor (pdump zmag) empty_data with
      | Ok data => Ok (Hdu apcor zmag data)
      | Raise e => Raise e
      end
  end /\
  forall h : hdu,
    phot float_of_str pdump header readable apcor = Ok h ->
    zmag_by_precedence float_of_str header readable = Ok (hdu_zeropoint h) /\
    parse_lines float_of_str apcor (pdump (hdu_zeropoint h)) empty_data =
      Ok (hdu_data h).
Proof.
  split; [apply phot_zmag_selects|].
  unfold phot. rewrite phot_zmag_selects.
  destruct (zmag_by_precedence float_of_str header readable) as [zmag|e];
    cbn [bind].
  - split.
    + destruct (parse_lines float_of_str apcor (pdump zmag) empty_data);
        reflexivity.
    + intros h H.
      destruct (parse_lines float_of_str apcor (pdump zmag) empty_data)
        as [data|e] eqn:Hlines; cbn [bind] in H; [|discriminate H].
      injection H as <-. cbn [hdu_zeropoint hdu_data].
      split; [reflexivity | exact Hlines].
  - split; [reflexivity|]. intros h H. discriminate H.
Qed.

Lemma append_cell_lookup (col key : pystr) (v : cell)
    (data data' : gmap pystr (list cell)) :
  append_cell col v data = Ok data' ->
  exists column, data !! col = Some column /\
    data' !! key = if bool_decide (col = key) then Some (column ++ [v]) else data !! key.
Proof.
  unfold append_cell, dict_getitem. intros H.
  destruct (data !! col) as [column|] eqn:Hcol; [|discriminate].
  cbn [bind] in H. inversion H; subst. exists column. split; [reflexivity|].
  destruct (decide (col = key)) as [-> | Hne].
  - rewrite bool_decide_eq_true_2 by reflexivity. apply lookup_insert_eq.
  - rewrite bool_decide_eq_false_2 by exact Hne. apply lookup_insert_ne. exact Hne.
Qed.

(** A column other than MAG consumes a token and leaves MAG alone. *)
Lemma parse_column_other (apcor : float) (col : pystr)
    (values values' : list pystr) (data data' : gmap pystr (list cell)) :
  col <> py "MAG" ->
  parse_column float_of_str apcor col (values, data) = Ok (values', data') ->
  values' = drop 1 values /\ data' !! py "MAG" = data !! py "MAG".
Proof.
  intros Hcol H. unfold parse_column in H.
  apply bind_Ok in H as (fmt & _ & H).
  rewrite (bool_decide_eq_false_2 _ Hcol) in H.
  destruct (re_match_percent "f" fmt); [|destruct (re_match_percent "d" fmt)].
  - apply bind_Ok in H as (v & _ & H).
    apply bind_Ok in H as (d & Happ & H). inversion H; subst.
    apply (append_cell_lookup _ (py "MAG")) in Happ as (column & _ & ->).
    rewrite (bool_decide_eq_false_2 _ Hcol). auto.
  - apply bind_Ok in H as (token & _ & H).
    apply bind_Ok in H as (n & _ & H).
    apply bind_Ok in H as (d & Happ & H). inversion H; subst.
    apply (append_cell_lookup _ (py "MAG")) in Happ as (column & _ & ->).
    rewrite (bool_decide_eq_false_2 _ Hcol). auto.
  - apply bind_Ok in H as (token & _ & H).
    apply bind_Ok in H as (d & Happ & H). inversion H; subst.
    apply (append_cell_lookup _ (py "MAG")) in Happ as (column & _ & ->).
    rewrite (bool_decide_eq_false_2 _ Hcol). auto.
Qed.

(** The MAG column consumes a token and appends its value less [apcor]. *)
Lemma parse_column_mag (apcor : float)
    (values values' : list pystr) (data data' : gmap pystr (list cell)) :
  parse_column float_of_str apcor (py "MAG") (values, data) = Ok (values', data') ->
  values' = drop 1 values /\
  exists token mag mags,
    values !! 0%nat = Some token /\ float_of_str token = Ok mag /\
    data !! py "MAG" = Some mags /\
    data' !! py "MAG" = Some (mags ++ [CFloat (mag - apcor)%float]).
Proof.
  intros H. unfold parse_column in H.
  replace (dict_getitem format (py "MAG")) with (Ok (py "%10.2f")) in H
    by (vm_compute; reflexivity).
  cbn [bind] in H.
  replace (re_match_percent "f" (py "%10.2f")) with true in H by reflexivity.
  rewrite bool_decide_eq_true_2 in H by reflexivity.
  apply bind_Ok in H as (v & Hv & H).
  apply bind_Ok in Hv as (token & Htok & Hv).
  apply bind_Ok in Hv as (mag & Hmag & Hv). inversion Hv; subst v.
  apply bind_Ok in H as (d & Happ & H). inversion H; subst.
  apply (append_cell_lookup _ (py "MAG")) in Happ as (mags & Hmags & Hnew).
  rewrite bool_decide_eq_true_2 in Hnew by reflexivity.
  split; [reflexivity|]. exists token, mag, mags.
  unfold getitem in Htok. destruct (values !! 0%nat); [|discriminate].
  inversion Htok; subst. auto.
Qed.

Lemma parse_columns_other (apcor : float) (cols : list pystr) :
  forall (values values' : list pystr) (data data' : gmap pystr (list cell)),
  Forall (fun col => col <> py "MAG") cols ->
  parse_columns float_of_str apcor cols (values, data) = Ok (values', data') ->
  data' !! py "MAG" = data !! py "MAG".
Proof.
  induction cols as [|col cols IH]; intros values values' data data' Hcols H.
  - inversion H; reflexivity.
  - inversion Hcols as [|? ? Hcol Hrest]; subst.
    cbn [parse_columns] in H. apply bind_Ok in H as ([v1 d1] & Hstep & H).
    apply parse_column_other in Hstep as [_ Hkeep]; [|exact Hcol].
    rewrite <- Hkeep. eapply IH; eauto.
Qed.

(** A line adds to the MAG column the third token, read as a float, less
    the aperture correction. *)
Lemma parse_line_mag (apcor : float) (line : pystr)
    (data data' : gmap pystr (list cell)) :
  parse_line float_of_str apcor line data = Ok data' ->
  exists token mag mags,
    split line !! 2%nat = Some token /\ float_of_str token = Ok mag /\
    data !! py "MAG" = Some mags /\
    data' !! py "MAG" = Some (mags ++ [CFloat (mag - apcor)%float]).
Proof.
  intros H. unfold parse_line in H.
  apply bind_Ok in H as ([v8 d8] & H & Hret). inversion Hret; subst d8. clear Hret.
  unfold order in H. cbn [parse_columns] in H.
  apply bind_Ok in H as ([v1 d1] & HX & H).
  apply bind_Ok in H as ([v2 d2] & HY & H).
  apply bind_Ok in H as ([v3 d3] & HM & H).
  apply parse_column_other in HX as [-> HkX]; [|discriminate].
  apply parse_column_other in HY as [-> HkY]; [|discriminate].
  apply parse_column_mag in HM as (-> & token & mag & mags & Htok & Hmag & Hold & Hnew).
  change (parse_columns float_of_str apcor
            [py "MERR"; py "ID"; py "XSHIFT"; py "YSHIFT"; py "LID"]
            (drop 1 (drop 1 (drop 1 (split line))), d3) = Ok (v8, data')) in H.
  apply parse_columns_other in H; [|repeat constructor; discriminate].
  exists token, mag, mags.
  rewrite drop_drop, lookup_drop in Htok.
  split; [exact Htok|]. split; [exact Hmag|].
  split; [congruence | congruence].
Qed.

Lemma parse_lines_mag (apcor : float) (lines : list pystr) :
  forall (data data' : gmap pystr (list cell)) (mags : list cell),
  parse_lines float_of_str apcor lines data = Ok data' ->
  data !! py "MAG" = Some mags ->
  exists added,
    data' !! py "MAG" = Some (mags ++ added) /\
    Forall2 (fun line m => exists token mag,
               split line !! 2%nat = Some token /\ float_of_str token = Ok mag /\
               m = CFloat (mag - apcor)%float)
            lines added.
Proof.
  induction lines as [|line lines IH]; intros data data' mags H Hmags.
  - inversion H; subst. exists []. rewrite app_nil_r. split; [exact Hmags | constructor].
  - cbn [parse_lines] in H. apply bind_Ok in H as (d1 & Hline & H).
    apply parse_line_mag in Hline as (token & mag & mags0 & Htok & Hmag & Hold & Hnew).
    assert (mags0 = mags) by congruence. subst mags0.
    destruct (IH _ _ _ H Hnew) as (added & Hfinal & Hall).
    exists (CFloat (mag - apcor)%float :: added).
    split; [rewrite Hfinal, <- app_assoc; reflexivity|].
    constructor; [eauto | exact Hall].
Qed.

(** C8: when [phot] returns, the MAG column of its table has one entry
    per line printed by the package, which is the third field of the line
    (the magnitude reported by the package) less [apcor], and [phot_mag]
    returns the first entry of that column ([IndexError] when it is
    empty). *)
Theorem phot_mag_column (header : gmap pystr hval) (readable : gmap pystr pystr)
    (apcor : float) (h : hdu) :
  phot float_of_str pdump header readable apcor = Ok h ->
  exists mags,
    hdu_data h !! py "MAG" = Some mags /\
    Forall2 (fun line m => exists token mag,
               split line !! 2%nat = Some token /\ float_of_str token = Ok mag /\
               m = CFloat (mag - apcor)%float)
            (pdump (hdu_zeropoint h)) mags /\
    phot_mag float_of_str pdump header readable apcor = getitem mags 0.
Proof.
  intros H. unfold phot_mag. rewrite H. cbn [bind].
  unfold phot in H.
  apply bind_Ok in H as (zmag & _ & H).
  apply bind_Ok in H as (data & Hlines & H). inversion H; subst h. clear H.
  cbn [hdu_data hdu_zeropoint].
  destruct (parse_lines_mag apcor _ _ _ [] Hlines) as (mags & Hmags & Hall);
    [vm_compute; reflexivity|].
  exists mags. cbn [app] in Hmags.
  split; [exact Hmags|]. split; [exact Hall|].
  unfold dict_getitem. rewrite Hmags. reflexivity.
Qed.

End PhotFacts.

(** With a file [zeropoint.used] holding 27 and a PHOTZP card of 30, the
    zeropoint of the returned structure is the one of the file. *)
Lemma phot_zmag_precedence_witness :
  match Daophot.phot
          (fun s => match Py.int_of_str s with
                    | Py.Ok z => Py.Ok (PrimFloat.of_uint63 (Uint63.of_Z z))
                    | Py.Raise e => Py.Raise e
                    end)
          (fun _ => [Py.py "560 406 25 0 1 0 0 1"])
          (<[Py.py "PHOTZP" := Daophot.HNum 30%float]> ∅)
          (<[Py.py "zeropoint.used" := Py.py "27"]> ∅) 0.5%float with
  | Py.Ok h =>
      Daophot.hdu_zeropoint h = Daophot.HNum 27%float /\
      Daophot.zmag_by_precedence
        (fun s => match Py.int_of_str s with
                  | Py.Ok z => Py.Ok (PrimFloat.of_uint63 (Uint63.of_Z z))
                  | Py.Raise e => Py.Raise e
                  end)
        (<[Py.py "PHOTZP" := Daophot.HNum 30%float]> ∅)
        (<[Py.py "zeropoint.used" := Py.py "27"]> ∅) = Py.Ok (Daophot.hdu_zeropoint h)
  | Py.Raise _ => False
  end.
Proof.
  destruct (Daophot.phot _ _ _ _ 0.5%float) as [h|e] eqn:H.
  - split.
    + vm_compute in H. injection H as <-. reflexivity.
    + exact (proj1 (proj2 (proj2 (phot_zmag_precedence _ _ _ _ 0.5%float)) h H)).
  - vm_compute in H. discriminate H.
Defined.

(** A conversion that reads the integer literals, and a package that
    prints one source. *)
Lemma phot_mag_column_witness :
  match Daophot.phot
          (fun s => match Py.int_of_str s with
                    | Py.Ok z => Py.Ok (PrimFloat.of_uint63 (Uint63.of_Z z))
                    | Py.Raise e => Py.Raise e
                    end)
          (fun _ => [Py.py "560 406 25 0 1 0 0 1"]) ∅ ∅ 0.5%float with
  | Py.Ok h =>
      exists mags,
        Daophot.hdu_data h !! Py.py "MAG" = Some mags /\
        Forall2 (fun line m => exists token mag,
                   Daophot.split line !! 2%nat = Some token /\
                   match Py.int_of_str token with
                   | Py.Ok z => Py.Ok (PrimFloat.of_uint63 (Uint63.of_Z z))
                   | Py.Raise e => Py.Raise e
                   end = Py.Ok mag /\
                   m = Daophot.CFloat (mag - 0.5)%float)
                [Py.py "560 406 25 0 1 0 0 1"] mags /\
        Daophot.phot_mag
          (fun s => match Py.int_of_str s with
                    | Py.Ok z => Py.Ok (PrimFloat.of_uint63 (Uint63.of_Z z))
                    | Py.Raise e => Py.Raise e
                    end)
          (fun _ => [Py.py "560 406 25 0 1 0 0 1"]) ∅ ∅ 0.5%float
        = Py.getitem mags 0
  | Py.Raise _ => False
  end.
Proof.
  destruct (Daophot.phot _ _ ∅ ∅ 0.5%float) as [h|e] eqn:H.
  - exact (phot_mag_column _ _ ∅ ∅ 0.5%float h H).
  - vm_compute in H. discriminate H.
Defined.

Example phot_mag_sample :
  Daophot.phot_mag
    (fun s => match Py.int_of_str s with
              | Py.Ok z => Py.Ok (PrimFloat.of_uint63 (Uint63.of_Z z))
              | Py.Raise e => Py.Raise e
              end)
    (fun _ => [Py.py "560 406 25 0 1 0 0 1"]) ∅ ∅ 0.5%float
  = Py.Ok (Daophot.CFloat 24.5%float).
Proof. vm_compute. reflexivity. Qed.

(* ===================================================================== *)
(** * Order of binary64 numbers *)
(* ===================================================================== *)
Section FloatOrder.

(** The comparison of [SpecFloat] is lexicographic on the sign, the
    exponent and the mantissa; [not_gt] reads "less than or equal to" off
    its result. *)
Lemma SFleb_not_gt (a b : spec_float) :
  SFleb a b =
  match SFcompare a b with
  | Some c => match c with Gt => false | _ => true end
  | None => false
  end.
Proof. unfold SFleb. destruct (SFcompare a b) as [[]|]; reflexivity. Qed.

Lemma lex_le (e1 e2 : Z) (m1 m2 : positive) :
  match
    match e1 ?= e2 with Eq => Pos.compare_cont Eq m1 m2 | Lt => Lt | Gt => Gt end
  with Gt => false | _ => true end = true
  <-> (e1 < e2 \/ e1 = e2 /\ (m1 <= m2)%positive).
Proof.
  change (Pos.compare_cont Eq m1 m2) with (m1 ?= m2)%positive.
  destruct (Z.compare_spec e1 e2); destruct (Pos.compare_spec m1 m2);
    simpl; split; intros; try lia; try discriminate; auto.
Qed.

Lemma lex_ge (e1 e2 : Z) (m1 m2 : positive) :
  match
    match e1 ?= e2 with
    | Eq => CompOpp (Pos.compare_cont Eq m1 m2)
    | Lt => Gt
    | Gt => Lt
    end
  with Gt => false | _ => true end = true
  <-> (e2 < e1 \/ e1 = e2 /\ (m2 <= m1)%positive).
Proof.
  change (Pos.compare_cont Eq m1 m2) with (m1 ?= m2)%positive.
  destruct (Z.compare_spec e1 e2); destruct (Pos.compare_spec m1 m2);
    simpl; split; intros; try lia; try discriminate; auto.
Qed.

Lemma SFleb_trans (a b c : spec_float) :
  SFleb a b = true -> SFleb b c = true -> SFleb a c = true.
Proof.
  rewrite !SFleb_not_gt.
  destruct a as [sa|sa| |sa ma ea], b as [sb|sb| |sb mb eb], c as [sc|sc| |sc mc ec];
    repeat match goal with s : bool |- _ => destruct s end;
    cbn [SFcompare]; try reflexivity; try discriminate;
    rewrite ?lex_le, ?lex_ge; lia.
Qed.

Lemma SFleb_total (a b : spec_float) :
  SFeqb a a = true -> SFeqb b b = true -> SFleb a b = false -> SFleb b a = true.
Proof.
  unfold SFeqb. rewrite !SFleb_not_gt.
  destruct a as [sa|sa| |sa ma ea], b as [sb|sb| |sb mb eb];
    repeat match goal with s : bool |- _ => destruct s end;
    cbn [SFcompare]; try reflexivity; try discriminate; intros _ _;
    rewrite ?lex_le, ?lex_ge, <- ?not_true_iff_false, ?lex_le, ?lex_ge; lia.
Qed.

Lemma SFeqb_leb (a b : spec_float) : SFeqb a b = true -> SFleb a b = true.
Proof. unfold SFeqb, SFleb. destruct (SFcompare a b) as [[]|]; auto. Qed.

Lemma SFleb_not_nan (a b : spec_float) :
  SFleb a b = true -> SFeqb a a = true /\ SFeqb b b = true.
Proof.
  unfold SFeqb. rewrite !SFleb_not_gt.
  destruct a as [sa|sa| |sa ma ea], b as [sb|sb| |sb mb eb];
    repeat match goal with s : bool |- _ => destruct s end;
    cbn [SFcompare]; try discriminate; intros _;
    rewrite ?Z.compare_refl, ?Pos.compare_cont_refl; simpl; auto.
Qed.

(** The same facts for the primitive numbers. *)
Lemma leb_trans (x y z : float) :
  (x <=? y)%float = true -> (y <=? z)%float = true -> (x <=? z)%float = true.
Proof. rewrite !FloatAxioms.leb_spec. apply SFleb_trans. Qed.

Lemma eqb_leb (x y : float) : (x =? y)%float = true -> (x <=? y)%float = true.
Proof. rewrite FloatAxioms.eqb_spec, FloatAxioms.leb_spec. apply SFeqb_leb. Qed.

Lemma leb_not_nan (x y : float) :
  (x <=? y)%float = true -> is_nan x = false /\ is_nan y = false.
Proof.
  rewrite FloatAxioms.leb_spec. intros H. apply SFleb_not_nan in H as [Hx Hy].
  unfold is_nan. rewrite !FloatAxioms.eqb_spec, Hx, Hy. auto.
Qed.

Lemma eqb_not_nan (x y : float) :
  (x =? y)%float = true -> is_nan x = false /\ is_nan y = false.
Proof. intros H. apply leb_not_nan, eqb_leb, H. Qed.

Lemma leb_total (x y : float) :
  is_nan x = false -> is_nan y = false ->
  (x <=? y)%float = false -> (y <=? x)%float = true.
Proof.
  unfold is_nan. rewrite !FloatAxioms.leb_spec, !FloatAxioms.eqb_spec, !negb_false_iff. apply SFleb_total.
Qed.

Lemma leb_refl (x : float) : is_nan x = false -> (x <=? x)%float = true.
Proof.
  unfold is_nan. rewrite negb_false_iff. apply eqb_leb.
Qed.

End FloatOrder.

(* ===================================================================== *)
(** * pipeline/astrom_mag_check.py: mutual nearest neighbours *)
(* ===================================================================== *)
Section MatchFacts.
Import Py AstromMagCheck.

Lemma wrap16_small (z : Z) : -32768 <= z < 32768 -> wrap16 z = z.
Proof. intros H. unfold wrap16. rewrite Z.mod_small by lia. lia. Qed.

Lemma arange16_from_lookup (n : nat) : forall (start : Z) (k : nat),
  (k < n)%nat -> arange16_from start n !! k = Some (wrap16 (start + Z.of_nat k)).
Proof.
  induction n as [|n IH]; intros start k Hk; [lia|].
  destruct k as [|k]; cbn [arange16_from lookup list_lookup].
  - do 2 f_equal. lia.
  - change (arange16_from (start + 1) n !! k = Some (wrap16 (start + Z.of_nat (S k)))).
    rewrite IH by lia. do 2 f_equal. lia.
Qed.

Lemma arange16_from_length (n : nat) : forall (start : Z),
  length (arange16_from start n) = n.
Proof. induction n as [|n IH]; intros start; simpl; [|rewrite IH]; reflexivity. Qed.

(** What a boolean mask keeps sits at a position where the mask holds. *)
Lemma select_elem {A} (arr : list A) : forall (mask : list bool) (x : A),
  x ∈ select arr mask -> exists k, arr !! k = Some x /\ mask !! k = Some true.
Proof.
  induction arr as [|a arr IH]; intros mask x Hx.
  - destruct mask; simpl in Hx; apply elem_of_nil in Hx; destruct Hx.
  - destruct mask as [|b mask]; simpl in Hx; [apply elem_of_nil in Hx; destruct Hx|].
    destruct b.
    + apply elem_of_cons in Hx as [-> | Hx].
      * exists 0%nat. auto.
      * destruct (IH _ _ Hx) as (k & Ha & Hm). exists (S k). auto.
    + destruct (IH _ _ Hx) as (k & Ha & Hm). exists (S k). auto.
Qed.

(** With at most 32768 rows the 16-bit indices are the row numbers. *)
Lemma select_arange16 (n : nat) (mask : list bool) (z : Z) :
  Z.of_nat n <= 32768 -> z ∈ select (arange16 n) mask ->
  exists k, z = Z.of_nat k /\ (k < n)%nat /\ mask !! k = Some true.
Proof.
  intros Hn Hz. apply select_elem in Hz as (k & Hk & Hm).
  assert (Hlt : (k < n)%nat).
  { apply lookup_lt_Some in Hk. unfold arange16 in Hk.
    rewrite arange16_from_length in Hk. exact Hk. }
  unfold arange16 in Hk. rewrite arange16_from_lookup in Hk by exact Hlt.
  inversion Hk as [Hz]. rewrite wrap16_small by lia.
  exists k. split; [lia | auto].
Qed.

(** The reduction by [minimum], when it is a number, is below every
    element that went into it. *)
Lemma fold_minimum_le (l : list float) : forall (acc : float),
  is_nan (fold_left minimum l acc) = false ->
  (fold_left minimum l acc <=? acc)%float = true /\
  Forall (fun y => (fold_left minimum l acc <=? y)%float = true) l.
Proof.
  induction l as [|y l IH]; intros acc Hr; cbn [fold_left] in *.
  - split; [apply leb_refl; exact Hr | constructor].
  - destruct (IH _ Hr) as [Hacc Hall].
    set (r := fold_left minimum l (minimum acc y)) in *.
    unfold minimum in Hacc.
    destruct (acc <=? y)%float eqn:Hle; cbn [orb] in Hacc.
    + split; [exact Hacc|].
      constructor; [eapply leb_trans; eauto | exact Hall].
    + destruct (is_nan acc) eqn:Hnan.
      * apply leb_not_nan in Hacc as [_ Hacc]. congruence.
      * assert (Hy : is_nan y = false) by (apply leb_not_nan in Hacc; tauto).
        split; [|constructor; [exact Hacc | exact Hall]].
        eapply leb_trans; [exact Hacc|]. apply leb_total; assumption.
Qed.

Lemma amin_least (sep : list float) (m : float) :
  amin sep = Ok m -> is_nan m = false ->
  Forall (fun y => (m <=? y)%float = true) sep.
Proof.
  destruct sep as [|x rest]; [discriminate|].
  intros H Hm. inversion H; subst m.
  destruct (fold_minimum_le rest x Hm) as [Hx Hrest].
  constructor; assumption.
Qed.

Lemma match_condition_ok (tolerance : float) (sep : list float) :
  sep <> [] -> exists cond, match_condition tolerance sep = Ok cond.
Proof.
  intros Hne. destruct sep as [|x rest]; [congruence|].
  unfold match_condition, amin. cbn [bind]. eauto.
Qed.

(** Where the condition holds, the separation is within the tolerance and
    is the least of all. *)
Lemma match_condition_true (tolerance : float) (sep : list float)
    (cond : list bool) (k : nat) :
  match_condition tolerance sep = Ok cond -> cond !! k = Some true ->
  exists s, sep !! k = Some s /\ (s <=? tolerance)%float = true /\
            Forall (fun y => (s <=? y)%float = true) sep.
Proof.
  unfold match_condition. intros H Hk.
  destruct (amin sep) as [m|e] eqn:Hmin; [|discriminate].
  cbn [bind] in H. inversion H; subst cond. clear H.
  rewrite list_lookup_fmap in Hk.
  destruct (sep !! k) as [s|] eqn:Hs; [|discriminate].
  cbn in Hk. injection Hk as Hb. apply andb_prop in Hb as [Htol Heq].
  exists s. split; [reflexivity|]. split; [exact Htol|].
  pose proof (eqb_not_nan _ _ Heq) as [_ Hm].
  eapply Forall_impl; [exact (amin_least _ _ Hmin Hm)|].
  intros y Hy. cbn beta in Hy. eapply leb_trans; [apply eqb_leb; exact Heq | exact Hy].
Qed.

Lemma array_getitem_nat {A} (arr : list A) (k : nat) (x : A) :
  arr !! k = Some x -> array_getitem arr (Z.of_nat k) = Ok x.
Proof.
  intros Hk. pose proof (lookup_lt_Some _ _ _ Hk) as Hlt.
  unfold array_getitem.
  replace (Z.of_nat k <? 0) with false by (symmetry; apply Z.ltb_ge; lia).
  replace (0 <=? Z.of_nat k) with true by (symmetry; apply Z.leb_le; lia).
  replace (Z.of_nat k <? Z.of_nat (length arr)) with true
    by (symmetry; apply Z.ltb_lt; lia).
  cbn [andb]. rewrite Nat2Z.id. unfold getitem. rewrite Hk. reflexivity.
Qed.

(** The inner loop returns, and what it returns is a candidate to which
    row [idx1] is a nearest row of [pos1]. *)
Lemma first_mutual_spec (pos1 pos2 : list position) (tolerance : float)
    (idx1 : nat) (p : position) :
  pos1 !! idx1 = Some p -> Z.of_nat (length pos1) <= 32768 ->
  forall group : list Z,
  Forall (fun z => exists k, z = Z.of_nat k /\ (k < length pos2)%nat) group ->
  exists found,
    first_mutual pos1 pos2 tolerance idx1 group = Ok found /\
    forall j, found = Some j ->
      j ∈ group /\ 0 <= j /\
      exists q, pos2 !! Z.to_nat j = Some q /\
        forall p', p' ∈ pos1 -> (distance q p <=? distance q p')%float = true.
Proof.
  intros Hp Hn1 group. induction group as [|idx2 group IH]; intros Hgroup.
  - exists None. split; [reflexivity | discriminate].
  - inversion Hgroup as [|? ? (k & -> & Hk) Hrest]; subst.
    destruct (lookup_lt_is_Some_2 pos2 k Hk) as [q Hq].
    cbn [first_mutual]. rewrite (array_getitem_nat _ _ _ Hq). cbn [bind].
    destruct (match_condition_ok tolerance (separations q pos1)) as [cond Hcond].
    { unfold separations. destruct pos1; [rewrite lookup_nil in Hp|]; discriminate. }
    rewrite Hcond. cbn [bind].
    destruct (bool_decide (Z.of_nat idx1 ∈ select (arange16 (length pos1)) cond))
      eqn:Hin.
    + exists (Some (Z.of_nat k)). split; [reflexivity|].
      intros j Hj. inversion Hj; subst j. clear Hj.
      split; [left|]. split; [lia|].
      exists q. rewrite Nat2Z.id. split; [exact Hq|].
      apply bool_decide_eq_true_1 in Hin.
      apply select_arange16 in Hin as (k' & Hk' & _ & Hmask); [|exact Hn1].
      apply Nat2Z.inj in Hk'. subst k'.
      destruct (match_condition_true _ _ _ _ Hcond Hmask) as (s & Hs & _ & Hleast).
      unfold separations in Hs, Hleast.
      rewrite list_lookup_fmap, Hp in Hs. inversion Hs; subst s.
      intros p' Hp'. rewrite Forall_fmap, Forall_forall in Hleast.
      exact (Hleast p' Hp').
    + destruct (IH Hrest) as (found & Hrun & Hfound).
      exists found. split; [exact Hrun|].
      intros j Hj. destruct (Hfound j Hj) as (Hjin & Hj0 & Hq').
      split; [right; exact Hjin | auto].
Qed.

(** One turn of the outer loop returns, and either leaves [match] as it is
    or stores a mutual nearest neighbour at [idx1]. *)
Lemma match_row_spec (pos1 pos2 : list position) (tolerance : float)
    (idx1 : nat) (matched : list (option Z)) :
  (idx1 < length pos1)%nat -> pos2 <> [] ->
  Z.of_nat (length pos1) <= 32768 -> Z.of_nat (length pos2) <= 32768 ->
  exists matched',
    match_row pos1 pos2 tolerance idx1 matched = Ok matched' /\
    (matched' = matched \/
     exists j, matched' = <[idx1 := Some j]> matched /\
               mutual_nearest pos1 pos2 tolerance idx1 j).
Proof.
  intros Hidx Hne Hn1 Hn2.
  destruct (lookup_lt_is_Some_2 pos1 idx1 Hidx) as [p Hp].
  unfold match_row, getitem. rewrite Hp. cbn [bind].
  destruct (match_condition_ok tolerance (separations p pos2)) as [cond Hcond].
  { unfold separations. destruct pos2; [congruence | discriminate]. }
  rewrite Hcond. cbn [bind].
  set (group := select (arange16 (length pos2)) cond).
  assert (Hgroup : Forall (fun z => exists k, z = Z.of_nat k /\ (k < length pos2)%nat)
                          group).
  { apply Forall_forall. intros z Hz.
    apply select_arange16 in Hz as (k & -> & Hk & _); eauto. }
  destruct (first_mutual_spec pos1 pos2 tolerance idx1 p Hp Hn1 group Hgroup)
    as (found & Hrun & Hfound).
  rewrite Hrun. cbn [bind].
  destruct found as [j|]; [|eauto].
  eexists. split; [reflexivity|]. right. exists j. split; [reflexivity|].
  destruct (Hfound j eq_refl) as (Hjin & Hj0 & q & Hq & Hback).
  apply select_arange16 in Hjin as (k & -> & Hk & Hmask); [|exact Hn2].
  rewrite Nat2Z.id in Hq.
  destruct (match_condition_true _ _ _ _ Hcond Hmask) as (s & Hs & Htol & Hleast).
  unfold separations in Hs, Hleast.
  rewrite list_lookup_fmap, Hq in Hs. inversion Hs; subst s.
  exists p, q. rewrite Nat2Z.id.
  split; [exact Hp|]. split; [lia|]. split; [exact Hq|]. split; [exact Htol|].
  split; [|exact Hback].
  intros q' Hq'. rewrite Forall_fmap, Forall_forall in Hleast. exact (Hleast q' Hq').
Qed.

Lemma match_rows_spec (pos1 pos2 : list position) (tolerance : float)
    (rows : list nat) :
  Forall (fun idx1 => (idx1 < length pos1)%nat) rows -> pos2 <> [] ->
  Z.of_nat (length pos1) <= 32768 -> Z.of_nat (length pos2) <= 32768 ->
  forall matched : list (option Z),
  length matched = length pos1 ->
  (forall i j, matched !! i = Some (Some j) -> mutual_nearest pos1 pos2 tolerance i j) ->
  exists m,
    match_rows pos1 pos2 tolerance rows matched = Ok m /\
    length m = length pos1 /\
    forall i j, m !! i = Some (Some j) -> mutual_nearest pos1 pos2 tolerance i j.
Proof.
  intros Hrows Hne Hn1 Hn2.
  induction rows as [|idx1 rows IH]; intros matched Hlen Hinv.
  - exists matched. auto.
  - inversion Hrows as [|? ? Hidx Hrest]; subst.
    cbn [match_rows].
    destruct (match_row_spec pos1 pos2 tolerance idx1 matched Hidx Hne Hn1 Hn2)
      as (matched' & Hrow & Hcase).
    rewrite Hrow. cbn [bind].
    apply (IH Hrest).
    + destruct Hcase as [-> | (j & -> & _)]; [exact Hlen|].
      rewrite length_insert. exact Hlen.
    + destruct Hcase as [-> | (j & -> & Hmutual)]; [exact Hinv|].
      intros i j' Hi. apply list_lookup_insert_Some in Hi as [(<- & Heq & _) | (_ & Hi)].
      * inversion Heq; subst. exact Hmutual.
      * exact (Hinv i j' Hi).
Qed.

(** C1, as the code has it: for two arrays of at most 32768 rows each (the
    range in which the 16-bit index arrays hold the row numbers), [pos2]
    having a row whenever [pos1] has one, [match_lists] returns a masked
    array with one entry per row of [pos1]; entry [i] is unmasked with
    value [j] only if rows [i] and [j] are within the tolerance of each
    other, row [j] is a nearest row of [pos2] to row [i] and row [i] is a
    nearest row of [pos1] to row [j]; an entry stays masked when no [j]
    is such a mutual nearest neighbour. *)
Theorem match_lists_mutual (pos1 pos2 : list position) (tolerance : float) :
  pos1 = [] \/ pos2 <> [] ->
  Z.of_nat (length pos1) <= 32768 -> Z.of_nat (length pos2) <= 32768 ->
  exists m,
    match_lists pos1 pos2 tolerance = Ok m /\
    length m = length pos1 /\
    (forall i j, m !! i = Some (Some j) -> mutual_nearest pos1 pos2 tolerance i j) /\
    (forall i, (i < length pos1)%nat ->
       (forall j, ~ mutual_nearest pos1 pos2 tolerance i j) -> m !! i = Some None).
Proof.
  intros Hrows Hn1 Hn2. unfold match_lists.
  assert (Hrun : exists m,
    match_rows pos1 pos2 tolerance (seq 0 (length pos1))
               (replicate (length pos1) None) = Ok m /\
    length m = length pos1 /\
    forall i j, m !! i = Some (Some j) -> mutual_nearest pos1 pos2 tolerance i j).
  { destruct Hrows as [-> | Hne].
    - exists []. split; [reflexivity|]. split; [reflexivity|].
      intros i j Hi. rewrite lookup_nil in Hi. discriminate.
    - apply match_rows_spec; try assumption.
      + apply Forall_forall. intros k Hk. apply elem_of_seq in Hk. lia.
      + apply length_replicate.
      + intros i j Hi. apply lookup_replicate in Hi as [Hi _]. discriminate. }
  destruct Hrun as (m & Hm & Hlen & Hsound).
  exists m. split; [exact Hm|]. split; [exact Hlen|]. split; [exact Hsound|].
  intros i Hi Hnone.
  destruct (lookup_lt_is_Some_2 m i) as [[j|] Hentry]; [lia| |exact Hentry].
  exfalso. exact (Hnone j (Hsound i j Hentry)).
Qed.

End MatchFacts.

Lemma match_lists_mutual_witness :
  exists m,
    AstromMagCheck.match_lists
      [(0, 0); (3, 4); (10, 10)]%float [(3, 4.5); (0.5, 0)]%float 100%float = Py.Ok m /\
    length m = length [(0, 0); (3, 4); (10, 10)]%float /\
    (forall i j, m !! i = Some (Some j) ->
       AstromMagCheck.mutual_nearest
         [(0, 0); (3, 4); (10, 10)]%float [(3, 4.5); (0.5, 0)]%float 100%float i j) /\
    (forall i, (i < length [(0, 0); (3, 4); (10, 10)]%float)%nat ->
       (forall j, ~ AstromMagCheck.mutual_nearest
                     [(0, 0); (3, 4); (10, 10)]%float [(3, 4.5); (0.5, 0)]%float
                     100%float i j) ->
       m !! i = Some None).
Proof.
  apply (match_lists_mutual
           [(0, 0); (3, 4); (10, 10)]%float [(3, 4.5); (0.5, 0)]%float 100%float);
    [right; discriminate | simpl; lia | simpl; lia].
Defined.

Example match_lists_sample :
  AstromMagCheck.match_lists
    [(0, 0); (3, 4); (10, 10)]%float [(3, 4.5); (0.5, 0)]%float 100%float
  = Py.Ok [Some 1; Some 0; None].
Proof. vm_compute. reflexivity. Qed.

(** C1, counterexample: with a row in [pos1] and none in [pos2], the
    minimum of an empty array of separations raises [ValueError] and no
    masked array is returned. *)
Lemma match_lists_empty_pos2 :
  AstromMagCheck.match_lists [(0, 0)]%float [] 100%float = Py.Raise Py.ValueError /\
  ~ (exists m, AstromMagCheck.match_lists [(0, 0)]%float [] 100%float = Py.Ok m).
Proof.
  split; [reflexivity|]. intros [m H]. vm_compute in H. discriminate H.
Qed.

(** Beyond 32768 rows the 16-bit index of a row is not its number: when the
    row 32768 of [pos2] is the nearest one, the index stored in [match] is
    -32768, which designates row 1 of the 32769 rows. *)
Remark match_lists_index_wraps :
  AstromMagCheck.match_lists
    [(0, 0)]%float
    (replicate (N.to_nat 32768) (10, 0)%float ++ [(0, 0)%float]) 100%float
  = Py.Ok [Some (-32768)].
Proof. vm_compute. reflexivity. Qed.

(* ===================================================================== *)
(** * daomop/storage.py: more on data sections *)
(* ===================================================================== *)
Section DatasecMore.
Import Py Storage DatasecAxis.

(** Once both strings are parsed, only the four bounds of each matter. *)
Lemma reset_datasec_parsed (cutout datasec : pystr) (naxis1 naxis2 : Z)
    (cs dtail : list Z) (c0 c1 c2 c3 a b c d : Z) :
  cutout <> py "[*,*]" ->
  datasec_to_list datasec = Ok (a :: b :: c :: d :: dtail) ->
  datasec_to_list (substitute_wildcards cutout naxis1 naxis2) = Ok cs ->
  cutout_bounds cs = Some (c0, c1, c2, c3) ->
  reset_datasec (Some cutout) datasec naxis1 naxis2 =
  Ok (VStr (remapped naxis1 naxis2 c0 c1 c2 c3 a b c d)).
Proof.
  intros Hne Hds Hcs Hb. unfold reset_datasec.
  rewrite bool_decide_eq_false_2 by exact Hne.
  rewrite Hds, Hcs.
  assert (Hshape : exists tail,
    (if bool_decide (length cs = 5%nat) then drop 1 cs else cs)
      = c0 :: c1 :: c2 :: c3 :: tail).
  { destruct cs as [|e0 [|e1 [|e2 [|e3 [|e4 [|e5 tail]]]]]]; try discriminate Hb;
      cbn in Hb; inversion Hb; subst; cbn [length];
      [ rewrite bool_decide_eq_false_2 by discriminate
      | rewrite bool_decide_eq_true_2 by reflexivity
      | rewrite bool_decide_eq_false_2 by (cbn; lia) ]; cbn [drop]; eauto. }
  destruct Hshape as [tail ->].
  unfold remapped, remap_axis, from_end_value, from_end.
  cbn [getitem lookup list_lookup bind].
  destruct (c0 <? 0); cbn [getitem lookup list_lookup bind insert list_insert];
  destruct (c1 <? 0); cbn [getitem lookup list_lookup bind insert list_insert];
  destruct (c2 <? 0); cbn [getitem lookup list_lookup bind insert list_insert];
  destruct (c3 <? 0); cbn [getitem lookup list_lookup bind insert list_insert];
  match goal with |- context [?u >? ?v] => destruct (u >? v) end;
  cbn [getitem lookup list_lookup bind fst snd];
  match goal with |- context [?u >? ?v] => destruct (u >? v) end;
  cbn [getitem lookup list_lookup bind fst snd]; reflexivity.
Qed.



(** X1: the data section printed from four integers, of any sign, is
    parsed back to these four integers. *)
Theorem datasec_round_trip (a b c d : Z) :
  datasec_to_list (format_section a b c d) = Ok [a; b; c; d].
Proof. apply datasec_to_list_format_section. Qed.

(** X2: for a cutout ["[x1:x2,y1:y2]"] with non-negative bounds in any
    order and a data section that parses to [a], [b], [c], [d], an axis
    whose cutout runs forwards is shifted by the start of the cutout, and an
    axis whose cutout runs backwards ([x1 > x2]) is mirrored about its
    start: the bounds become [x1 - b + 1] and [x1 - a + 1]; both are then
    clipped to [1..naxis]. *)
Theorem reset_datasec_orientation
    (x1 x2 y1 y2 a b c d naxis1 naxis2 : Z) (datasec : pystr) :
  0 <= x1 -> 0 <= x2 -> 0 <= y1 -> 0 <= y2 ->
  datasec_to_list datasec = Ok [a; b; c; d] ->
  reset_datasec (Some (format_section x1 x2 y1 y2)) datasec naxis1 naxis2 =
  Ok (VStr (format_section
              (Z.max ((if x1 >? x2 then x1 - b else a - x1) + 1) 1)
              (Z.min ((if x1 >? x2 then x1 - a else b - x1) + 1) naxis1)
              (Z.max ((if y1 >? y2 then y1 - d else c - y1) + 1) 1)
              (Z.min ((if y1 >? y2 then y1 - c else d - y1) + 1) naxis2))).
Proof.
  intros Hx1 Hx2 Hy1 Hy2 Hparse.
  rewrite (reset_datasec_parsed _ _ _ _ [x1; x2; y1; y2] [] x1 x2 y1 y2 a b c d);
    [| |exact Hparse| |reflexivity].
  - unfold remapped, remap_axis, from_end_value.
    replace (x1 <? 0) with false by (symmetry; apply Z.ltb_ge; lia).
    replace (x2 <? 0) with false by (symmetry; apply Z.ltb_ge; lia).
    replace (y1 <? 0) with false by (symmetry; apply Z.ltb_ge; lia).
    replace (y2 <? 0) with false by (symmetry; apply Z.ltb_ge; lia).
    destruct (x1 >? x2); destruct (y1 >? y2); cbn [fst snd];
      f_equal; f_equal; f_equal; lia.
  - intros Heq.
    apply (section_chars_absent _ "*" (format_section_chars x1 x2 y1 y2));
      [reflexivity|].
    rewrite Heq. simpl. tauto.
  - rewrite substitute_wildcards_plain by apply format_section_chars.
    apply datasec_to_list_format_section.
Qed.

Lemma reset_datasec_orientation_witness :
  reset_datasec (Some (format_section 20 11 1 30)) (py "[33:2080,1:4612]") 2112 4644 =
  Ok (VStr (format_section
              (Z.max ((if 20 >? 11 then 20 - 2080 else 33 - 20) + 1) 1)
              (Z.min ((if 20 >? 11 then 20 - 33 else 2080 - 20) + 1) 2112)
              (Z.max ((if 1 >? 30 then 1 - 4612 else 1 - 1) + 1) 1)
              (Z.min ((if 1 >? 30 then 1 - 1 else 4612 - 1) + 1) 4644))).
Proof.
  apply (reset_datasec_orientation 20 11 1 30 33 2080 1 4612 2112 4644);
    try lia; reflexivity.
Defined.

Lemma findall_extension (e x1 x2 y1 y2 : Z) :
  findall (py "[" ++ str_of_Z e ++ py "]" ++ format_section x1 x2 y1 y2) =
  str_of_Z e :: findall (format_section x1 x2 y1 y2).
Proof.
  unfold py at 1 2. cbn [list_ascii_of_string app].
  rewrite findall_skip by reflexivity.
  apply findall_number; reflexivity.
Qed.

(** X3: an extension number in front of the cutout, as in
    ["[2][x1:x2,y1:y2]"], does not change the result: [reset_datasec]
    returns what it returns for ["[x1:x2,y1:y2]"], for every data section,
    parsable or not. *)
Theorem reset_datasec_ignores_extension
    (e x1 x2 y1 y2 naxis1 naxis2 : Z) (datasec : pystr) :
  reset_datasec (Some (py "[" ++ str_of_Z e ++ py "]" ++ format_section x1 x2 y1 y2))
                datasec naxis1 naxis2 =
  reset_datasec (Some (format_section x1 x2 y1 y2)) datasec naxis1 naxis2.
Proof.
  set (ext := py "[" ++ str_of_Z e ++ py "]" ++ format_section x1 x2 y1 y2).
  assert (Hchars : Forall (fun ch => is_section_char ch = true) ext).
  { unfold ext. repeat (apply Forall_app; split);
      try apply str_of_Z_section_chars; try apply format_section_chars;
      repeat constructor. }
  assert (Hstar : forall s, Forall (fun ch => is_section_char ch = true) s ->
                            s <> py "[*,*]").
  { intros s Hs Heq. apply (section_chars_absent s "*" Hs); [reflexivity|].
    rewrite Heq. simpl. tauto. }
  unfold reset_datasec.
  rewrite !bool_decide_eq_false_2
    by (apply Hstar; first [exact Hchars | apply format_section_chars]).
  destruct (datasec_to_list datasec) as [ds|err]; [|reflexivity].
  rewrite !substitute_wildcards_plain
    by first [exact Hchars | apply format_section_chars].
  unfold ext, datasec_to_list at 1. rewrite findall_extension.
  fold (datasec_to_list (format_section x1 x2 y1 y2)).
  cbn [map_result]. rewrite int_of_str_of_Z.
  change (map_result int_of_str (findall (format_section x1 x2 y1 y2)))
    with (datasec_to_list (format_section x1 x2 y1 y2)).
  rewrite datasec_to_list_format_section.
  reflexivity.
Qed.



(** X6: when the data section parses and the cutout, after the
    substitution of its wildcards, parses to fewer than four integers,
    [reset_datasec] raises [IndexError]. *)
Theorem reset_datasec_short_cutout (cutout datasec : pystr) (naxis1 naxis2 : Z)
    (cs ds : list Z) :
  cutout <> py "[*,*]" ->
  datasec_to_list datasec = Ok ds ->
  datasec_to_list (substitute_wildcards cutout naxis1 naxis2) = Ok cs ->
  (length cs < 4)%nat ->
  reset_datasec (Some cutout) datasec naxis1 naxis2 = Raise IndexError.
Proof.
  intros Hne Hds Hcs Hlen. unfold reset_datasec.
  rewrite bool_decide_eq_false_2 by exact Hne.
  rewrite Hds, Hcs.
  destruct cs as [|c0 [|c1 [|c2 [|c3 tail]]]]; cbn in Hlen; try lia;
    cbn [length]; rewrite bool_decide_eq_false_2 by discriminate;
    unfold from_end; cbn [getitem lookup list_lookup bind];
    repeat match goal with
           | |- context [?u <? 0] =>
               destruct (u <? 0);
               cbn [getitem lookup list_lookup bind insert list_insert]
           end;
    reflexivity.
Qed.

Lemma reset_datasec_short_cutout_witness :
  reset_datasec (Some (py "[1]")) (py "[33:2080,1:4612]") 2112 4644 = Raise IndexError.
Proof.
  apply (reset_datasec_short_cutout _ _ _ _ [1] [33; 2080; 1; 4612]);
    [discriminate | reflexivity | reflexivity | simpl; lia].
Defined.

(** ** Wildcards *)

Lemma replace_from_skip (old new : pystr) (s : pystr) : forall k : nat,
  replace_from old new k s = replace_from old new 0 (drop k s).
Proof.
  induction s as [|c t IH]; intros k.
  - destruct k; reflexivity.
  - destruct k as [|k]; [reflexivity|]. cbn [replace_from drop]. apply IH.
Qed.

(** A prefix without the first character of the pattern is copied. *)
Lemma replace_app_absent (c : ascii) (old new s1 s2 : pystr) :
  ~ In c s1 ->
  replace (c :: old) new (s1 ++ s2) = s1 ++ replace (c :: old) new s2.
Proof.
  unfold replace. induction s1 as [|a s1 IH]; intros Hc; [reflexivity|].
  cbn [app replace_from startswith].
  assert (Hne : Ascii.eqb c a = false).
  { apply Ascii.eqb_neq. intros ->. apply Hc. left. reflexivity. }
  rewrite Hne. cbn [andb]. f_equal. apply IH.
  intros Hin. apply Hc. right. exact Hin.
Qed.

Lemma startswith_app (p t : pystr) : startswith p (p ++ t) = true.
Proof.
  induction p as [|c p IH]; [reflexivity|].
  cbn [app startswith]. rewrite Ascii.eqb_refl. exact IH.
Qed.

Lemma replace_head_mismatch (old new : pystr) (c : ascii) (t : pystr) :
  startswith old (c :: t) = false ->
  replace old new (c :: t) = c :: replace old new t.
Proof. intros H. unfold replace. cbn [replace_from]. rewrite H. reflexivity. Qed.

(** An occurrence at the head is replaced, and the scan goes on after it. *)
Lemma replace_match (old new t : pystr) :
  old <> [] -> replace old new (old ++ t) = new ++ replace old new t.
Proof.
  intros Hne. destruct old as [|c old]; [congruence|].
  unfold replace. cbn [app replace_from].
  change (c :: old ++ t) with ((c :: old) ++ t). rewrite startswith_app.
  rewrite replace_from_skip. cbn [length Nat.pred].
  rewrite drop_app_length. reflexivity.
Qed.

Lemma str_of_Z_nonneg (z : Z) :
  0 <= z -> str_of_Z z <> [] /\ all_digits (str_of_Z z).
Proof.
  intros Hz. unfold str_of_Z.
  replace (z <? 0) with false by (symmetry; apply Z.ltb_ge; lia).
  destruct (str_of_nonneg_spec z Hz) as (Hne & Hall & _). auto.
Qed.

Lemma digits_absent (s : pystr) (c : ascii) :
  all_digits s -> is_digit c = false -> ~ In c s.
Proof.
  intros Hall Hc Hin. unfold all_digits in Hall. rewrite Forall_forall in Hall.
  apply list_elem_of_In, Hall in Hin. congruence.
Qed.

Lemma not_in_app {A} (x : A) (l1 l2 : list A) :
  ~ In x l1 -> ~ In x l2 -> ~ In x (l1 ++ l2).
Proof. intros H1 H2 Hin. apply in_app_or in Hin. tauto. Qed.

(** Two cutouts that the substitutions send to the same string are
    treated alike. *)
Lemma reset_datasec_substituted (cutout1 cutout2 datasec : pystr) (naxis1 naxis2 : Z) :
  cutout1 <> py "[*,*]" -> cutout2 <> py "[*,*]" ->
  substitute_wildcards cutout1 naxis1 naxis2 = substitute_wildcards cutout2 naxis1 naxis2 ->
  reset_datasec (Some cutout1) datasec naxis1 naxis2 =
  reset_datasec (Some cutout2) datasec naxis1 naxis2.
Proof.
  intros H1 H2 Heq. unfold reset_datasec.
  rewrite !bool_decide_eq_false_2 by assumption.
  rewrite Heq. reflexivity.
Qed.

Lemma format_section_not_whole (a b c d : Z) : format_section a b c d <> py "[*,*]".
Proof.
  intros Heq.
  apply (section_chars_absent _ "*" (format_section_chars a b c d)); [reflexivity|].
  rewrite Heq. simpl. tauto.
Qed.

Lemma substitute_wildcard_x (y1 y2 naxis1 naxis2 : Z) :
  0 <= y1 -> 0 <= y2 ->
  substitute_wildcards (py "[*," ++ str_of_Z y1 ++ py ":" ++ str_of_Z y2 ++ py "]")
                       naxis1 naxis2
  = format_section 1 naxis1 y1 y2.
Proof.
  intros Hy1 Hy2.
  destruct (str_of_Z_nonneg y1 Hy1) as [_ Hd1].
  destruct (str_of_Z_nonneg y2 Hy2) as [_ Hd2].
  set (Y := str_of_Z y1 ++ py ":" ++ str_of_Z y2 ++ py "]").
  assert (HY : forall c, is_digit c = false -> c <> ":"%char -> c <> "]"%char ->
                         ~ In c Y).
  { intros c Hc Hcolon Hbracket. unfold Y.
    apply not_in_app; [apply digits_absent; assumption|].
    apply not_in_app; [simpl; intuition congruence|].
    apply not_in_app; [apply digits_absent; assumption|].
    simpl; intuition congruence. }
  assert (Hs0 : forall c, is_digit c = false -> c <> ":"%char -> c <> "]"%char ->
                          c <> "["%char -> c <> "*"%char -> c <> ","%char ->
                          ~ In c (py "[*," ++ Y)).
  { intros c ? ? ? ? ? ?. apply not_in_app; [simpl; intuition congruence|].
    apply HY; assumption. }
  unfold substitute_wildcards.
  rewrite (replace_absent (py " ") _ (py "[*," ++ Y) " ") by
    (first [simpl; tauto | apply Hs0; first [reflexivity | discriminate]]).
  rewrite (replace_absent (py "[-*,") _ (py "[*," ++ Y) "-") by
    (first [simpl; tauto | apply Hs0; first [reflexivity | discriminate]]).
  rewrite (replace_absent (py ",-*]") _ (py "[*," ++ Y) "-") by
    (first [simpl; tauto | apply Hs0; first [reflexivity | discriminate]]).
  assert (Hx : replace (py "[*,") (py "[1:" ++ str_of_Z naxis1 ++ py ",") (py "[*," ++ Y)
               = format_section 1 naxis1 y1 y2).
  { rewrite replace_match by discriminate.
    rewrite (replace_absent _ _ Y "[") by
      (first [simpl; tauto | apply HY; first [reflexivity | discriminate]]).
    unfold format_section, Y. rewrite <- !app_assoc. reflexivity. }
  rewrite Hx.
  apply (replace_absent _ _ _ "*"); [simpl; tauto|].
  apply section_chars_absent; [apply format_section_chars | reflexivity].
Qed.

(** X4: a wildcard on the x axis, ["[*,y1:y2]"] with non-negative [y1] and
    [y2], is treated as the full range ["[1:naxis1,y1:y2]"], for every data
    section. *)
Theorem reset_datasec_wildcard_x (y1 y2 naxis1 naxis2 : Z) (datasec : pystr) :
  0 <= y1 -> 0 <= y2 ->
  reset_datasec (Some (py "[*," ++ str_of_Z y1 ++ py ":" ++ str_of_Z y2 ++ py "]"))
                datasec naxis1 naxis2 =
  reset_datasec (Some (format_section 1 naxis1 y1 y2)) datasec naxis1 naxis2.
Proof.
  intros Hy1 Hy2.
  apply reset_datasec_substituted.
  - destruct (str_of_Z_nonneg y1 Hy1) as [Hne Hall].
    destruct (str_of_Z y1) as [|d ds]; [congruence|].
    inversion Hall as [|? ? Hd _]; subst.
    intros Heq. cbn in Heq. injection Heq as Hd' _. subst d. discriminate Hd.
  - apply format_section_not_whole.
  - rewrite substitute_wildcard_x by assumption.
    symmetry. apply substitute_wildcards_plain, format_section_chars.
Qed.

Lemma reset_datasec_wildcard_x_witness :
  reset_datasec (Some (py "[*," ++ str_of_Z 5 ++ py ":" ++ str_of_Z 20 ++ py "]"))
                (py "[33:2080,1:4612]") 2112 4644 =
  reset_datasec (Some (format_section 1 2112 5 20)) (py "[33:2080,1:4612]") 2112 4644.
Proof. apply reset_datasec_wildcard_x; lia. Defined.

Lemma substitute_wildcard_y (x1 x2 naxis1 naxis2 : Z) :
  0 <= x1 -> 0 <= x2 ->
  substitute_wildcards (py "[" ++ str_of_Z x1 ++ py ":" ++ str_of_Z x2 ++ py ",*]")
                       naxis1 naxis2
  = format_section x1 x2 1 naxis1.
Proof.
  intros Hx1 Hx2.
  destruct (str_of_Z_nonneg x1 Hx1) as [Hne1 Hd1].
  destruct (str_of_Z_nonneg x2 Hx2) as [_ Hd2].
  set (X := str_of_Z x1 ++ py ":" ++ str_of_Z x2).
  assert (HX : forall c, is_digit c = false -> c <> ":"%char -> ~ In c X).
  { intros c Hc Hcolon. unfold X.
    apply not_in_app; [apply digits_absent; assumption|].
    apply not_in_app; [simpl; intuition congruence|].
    apply digits_absent; assumption. }
  replace (py "[" ++ str_of_Z x1 ++ py ":" ++ str_of_Z x2 ++ py ",*]")
    with (py "[" ++ X ++ py ",*]") by (unfold X; rewrite <- !app_assoc; reflexivity).
  assert (Hs0 : forall c, is_digit c = false -> c <> ":"%char -> c <> "]"%char ->
                          c <> "["%char -> c <> "*"%char -> c <> ","%char ->
                          ~ In c (py "[" ++ X ++ py ",*]")).
  { intros c ? ? ? ? ? ?. apply not_in_app; [simpl; intuition congruence|].
    apply not_in_app; [apply HX; assumption|]. simpl; intuition congruence. }
  unfold substitute_wildcards.
  rewrite (replace_absent (py " ") _ (py "[" ++ X ++ py ",*]") " ") by
    (first [simpl; tauto | apply Hs0; first [reflexivity | discriminate]]).
  rewrite (replace_absent (py "[-*,") _ (py "[" ++ X ++ py ",*]") "-") by
    (first [simpl; tauto | apply Hs0; first [reflexivity | discriminate]]).
  rewrite (replace_absent (py ",-*]") _ (py "[" ++ X ++ py ",*]") "-") by
    (first [simpl; tauto | apply Hs0; first [reflexivity | discriminate]]).
  assert (Hkeep : replace (py "[*,") (py "[1:" ++ str_of_Z naxis1 ++ py ",")
                          (py "[" ++ X ++ py ",*]")
                  = py "[" ++ X ++ py ",*]").
  { unfold X. destruct (str_of_Z x1) as [|d ds]; [congruence|].
    inversion Hd1 as [|? ? Hd _]; subst.
    assert (Hstar : Ascii.eqb "*" d = false).
    { apply Ascii.eqb_neq. intros <-. discriminate Hd. }
    change (py "[" ++ ?x) with ("["%char :: x).
    rewrite replace_head_mismatch.
    2:{ unfold py. cbn [list_ascii_of_string app startswith].
        rewrite Hstar, Ascii.eqb_refl. reflexivity. }
    f_equal. rewrite <- !app_assoc.
    apply (replace_absent _ _ _ "["); [simpl; tauto|].
    apply not_in_app; [apply digits_absent; [exact Hd1 | reflexivity]|].
    apply not_in_app; [simpl; intuition congruence|].
    apply not_in_app; [apply digits_absent; [exact Hd2 | reflexivity]|].
    simpl; intuition congruence. }
  rewrite Hkeep.
  replace (py "[" ++ X ++ py ",*]") with ((py "[" ++ X) ++ py ",*]" ++ [])
    by (rewrite app_nil_r, <- app_assoc; reflexivity).
  change (py ",*]") with (","%char :: py "*]") at 1.
  rewrite replace_app_absent.
  2:{ apply not_in_app; [simpl; intuition congruence|].
      apply HX; first [reflexivity | discriminate]. }
  change (","%char :: py "*]") with (py ",*]").
  rewrite replace_match by discriminate.
  unfold format_section, X. change (str_of_Z 1) with (py "1").
  cbn [replace replace_from]. rewrite <- !app_assoc. reflexivity.
Qed.

(** X7: a wildcard on the y axis, ["[x1:x2,*]"] with non-negative [x1]
    and [x2], on an image with at least one pixel on each axis, is treated
    as the full range ["[x1:x2,1:naxis2]"] whenever the data section
    parses to at least four integers (the range that the substitution
    writes ends at [naxis1], which does not show in the result). *)
Theorem reset_datasec_wildcard_y
    (x1 x2 naxis1 naxis2 a b c d : Z) (dtail : list Z) (datasec : pystr) :
  0 <= x1 -> 0 <= x2 -> 1 <= naxis1 -> 1 <= naxis2 ->
  datasec_to_list datasec = Ok (a :: b :: c :: d :: dtail) ->
  reset_datasec (Some (py "[" ++ str_of_Z x1 ++ py ":" ++ str_of_Z x2 ++ py ",*]"))
                datasec naxis1 naxis2 =
  reset_datasec (Some (format_section x1 x2 1 naxis2)) datasec naxis1 naxis2.
Proof.
  intros Hx1 Hx2 Hn1 Hn2 Hds.
  rewrite (reset_datasec_parsed _ _ _ _ [x1; x2; 1; naxis1] dtail
             x1 x2 1 naxis1 a b c d); [| |exact Hds| |reflexivity].
  - rewrite (reset_datasec_parsed _ _ _ _ [x1; x2; 1; naxis2] dtail
               x1 x2 1 naxis2 a b c d); [| |exact Hds| |reflexivity].
    + unfold remapped, remap_axis, from_end_value.
      replace (naxis1 <? 0) with false by (symmetry; apply Z.ltb_ge; lia).
      replace (naxis2 <? 0) with false by (symmetry; apply Z.ltb_ge; lia).
      change (1 <? 0) with false. cbv iota.
      replace (1 >? naxis1) with false
        by (rewrite Z.gtb_ltb; symmetry; apply Z.ltb_ge; lia).
      replace (1 >? naxis2) with false
        by (rewrite Z.gtb_ltb; symmetry; apply Z.ltb_ge; lia).
      reflexivity.
    + apply format_section_not_whole.
    + rewrite substitute_wildcards_plain by apply format_section_chars.
      apply datasec_to_list_format_section.
  - destruct (str_of_Z_nonneg x1 Hx1) as [Hne Hall].
    destruct (str_of_Z x1) as [|e es]; [congruence|].
    inversion Hall as [|? ? He _]; subst.
    intros Heq. cbn in Heq. injection Heq as He' _. subst e. discriminate He.
  - rewrite substitute_wildcard_y by assumption.
    apply datasec_to_list_format_section.
Qed.

Lemma reset_datasec_wildcard_y_witness :
  reset_datasec (Some (py "[" ++ str_of_Z 5 ++ py ":" ++ str_of_Z 20 ++ py ",*]"))
                (py "[33:2080,1:4612]") 2112 4644 =
  reset_datasec (Some (format_section 5 20 1 4644)) (py "[33:2080,1:4612]") 2112 4644.
Proof.
  apply (reset_datasec_wildcard_y 5 20 2112 4644 33 2080 1 4612 []); try lia.
  reflexivity.
Defined.

(** A character that is not a digit and differs from the other characters
    of a literal does not occur in it. *)
Ltac literal_absent :=
  let Hin := fresh "Hin" in
  intros Hin; simpl in Hin;
  repeat (destruct Hin as [<- | Hin]; [first [congruence | discriminate]|]);
  exact Hin.

Lemma substitute_reversed (naxis1 naxis2 : Z) :
  0 <= naxis1 -> 0 <= naxis2 ->
  substitute_wildcards (py "[-*,-*]") naxis1 naxis2
  = str_of_Z naxis1 ++ py ":1," ++ str_of_Z naxis2 ++ py ":1]".
Proof.
  intros Hn1 Hn2.
  destruct (str_of_Z_nonneg naxis1 Hn1) as [_ Hd1].
  destruct (str_of_Z_nonneg naxis2 Hn2) as [_ Hd2].
  unfold substitute_wildcards.
  change (replace (py " ") (py "") (py "[-*,-*]")) with (py "[-*," ++ py "-*]").
  rewrite replace_match by discriminate.
  rewrite (replace_absent (py "[-*,") _ (py "-*]") "[") by (simpl; intuition congruence).
  replace ((str_of_Z naxis1 ++ py ":1,") ++ py "-*]")
    with ((str_of_Z naxis1 ++ py ":1") ++ py ",-*]" ++ [])
    by (rewrite <- !app_assoc; reflexivity).
  change (py ",-*]") with (","%char :: py "-*]") at 1.
  rewrite replace_app_absent.
  2:{ apply not_in_app; [apply digits_absent; [exact Hd1 | reflexivity]|].
      simpl; intuition congruence. }
  change (","%char :: py "-*]") with (py ",-*]").
  rewrite replace_match by discriminate.
  change (replace (py ",-*]") (py "," ++ str_of_Z naxis2 ++ py ":1]") []) with (@nil ascii).
  rewrite app_nil_r.
  set (S2 := (str_of_Z naxis1 ++ py ":1") ++ py "," ++ str_of_Z naxis2 ++ py ":1]").
  assert (HS2 : forall c, is_digit c = false -> c <> ":"%char -> c <> "]"%char ->
                          c <> ","%char -> ~ In c S2).
  { intros c ? ? ? ?. unfold S2.
    apply not_in_app; [apply not_in_app;
                         [apply digits_absent; assumption | literal_absent]|].
    apply not_in_app; [literal_absent|].
    apply not_in_app; [apply digits_absent; assumption | literal_absent]. }
  rewrite (replace_absent (py "[*,") _ S2 "[") by
    (first [simpl; tauto | apply HS2; first [reflexivity | discriminate]]).
  rewrite (replace_absent (py ",*]") _ S2 "*") by
    (first [simpl; tauto | apply HS2; first [reflexivity | discriminate]]).
  unfold S2. rewrite <- !app_assoc. reflexivity.
Qed.

Lemma datasec_to_list_reversed (naxis1 naxis2 : Z) :
  datasec_to_list (str_of_Z naxis1 ++ py ":1," ++ str_of_Z naxis2 ++ py ":1]")
  = Ok [naxis1; 1; naxis2; 1].
Proof.
  unfold datasec_to_list.
  change (py ":1," ++ ?t) with (":"%char :: str_of_Z 1 ++ ","%char :: t).
  change (py ":1]") with (":"%char :: str_of_Z 1 ++ ["]"%char]).
  rewrite findall_number; [|reflexivity|apply span_delim_number].
  rewrite findall_number; [|reflexivity|apply span_delim_number].
  rewrite findall_number; [|reflexivity|apply span_delim_number].
  rewrite findall_number; [|reflexivity|reflexivity].
  change (findall []) with (@nil pystr). cbn [map_result].
  rewrite !int_of_str_of_Z. reflexivity.
Qed.

(** X8: the cutout ["[-*,-*]"], both axes reversed, of an image with more
    than one pixel on each axis mirrors a data section that parses to
    [a], [b], [c], [d]: the result is
    ["[naxis1-b+1:naxis1-a+1,naxis2-d+1:naxis2-c+1]"], clipped to
    [1..naxis1] and [1..naxis2]. *)
Theorem reset_datasec_reversed (naxis1 naxis2 a b c d : Z) (datasec : pystr) :
  1 < naxis1 -> 1 < naxis2 ->
  datasec_to_list datasec = Ok [a; b; c; d] ->
  reset_datasec (Some (py "[-*,-*]")) datasec naxis1 naxis2 =
  Ok (VStr (format_section (Z.max (naxis1 - b + 1) 1) (Z.min (naxis1 - a + 1) naxis1)
                           (Z.max (naxis2 - d + 1) 1) (Z.min (naxis2 - c + 1) naxis2))).
Proof.
  intros Hn1 Hn2 Hds.
  rewrite (reset_datasec_parsed _ _ _ _ [naxis1; 1; naxis2; 1] []
             naxis1 1 naxis2 1 a b c d); [|discriminate|exact Hds| |reflexivity].
  - unfold remapped, remap_axis, from_end_value.
    replace (naxis1 <? 0) with false by (symmetry; apply Z.ltb_ge; lia).
    replace (naxis2 <? 0) with false by (symmetry; apply Z.ltb_ge; lia).
    change (1 <? 0) with false. cbv iota.
    replace (naxis1 >? 1) with true
      by (rewrite Z.gtb_ltb; symmetry; apply Z.ltb_lt; lia).
    replace (naxis2 >? 1) with true
      by (rewrite Z.gtb_ltb; symmetry; apply Z.ltb_lt; lia).
    cbn [fst snd]. f_equal. f_equal. f_equal; f_equal; lia.
  - rewrite substitute_reversed by lia. apply datasec_to_list_reversed.
Qed.

Lemma reset_datasec_reversed_witness :
  reset_datasec (Some (py "[-*,-*]")) (py "[33:2080,1:4612]") 2112 4644 =
  Ok (VStr (format_section (Z.max (2112 - 2080 + 1) 1) (Z.min (2112 - 33 + 1) 2112)
                           (Z.max (4644 - 4612 + 1) 1) (Z.min (4644 - 1 + 1) 4644))).
Proof.
  apply (reset_datasec_reversed 2112 4644 33 2080 1 4612); try lia. reflexivity.
Defined.

End DatasecMore.

(* ===================================================================== *)
(** * pymop/astrometry/daophot.py: more on the returned table *)
(* ===================================================================== *)
Section PhotTable.
Import Py Daophot DaophotTable.
Variable float_of_str : pystr -> result float.
Variable pdump : hval -> list pystr.

(** A column consumes the first of the remaining fields and appends one
    cell of its kind to its own list. *)
Lemma parse_column_step (apcor : float) (col : pystr)
    (values values' : list pystr) (data data' : gmap pystr (list cell)) :
  parse_column float_of_str apcor col (values, data) = Ok (values', data') ->
  values <> [] /\ values' = drop 1 values /\
  exists cells v,
    data !! col = Some cells /\ data' = <[col := cells ++ [v]]> data /\
    column_kind col v = true.
Proof.
  intros H. unfold parse_column in H.
  apply bind_Ok in H as (fmt & Hfmt & H).
  unfold dict_getitem in Hfmt.
  destruct (format !! col) as [fmt'|] eqn:Hlook; [|discriminate].
  inversion Hfmt; subst fmt'. clear Hfmt.
  unfold column_kind. rewrite Hlook.
  assert (Htok : forall A (k : pystr -> result A) (r : A),
            bind (getitem values 0) k = Ok r -> values <> []).
  { intros A k r Hk. destruct values; [discriminate Hk | discriminate]. }
  assert (Happ : forall v d, append_cell col v data = Ok d ->
            exists cells, data !! col = Some cells /\ d = <[col := cells ++ [v]]> data).
  { intros v d Hd. unfold append_cell, dict_getitem in Hd.
    destruct (data !! col) as [cells|]; [|discriminate].
    cbn [bind] in Hd. inversion Hd. eauto. }
  destruct (re_match_percent "f" fmt); [|destruct (re_match_percent "d" fmt)].
  - apply bind_Ok in H as (v & Hv & H).
    apply bind_Ok in H as (d & Hd & H). inversion H; subst. clear H.
    apply Happ in Hd as (cells & Hcells & ->).
    split; [destruct (bool_decide (col = py "MAG")); eapply Htok; exact Hv|].
    split; [reflexivity|]. exists cells, (CFloat v). auto.
  - pose proof (Htok _ _ _ H) as Hne.
    apply bind_Ok in H as (token & _ & H).
    apply bind_Ok in H as (n & _ & H).
    apply bind_Ok in H as (d & Hd & H). inversion H; subst. clear H.
    apply Happ in Hd as (cells & Hcells & ->).
    split; [exact Hne|]. split; [reflexivity|]. exists cells, (CInt n). auto.
  - pose proof (Htok _ _ _ H) as Hne.
    apply bind_Ok in H as (token & _ & H).
    apply bind_Ok in H as (d & Hd & H). inversion H; subst. clear H.
    apply Happ in Hd as (cells & Hcells & ->).
    split; [exact Hne|]. split; [reflexivity|]. exists cells, (CStr token). auto.
Qed.

Lemma parse_columns_step (apcor : float) (cols : list pystr) :
  forall (values values' : list pystr) (data data' : gmap pystr (list cell)),
  NoDup cols ->
  parse_columns float_of_str apcor cols (values, data) = Ok (values', data') ->
  (length cols <= length values)%nat /\
  forall key,
    (key ∈ cols -> exists cells v,
       data !! key = Some cells /\ data' !! key = Some (cells ++ [v]) /\
       column_kind key v = true) /\
    (key ∉ cols -> data' !! key = data !! key).
Proof.
  induction cols as [|col cols IH]; intros values values' data data' Hnd H.
  - inversion H; subst. split; [cbn; lia|].
    intros key. split; [intros Hin; apply elem_of_nil in Hin; destruct Hin | reflexivity].
  - apply NoDup_cons in Hnd as [Hnotin Hnd].
    cbn [parse_columns] in H. apply bind_Ok in H as ([v1 d1] & Hstep & H).
    apply parse_column_step in Hstep as (Hne & -> & cells & v & Hcells & -> & Hkind).
    destruct (IH _ _ _ _ Hnd H) as [Hlen Hkeys].
    split.
    { rewrite length_drop in Hlen. destruct values; [congruence|]. cbn in *. lia. }
    intros key. destruct (Hkeys key) as [Hin Hout]. split.
    + intros Hkey. apply elem_of_cons in Hkey as [-> | Hkey].
      * exists cells, v. split; [exact Hcells|]. split; [|exact Hkind].
        rewrite (Hout Hnotin). apply lookup_insert_eq.
      * destruct (Hin Hkey) as (cells' & v' & Hold & Hnew & Hk').
        exists cells', v'. split; [|auto].
        rewrite lookup_insert_ne in Hold; [exact Hold|].
        intros ->. contradiction.
    + intros Hkey. apply not_elem_of_cons in Hkey as [Hne' Hkey].
      rewrite (Hout Hkey). apply lookup_insert_ne. congruence.
Qed.

Lemma order_NoDup : NoDup order.
Proof. refine (bool_decide_unpack (NoDup order) _). vm_compute. exact I. Qed.

Lemma parse_lines_table (apcor : float) (lines : list pystr) :
  forall (data data' : gmap pystr (list cell)),
  parse_lines float_of_str apcor lines data = Ok data' ->
  Forall (fun line => (8 <= length (split line))%nat) lines /\
  forall key cells, key ∈ order -> data !! key = Some cells ->
    exists added,
      data' !! key = Some (cells ++ added) /\ length added = length lines /\
      Forall (fun v => column_kind key v = true) added.
Proof.
  induction lines as [|line lines IH]; intros data data' H.
  - inversion H; subst. split; [constructor|].
    intros key cells _ Hcells. exists []. rewrite app_nil_r. auto.
  - cbn [parse_lines] in H. apply bind_Ok in H as (d1 & Hline & H).
    unfold parse_line in Hline.
    apply bind_Ok in Hline as ([v8 d8] & Hcols & Hret). inversion Hret; subst d8.
    apply (parse_columns_step _ _ _ _ _ _ order_NoDup) in Hcols as [Hlen Hkeys].
    destruct (IH _ _ H) as [Hall Hrest].
    split; [constructor; [exact Hlen | exact Hall]|].
    intros key cells Hkey Hcells.
    destruct (Hkeys key) as [Hin _].
    destruct (Hin Hkey) as (cells' & v & Hold & Hnew & Hkind).
    assert (cells' = cells) by congruence. subst cells'.
    destruct (Hrest key _ Hkey Hnew) as (added & Hfinal & Hn & Hkinds).
    exists (v :: added). split; [rewrite Hfinal, <- app_assoc; reflexivity|].
    split; [cbn; lia|]. constructor; assumption.
Qed.

Lemma empty_data_order (key : pystr) : key ∈ order -> empty_data !! key = Some [].
Proof.
  intros Hkey. unfold order in Hkey.
  repeat (apply elem_of_cons in Hkey as [-> | Hkey]; [vm_compute; reflexivity|]).
  apply elem_of_nil in Hkey. destruct Hkey.
Qed.

Lemma float_column_kind (key : pystr) (v : cell) :
  key ∈ float_columns -> column_kind key v = is_float_cell v.
Proof.
  intros Hkey. unfold float_columns in Hkey.
  repeat (apply elem_of_cons in Hkey as [-> | Hkey]; [reflexivity|]).
  apply elem_of_nil in Hkey. destruct Hkey.
Qed.

Lemma int_column_kind (key : pystr) (v : cell) :
  key ∈ int_columns -> column_kind key v = is_int_cell v.
Proof.
  intros Hkey. unfold int_columns in Hkey.
  repeat (apply elem_of_cons in Hkey as [-> | Hkey]; [reflexivity|]).
  apply elem_of_nil in Hkey. destruct Hkey.
Qed.

(** X9: when [phot] returns, each of the eight columns of its table has
    exactly one cell per line printed by the package; the cells of X, Y,
    MAG, MERR, XSHIFT and YSHIFT are floats and those of ID and LID are
    integers. *)
Theorem phot_table_shape (header : gmap pystr hval) (readable : gmap pystr pystr)
    (apcor : float) (h : hdu) :
  phot float_of_str pdump header readable apcor = Ok h ->
  (forall col, col ∈ float_columns ->
     exists cells, hdu_data h !! col = Some cells /\
       length cells = length (pdump (hdu_zeropoint h)) /\
       Forall (fun v => is_float_cell v = true) cells) /\
  (forall col, col ∈ int_columns ->
     exists cells, hdu_data h !! col = Some cells /\
       length cells = length (pdump (hdu_zeropoint h)) /\
       Forall (fun v => is_int_cell v = true) cells).
Proof.
  intros H. unfold phot in H.
  apply bind_Ok in H as (zmag & _ & H).
  apply bind_Ok in H as (data & Hlines & H). inversion H; subst h. clear H.
  cbn [hdu_data hdu_zeropoint].
  apply parse_lines_table in Hlines as [_ Htable].
  split; intros col Hcol.
  - assert (Hord : col ∈ order).
    { unfold float_columns in Hcol. unfold order.
      repeat (apply elem_of_cons in Hcol as [-> | Hcol];
              [repeat first [apply list_elem_of_here | apply list_elem_of_further]|]).
      apply elem_of_nil in Hcol. destruct Hcol. }
    destruct (Htable col [] Hord (empty_data_order col Hord)) as (added & Hnew & Hn & Hk).
    exists added. split; [exact Hnew|]. split; [exact Hn|].
    eapply Forall_impl; [exact Hk|]. intros v Hv. cbn beta in Hv.
    rewrite <- (float_column_kind col v Hcol). exact Hv.
  - assert (Hord : col ∈ order).
    { unfold int_columns in Hcol. unfold order.
      repeat (apply elem_of_cons in Hcol as [-> | Hcol];
              [repeat first [apply list_elem_of_here | apply list_elem_of_further]|]).
      apply elem_of_nil in Hcol. destruct Hcol. }
    destruct (Htable col [] Hord (empty_data_order col Hord)) as (added & Hnew & Hn & Hk).
    exists added. split; [exact Hnew|]. split; [exact Hn|].
    eapply Forall_impl; [exact Hk|]. intros v Hv. cbn beta in Hv.
    rewrite <- (int_column_kind col v Hcol). exact Hv.
Qed.

(** X10: a line of the package with fewer than eight fields makes [phot]
    raise: when the zeropoint is selected without error and some line of
    the output splits into fewer than eight fields, [phot] does not
    return. *)
Theorem phot_short_line (header : gmap pystr hval) (readable : gmap pystr pystr)
    (apcor : float) (zmag : hval) (line : pystr) :
  phot_zmag float_of_str header readable = Ok zmag ->
  line ∈ pdump zmag -> (length (split line) < 8)%nat ->
  exists e, phot float_of_str pdump header readable apcor = Raise e.
Proof.
  intros Hz Hline Hshort. unfold phot. rewrite Hz. cbn [bind].
  destruct (parse_lines float_of_str apcor (pdump zmag) empty_data) as [data|e] eqn:Hp.
  - exfalso. apply parse_lines_table in Hp as [Hall _].
    rewrite Forall_forall in Hall. specialize (Hall line Hline). lia.
  - exists e. reflexivity.
Qed.

(** X11: when the package prints no line (the source was rejected by the
    selection on MERR, MAG and PIER), [phot] returns a table with empty
    columns and [phot_mag] raises [IndexError]. *)
Theorem phot_mag_no_measure (header : gmap pystr hval) (readable : gmap pystr pystr)
    (apcor : float) (zmag : hval) :
  phot_zmag float_of_str header readable = Ok zmag ->
  pdump zmag = [] ->
  phot float_of_str pdump header readable apcor = Ok (Hdu apcor zmag empty_data) /\
  phot_mag float_of_str pdump header readable apcor = Raise IndexError.
Proof.
  intros Hz Hout. unfold phot_mag, phot. rewrite Hz. cbn [bind]. rewrite Hout.
  cbn [parse_lines bind hdu_data]. split; reflexivity.
Qed.

End PhotTable.

Lemma phot_table_shape_witness :
  match Daophot.phot DaophotTable.float_of_int_literal
          (fun _ => [Py.py "560 406 25 0 1 0 0 1"; Py.py "12 14 23 0 2 0 0 2"])
          ∅ ∅ 0.5%float with
  | Py.Ok h =>
      (forall col, col ∈ DaophotTable.float_columns ->
         exists cells, Daophot.hdu_data h !! col = Some cells /\
           length cells =
             length [Py.py "560 406 25 0 1 0 0 1"; Py.py "12 14 23 0 2 0 0 2"] /\
           Forall (fun v => DaophotTable.is_float_cell v = true) cells) /\
      (forall col, col ∈ DaophotTable.int_columns ->
         exists cells, Daophot.hdu_data h !! col = Some cells /\
           length cells =
             length [Py.py "560 406 25 0 1 0 0 1"; Py.py "12 14 23 0 2 0 0 2"] /\
           Forall (fun v => DaophotTable.is_int_cell v = true) cells)
  | Py.Raise _ => False
  end.
Proof.
  destruct (Daophot.phot _ _ ∅ ∅ 0.5%float) as [h|e] eqn:H.
  - exact (phot_table_shape _ _ ∅ ∅ 0.5%float h H).
  - vm_compute in H. discriminate H.
Defined.

Lemma phot_short_line_witness :
  exists e,
    Daophot.phot DaophotTable.float_of_int_literal
      (fun _ => [Py.py "560 406 25 0 1 0 0 1"; Py.py "12 14 23"]) ∅ ∅ 0.5%float
    = Py.Raise e.
Proof.
  apply (phot_short_line DaophotTable.float_of_int_literal
           (fun _ => [Py.py "560 406 25 0 1 0 0 1"; Py.py "12 14 23"])
           ∅ ∅ 0.5%float (Daophot.HNum 26%float) (Py.py "12 14 23")).
  - reflexivity.
  - apply list_elem_of_further, list_elem_of_here.
  - vm_compute. lia.
Defined.

Lemma phot_mag_no_measure_witness :
  Daophot.phot DaophotTable.float_of_int_literal (fun _ => []) ∅ ∅ 0.5%float
    = Py.Ok (Daophot.Hdu 0.5%float (Daophot.HNum 26%float) Daophot.empty_data) /\
  Daophot.phot_mag DaophotTable.float_of_int_literal (fun _ => []) ∅ ∅ 0.5%float
    = Py.Raise Py.IndexError.
Proof.
  apply (phot_mag_no_measure DaophotTable.float_of_int_literal (fun _ => [])
           ∅ ∅ 0.5%float (Daophot.HNum 26%float)); reflexivity.
Defined.

(* ===================================================================== *)
(** * pipeline/astrom_mag_check.py: which rows are matched *)
(* ===================================================================== *)
Section MatchMore.
Import Py AstromMagCheck.

Lemma SFleb_antisym (a b : spec_float) :
  SFleb a b = true -> SFleb b a = true -> SFeqb a b = true.
Proof.
  unfold SFeqb. rewrite !SFleb_not_gt.
  destruct a as [sa|sa| |sa ma ea], b as [sb|sb| |sb mb eb];
    repeat match goal with s : bool |- _ => destruct s end;
    cbn [SFcompare]; try reflexivity; try discriminate;
    rewrite ?lex_le, ?lex_ge; intros H1 H2;
    (assert (He : ea = eb) by lia); subst;
    (assert (Hm : ma = mb) by lia); subst;
    rewrite Z.compare_refl, Pos.compare_cont_refl; reflexivity.
Qed.

Lemma leb_antisym (x y : float) :
  (x <=? y)%float = true -> (y <=? x)%float = true -> (x =? y)%float = true.
Proof. rewrite !FloatAxioms.leb_spec, FloatAxioms.eqb_spec. apply SFleb_antisym. Qed.

(** The reduction by [minimum] returns one of the numbers it went through. *)
Lemma fold_minimum_in (l : list float) : forall acc : float,
  fold_left minimum l acc ∈ acc :: l.
Proof.
  induction l as [|y l IH]; intros acc; cbn [fold_left].
  - apply list_elem_of_here.
  - specialize (IH (minimum acc y)). apply elem_of_cons in IH as [Heq | Hin].
    + rewrite Heq. unfold minimum.
      destruct ((acc <=? y)%float || is_nan acc);
        [apply list_elem_of_here | apply list_elem_of_further, list_elem_of_here].
    + apply list_elem_of_further, list_elem_of_further. exact Hin.
Qed.

(** A separation within the tolerance that is below all the others
    satisfies the match condition. *)
Lemma match_condition_least (tolerance : float) (sep : list float)
    (cond : list bool) (k : nat) (s : float) :
  match_condition tolerance sep = Ok cond -> sep !! k = Some s ->
  (s <=? tolerance)%float = true ->
  Forall (fun y => (s <=? y)%float = true) sep ->
  cond !! k = Some true.
Proof.
  unfold match_condition. intros H Hk Htol Hleast.
  destruct (amin sep) as [m|e] eqn:Hmin; [|discriminate].
  cbn [bind] in H. inversion H; subst cond. clear H.
  rewrite list_lookup_fmap, Hk. cbn. rewrite Htol. cbn [andb]. do 2 f_equal.
  assert (Hm : m ∈ sep).
  { destruct sep as [|x rest]; [discriminate|]. inversion Hmin. apply fold_minimum_in. }
  rewrite Forall_forall in Hleast.
  pose proof (Hleast m Hm) as Hsm.
  assert (Hnan : is_nan m = false) by (apply leb_not_nan in Hsm; tauto).
  pose proof (amin_least _ _ Hmin Hnan) as Hall. rewrite Forall_forall in Hall.
  apply leb_antisym; [exact Hsm|]. apply Hall.
  apply list_elem_of_lookup. eauto.
Qed.

Lemma select_keeps {A} (arr : list A) : forall (mask : list bool) (k : nat) (x : A),
  arr !! k = Some x -> mask !! k = Some true -> x ∈ select arr mask.
Proof.
  induction arr as [|a arr IH]; intros mask k x Ha Hm; [rewrite lookup_nil in Ha; discriminate|].
  destruct mask as [|b mask]; [rewrite lookup_nil in Hm; discriminate|].
  destruct k as [|k]; cbn in Ha, Hm.
  - inversion Ha; inversion Hm; subst. cbn. apply list_elem_of_here.
  - cbn. destruct b; [apply list_elem_of_further|]; eapply IH; eauto.
Qed.

Lemma select_arange16_keeps (n : nat) (mask : list bool) (k : nat) :
  Z.of_nat n <= 32768 -> (k < n)%nat -> mask !! k = Some true ->
  Z.of_nat k ∈ select (arange16 n) mask.
Proof.
  intros Hn Hk Hm. apply (select_keeps _ _ k); [|exact Hm].
  unfold arange16. rewrite arange16_from_lookup by exact Hk.
  rewrite wrap16_small by lia. f_equal.
Qed.

(** When the inner loop finds nothing, no candidate of the group has row
    [idx1] among its nearest rows of [pos1]. *)
Lemma first_mutual_none (pos1 pos2 : list position) (tolerance : float) (idx1 : nat) :
  forall group : list Z,
  first_mutual pos1 pos2 tolerance idx1 group = Ok None ->
  forall (k : nat) (q : position) (cond : list bool),
    Z.of_nat k ∈ group -> pos2 !! k = Some q ->
    match_condition tolerance (separations q pos1) = Ok cond ->
    Z.of_nat idx1 ∉ select (arange16 (length pos1)) cond.
Proof.
  induction group as [|idx2 group IH]; intros H k q cond Hk Hq Hcond.
  - apply elem_of_nil in Hk. destruct Hk.
  - cbn [first_mutual] in H.
    apply bind_Ok in H as (q0 & Hq0 & H).
    apply bind_Ok in H as (cond0 & Hcond0 & H).
    destruct (bool_decide (Z.of_nat idx1 ∈ select (arange16 (length pos1)) cond0))
      eqn:Hin; [discriminate H|].
    apply elem_of_cons in Hk as [<- | Hk].
    + rewrite (array_getitem_nat _ _ _ Hq) in Hq0. inversion Hq0; subst q0.
      rewrite Hcond in Hcond0. inversion Hcond0; subst cond0.
      apply bool_decide_eq_false_1 in Hin. exact Hin.
    + eapply IH; eauto.
Qed.

Lemma match_row_shape (pos1 pos2 : list position) (tolerance : float)
    (idx1 : nat) (matched matched' : list (option Z)) :
  match_row pos1 pos2 tolerance idx1 matched = Ok matched' ->
  matched' = matched \/ exists j, matched' = <[idx1 := Some j]> matched.
Proof.
  unfold match_row. intros H.
  apply bind_Ok in H as (p & _ & H).
  apply bind_Ok in H as (cond & _ & H).
  apply bind_Ok in H as (found & _ & H).
  destruct found as [j|]; inversion H; eauto.
Qed.

Lemma match_rows_keep (pos1 pos2 : list position) (tolerance : float)
    (i : nat) (rows : list nat) :
  forall matched m : list (option Z),
  i ∉ rows -> match_rows pos1 pos2 tolerance rows matched = Ok m ->
  m !! i = matched !! i.
Proof.
  induction rows as [|r rows IH]; intros matched m Hi H.
  - inversion H. reflexivity.
  - apply not_elem_of_cons in Hi as [Hne Hi].
    cbn [match_rows] in H. apply bind_Ok in H as (matched1 & Hrow & H).
    rewrite (IH _ _ Hi H).
    apply match_row_shape in Hrow as [-> | [j ->]]; [reflexivity|].
    apply list_lookup_insert_ne. congruence.
Qed.

Lemma match_rows_length (pos1 pos2 : list position) (tolerance : float)
    (rows : list nat) :
  forall matched m : list (option Z),
  match_rows pos1 pos2 tolerance rows matched = Ok m -> length m = length matched.
Proof.
  induction rows as [|r rows IH]; intros matched m H.
  - inversion H. reflexivity.
  - cbn [match_rows] in H. apply bind_Ok in H as (matched1 & Hrow & H).
    rewrite (IH _ _ H).
    apply match_row_shape in Hrow as [-> | [j ->]]; [reflexivity|].
    apply length_insert.
Qed.

(** A row with a mutual nearest neighbour gets an index in its turn. *)
Lemma match_row_finds (pos1 pos2 : list position) (tolerance : float)
    (i j : nat) (p q : position) (matched matched' : list (option Z)) :
  Z.of_nat (length pos1) <= 32768 -> Z.of_nat (length pos2) <= 32768 ->
  pos1 !! i = Some p -> pos2 !! j = Some q ->
  (distance p q <=? tolerance)%float = true ->
  (forall q', q' ∈ pos2 -> (distance p q <=? distance p q')%float = true) ->
  (distance q p <=? tolerance)%float = true ->
  (forall p', p' ∈ pos1 -> (distance q p <=? distance q p')%float = true) ->
  match_row pos1 pos2 tolerance i matched = Ok matched' ->
  exists j', matched' = <[i := Some j']> matched.
Proof.
  intros Hn1 Hn2 Hp Hq Htol1 Hnear1 Htol2 Hnear2 H.
  unfold match_row in H.
  apply bind_Ok in H as (p0 & Hp0 & H).
  unfold getitem in Hp0. rewrite Hp in Hp0. inversion Hp0; subst p0. clear Hp0.
  apply bind_Ok in H as (cond & Hcond & H).
  apply bind_Ok in H as (found & Hfound & H).
  destruct found as [j'|]; [inversion H; eauto|].
  exfalso.
  assert (Hmask : cond !! j = Some true).
  { eapply match_condition_least; [exact Hcond| |exact Htol1|].
    - unfold separations. rewrite list_lookup_fmap, Hq. reflexivity.
    - unfold separations. rewrite Forall_fmap, Forall_forall. exact Hnear1. }
  assert (Hgroup : Z.of_nat j ∈ select (arange16 (length pos2)) cond).
  { apply select_arange16_keeps; [exact Hn2| |exact Hmask].
    eapply lookup_lt_Some; eauto. }
  destruct (match_condition_ok tolerance (separations q pos1)) as [cond2 Hcond2].
  { unfold separations. destruct pos1; [rewrite lookup_nil in Hp|]; discriminate. }
  apply (first_mutual_none _ _ _ _ _ Hfound j q cond2 Hgroup Hq Hcond2).
  apply select_arange16_keeps; [exact Hn1 | eapply lookup_lt_Some; eauto|].
  eapply match_condition_least; [exact Hcond2| |exact Htol2|].
  - unfold separations. rewrite list_lookup_fmap, Hp. reflexivity.
  - unfold separations. rewrite Forall_fmap, Forall_forall. exact Hnear2.
Qed.

Lemma match_rows_finds (pos1 pos2 : list position) (tolerance : float)
    (i j : nat) (p q : position) (rows : list nat) :
  Z.of_nat (length pos1) <= 32768 -> Z.of_nat (length pos2) <= 32768 ->
  pos1 !! i = Some p -> pos2 !! j = Some q ->
  (distance p q <=? tolerance)%float = true ->
  (forall q', q' ∈ pos2 -> (distance p q <=? distance p q')%float = true) ->
  (distance q p <=? tolerance)%float = true ->
  (forall p', p' ∈ pos1 -> (distance q p <=? distance q p')%float = true) ->
  NoDup rows -> i ∈ rows ->
  forall matched m : list (option Z),
  length matched = length pos1 ->
  match_rows pos1 pos2 tolerance rows matched = Ok m ->
  exists j', m !! i = Some (Some j').
Proof.
  intros Hn1 Hn2 Hp Hq Htol1 Hnear1 Htol2 Hnear2.
  induction rows as [|r rows IH]; intros Hnd Hi matched m Hlen H.
  - apply elem_of_nil in Hi. destruct Hi.
  - apply NoDup_cons in Hnd as [Hr Hnd].
    cbn [match_rows] in H. apply bind_Ok in H as (matched1 & Hrow & H).
    apply elem_of_cons in Hi as [<- | Hi].
    + destruct (match_row_finds _ _ _ _ _ _ _ _ _ Hn1 Hn2 Hp Hq Htol1 Hnear1
                  Htol2 Hnear2 Hrow) as [j' ->].
      exists j'. rewrite (match_rows_keep _ _ _ _ _ _ _ Hr H).
      apply list_lookup_insert_eq. rewrite Hlen. eapply lookup_lt_Some; eauto.
    + apply (IH Hnd Hi matched1 m); [|exact H].
      apply match_row_shape in Hrow as [-> | [j' ->]]; [exact Hlen|].
      rewrite length_insert. exact Hlen.
Qed.

(** X12: the converse of the matching condition.  For arrays of at most
    32768 rows, when row [j] of [pos2] is within the tolerance of row [i]
    of [pos1] in both computed directions, is a nearest row of [pos2] to
    row [i], and row [i] is a nearest row of [pos1] to it, [match_lists]
    returns an array whose entry [i] is unmasked. *)
Theorem match_lists_finds (pos1 pos2 : list position) (tolerance : float)
    (i j : nat) (p q : position) :
  Z.of_nat (length pos1) <= 32768 -> Z.of_nat (length pos2) <= 32768 ->
  pos1 !! i = Some p -> pos2 !! j = Some q ->
  (distance p q <=? tolerance)%float = true ->
  (forall q', q' ∈ pos2 -> (distance p q <=? distance p q')%float = true) ->
  (distance q p <=? tolerance)%float = true ->
  (forall p', p' ∈ pos1 -> (distance q p <=? distance q p')%float = true) ->
  exists m j',
    match_lists pos1 pos2 tolerance = Ok m /\ m !! i = Some (Some j').
Proof.
  intros Hn1 Hn2 Hp Hq Htol1 Hnear1 Htol2 Hnear2.
  assert (Hne : pos2 <> []) by (intros ->; rewrite lookup_nil in Hq; discriminate).
  unfold match_lists.
  destruct (match_rows_spec pos1 pos2 tolerance (seq 0 (length pos1)))
    with (matched := replicate (length pos1) (@None Z)) as (m & Hm & _);
    try assumption.
  { apply Forall_forall. intros k Hk. apply elem_of_seq in Hk. lia. }
  { apply length_replicate. }
  { intros i0 j0 Hi0. apply lookup_replicate in Hi0 as [Hi0 _]. discriminate. }
  destruct (match_rows_finds pos1 pos2 tolerance i j p q (seq 0 (length pos1))
              Hn1 Hn2 Hp Hq Htol1 Hnear1 Htol2 Hnear2 (NoDup_seq _ _))
    with (matched := replicate (length pos1) (@None Z)) (m := m) as [j' Hj'].
  { apply elem_of_seq. apply lookup_lt_Some in Hp. lia. }
  { apply length_replicate. }
  { exact Hm. }
  exists m, j'. auto.
Qed.

(** What [match_lists] returns only holds mutual nearest neighbours. *)
Lemma match_lists_entries (pos1 pos2 : list position) (tolerance : float)
    (m : list (option Z)) :
  Z.of_nat (length pos1) <= 32768 -> Z.of_nat (length pos2) <= 32768 ->
  match_lists pos1 pos2 tolerance = Ok m ->
  forall i j, m !! i = Some (Some j) -> mutual_nearest pos1 pos2 tolerance i j.
Proof.
  intros Hn1 Hn2 Hm i j Hi. unfold match_lists in Hm.
  destruct pos2 as [|q0 pos2'].
  - destruct pos1 as [|p0 pos1']; [inversion Hm; subst; rewrite lookup_nil in Hi; discriminate|].
    cbn in Hm. discriminate Hm.
  - destruct (match_rows_spec pos1 (q0 :: pos2') tolerance (seq 0 (length pos1)))
      with (matched := replicate (length pos1) (@None Z)) as (m' & Hm' & _ & Hsound);
      try assumption; try discriminate.
    { apply Forall_forall. intros k Hk. apply elem_of_seq in Hk. lia. }
    { apply length_replicate. }
    { intros i0 j0 Hi0. apply lookup_replicate in Hi0 as [Hi0 _]. discriminate. }
    rewrite Hm in Hm'. inversion Hm'; subst m'. exact (Hsound i j Hi).
Qed.

(** X13: the matching is unique up to ties.  When two rows [i] and [i']
    of [pos1] are given the same index [j], they are at the same computed
    distance from row [j] of [pos2]. *)
Theorem match_lists_shared_index (pos1 pos2 : list position) (tolerance : float)
    (m : list (option Z)) (i i' : nat) (j : Z) :
  Z.of_nat (length pos1) <= 32768 -> Z.of_nat (length pos2) <= 32768 ->
  match_lists pos1 pos2 tolerance = Ok m ->
  m !! i = Some (Some j) -> m !! i' = Some (Some j) ->
  exists p p' q,
    pos1 !! i = Some p /\ pos1 !! i' = Some p' /\ pos2 !! Z.to_nat j = Some q /\
    (distance q p =? distance q p')%float = true.
Proof.
  intros Hn1 Hn2 Hm Hi Hi'.
  destruct (match_lists_entries _ _ _ _ Hn1 Hn2 Hm i j Hi)
    as (p & q & Hp & _ & Hq & _ & _ & Hback).
  destruct (match_lists_entries _ _ _ _ Hn1 Hn2 Hm i' j Hi')
    as (p' & q' & Hp' & _ & Hq' & _ & _ & Hback').
  assert (q' = q) by congruence. subst q'.
  exists p, p', q. split; [exact Hp|]. split; [exact Hp'|]. split; [exact Hq|].
  apply leb_antisym.
  - apply Hback. apply list_elem_of_lookup. eauto.
  - apply Hback'. apply list_elem_of_lookup. eauto.
Qed.

End MatchMore.

Lemma match_lists_finds_witness :
  exists m j',
    AstromMagCheck.match_lists [(0, 0); (3, 4)]%float [(3, 4.5); (0.5, 0)]%float 100%float
      = Py.Ok m /\
    m !! 1%nat = Some (Some j').
Proof.
  apply (match_lists_finds [(0, 0); (3, 4)]%float [(3, 4.5); (0.5, 0)]%float 100%float
           1 0 (3, 4)%float (3, 4.5)%float);
    try (simpl; lia); try reflexivity.
  - intros q' Hq'.
    repeat (apply elem_of_cons in Hq' as [-> | Hq']; [reflexivity|]).
    apply elem_of_nil in Hq'. destruct Hq'.
  - intros p' Hp'.
    repeat (apply elem_of_cons in Hp' as [-> | Hp']; [reflexivity|]).
    apply elem_of_nil in Hp'. destruct Hp'.
Defined.

(** Two rows of [pos1] on either side of the only row of [pos2] are both
    matched to it. *)
Lemma match_lists_shared_index_witness :
  exists p p' q,
    [(1, 0); (-1, 0)]%float !! 0%nat = Some p /\
    [(1, 0); (-1, 0)]%float !! 1%nat = Some p' /\
    [(0, 0)]%float !! Z.to_nat 0 = Some q /\
    (AstromMagCheck.distance q p =? AstromMagCheck.distance q p')%float = true.
Proof.
  apply (match_lists_shared_index [(1, 0); (-1, 0)]%float [(0, 0)]%float 100%float
           [Some 0; Some 0] 0 1 0);
    try (simpl; lia); reflexivity.
Defined.

(* ===================================================================== *)
(** * ossos/ephem_target.py: the fixed columns of the ephemeris file *)
(* ===================================================================== *)
Section EphemFacts.
Import Py PyMore EphemTarget.
Variables ASTRO_FORMAT_HEADER ASTRO_FORMAT_FOOTER : pystr.





End EphemFacts.

(* ===================================================================== *)
(** * Tags *)
(* ===================================================================== *)
Section TagFacts.
Import Py PyMore Tags.

Lemma contains_prefix (base t : pystr) : contains base (base ++ t) = true.
Proof.
  destruct (base ++ t) as [|c s] eqn:E; cbn [contains];
    rewrite <- E, startswith_app; reflexivity.
Qed.

Lemma tag_uri_with_base (base key : pystr) :
  let tag := if contains base key then key else base ++ py "#" ++ strip key in
  contains base tag = true /\
  (if contains base tag then tag else base ++ py "#" ++ strip tag) = tag.
Proof.
  cbn zeta. destruct (contains base key) eqn:Hc.
  - rewrite Hc. auto.
  - rewrite contains_prefix. auto.
Qed.

(** X15: [tag_uri], in both storage modules, always returns a string that
    contains the base URI of the module, and is idempotent: a tag that has
    been made into a URI is returned unchanged. *)
Theorem tag_uri_idempotent (key : pystr) :
  (contains TAG_URI_BASE (tag_uri key) = true /\
   tag_uri (tag_uri key) = tag_uri key) /\
  (contains OSSOS_TAG_URI_BASE (ossos_tag_uri key) = true /\
   ossos_tag_uri (ossos_tag_uri key) = ossos_tag_uri key).
Proof.
  split.
  - exact (tag_uri_with_base TAG_URI_BASE key).
  - exact (tag_uri_with_base OSSOS_TAG_URI_BASE key).
Qed.

Lemma parse_zeros (k : nat) (t : pystr) :
  parse_digits 0 (List.repeat "0"%char k ++ t) = parse_digits 0 t.
Proof. induction k as [|k IH]; [reflexivity | exact IH]. Qed.

(** The zero-filled number reads back as the number. *)
Lemma int_of_str_zfill (z : Z) : int_of_str (zfill 2 (str_of_Z z)) = Ok z.
Proof.
  unfold str_of_Z, zfill. destruct (z <? 0) eqn:Hneg.
  - apply Z.ltb_lt in Hneg.
    destruct (str_of_nonneg_spec (- z)) as (Hne & _ & Hparse); [lia|].
    specialize (Hparse []). rewrite app_nil_r in Hparse.
    rewrite Ascii.eqb_refl. cbn [orb].
    unfold int_of_str. rewrite Ascii.eqb_refl.
    destruct (List.repeat "0"%char (2 - length ("-"%char :: str_of_nonneg (- z)))
              ++ str_of_nonneg (- z)) as [|c t] eqn:E.
    + apply app_eq_nil in E as [_ E]. congruence.
    + rewrite <- E, parse_zeros, Hparse. cbn [parse_digits bind]. f_equal. lia.
  - apply Z.ltb_ge in Hneg.
    destruct (str_of_nonneg_spec z Hneg) as (Hne & Hall & Hparse).
    specialize (Hparse []). rewrite app_nil_r in Hparse.
    destruct (str_of_nonneg z) as [|c t] eqn:Hs; [congruence|].
    inversion Hall as [|? ? Hc _]; subst.
    destruct (is_digit_not_sign c Hc) as [Hm Hp]. rewrite Hm, Hp. cbn [orb].
    destruct (List.repeat "0"%char (2 - length (c :: t))) as [|zero pad] eqn:Hpad.
    + cbn [app]. unfold int_of_str. rewrite Hm, Hp. exact Hparse.
    + assert (zero = "0"%char).
      { destruct (2 - length (c :: t))%nat; cbn in Hpad; inversion Hpad; reflexivity. }
      subst zero.
      assert (Hpad' : exists k, pad = List.repeat "0"%char k).
      { destruct (2 - length (c :: t))%nat as [|k]; cbn in Hpad; inversion Hpad. eauto. }
      destruct Hpad' as [k ->].
      cbn [app]. unfold int_of_str.
      change (Ascii.eqb "0" "-") with false. change (Ascii.eqb "0" "+") with false.
      cbv iota.
      change ("0"%char :: List.repeat "0"%char k ++ c :: t)
        with (List.repeat "0"%char (S k) ++ c :: t).
      rewrite parse_zeros. exact Hparse.
Qed.

(** X16: the processing tags of two CCD numbers differ: for the same
    program (and version), [get_process_tag] gives equal tags only for
    equal CCD numbers, in both storage modules. *)
Theorem get_process_tag_ccd (program version : pystr) (ccd1 ccd2 : Z) :
  get_process_tag program ccd1 version = get_process_tag program ccd2 version \/
  ossos_get_process_tag program ccd1 = ossos_get_process_tag program ccd2 ->
  ccd1 = ccd2.
Proof.
  intros H.
  assert (Hz : zfill 2 (str_of_Z ccd1) = zfill 2 (str_of_Z ccd2)).
  { destruct H as [H | H].
    - unfold get_process_tag in H. do 3 apply app_inv_head in H. exact H.
    - unfold ossos_get_process_tag in H. do 2 apply app_inv_head in H. exact H. }
  apply (f_equal int_of_str) in Hz. rewrite !int_of_str_zfill in Hz.
  inversion Hz. reflexivity.
Qed.

Lemma get_process_tag_ccd_witness :
  get_process_tag (py "mkpsf") 7 (py "p") = py "mkpsf_p07" /\ 7 = 7.
Proof.
  split; [reflexivity|].
  apply (get_process_tag_ccd (py "mkpsf") (py "p") 7 7). left. reflexivity.
Defined.

End TagFacts.

(* ===================================================================== *)
(** * Paths: [os.path.basename] and [os.path.dirname] *)
(* ===================================================================== *)
Section PathFacts.
Import Py PyMore.

Lemma basename_from_no_slash (s : pystr) : forall since : pystr,
  ~ In "/"%char s -> basename_from since s = since ++ s.
Proof.
  induction s as [|c s IH]; intros since Hs; cbn [basename_from].
  - rewrite app_nil_r. reflexivity.
  - destruct (Ascii.eqb c "/") eqn:Hc.
    + apply Ascii.eqb_eq in Hc. subst c. exfalso. apply Hs. left. reflexivity.
    + rewrite IH by (intros Hin; apply Hs; right; exact Hin).
      rewrite <- app_assoc. reflexivity.
Qed.

Lemma basename_no_slash (b : pystr) : ~ In "/"%char b -> basename b = b.
Proof. intros Hb. unfold basename. rewrite basename_from_no_slash by exact Hb. reflexivity. Qed.

(** The base name is what follows the last slash: what precedes a slash
    does not count. *)
Lemma basename_app_slash (x b : pystr) : basename (x ++ py "/" ++ b) = basename b.
Proof.
  unfold basename. generalize (@nil ascii) at 1 as since.
  induction x as [|c x IH]; intros since.
  - reflexivity.
  - cbn [app basename_from]. destruct (Ascii.eqb c "/"); apply IH.
Qed.

Lemma endswith_slash_split (a : pystr) :
  endswith_char "/" a = true -> exists a', a = a' ++ py "/".
Proof.
  unfold endswith_char. destruct (last a) as [d|] eqn:Hlast; [|discriminate].
  intros Hd. apply Ascii.eqb_eq in Hd. subst d.
  apply last_Some in Hlast as [a' ->]. exists a'. reflexivity.
Qed.

Lemma basename_path_join (a b : pystr) : basename (path_join a b) = basename b.
Proof.
  unfold path_join. destruct (startswith (py "/") b); [reflexivity|].
  destruct a as [|c a]; [reflexivity|].
  destruct (endswith_char "/" (c :: a)) eqn:Hend.
  - apply endswith_slash_split in Hend as [a' ->].
    rewrite <- app_assoc. apply basename_app_slash.
  - apply basename_app_slash.
Qed.

Lemma not_endswith_split (x : pystr) :
  x <> [] -> endswith_char "/" x = false ->
  exists x' d, x = x' ++ [d] /\ Ascii.eqb d "/" = false.
Proof.
  intros Hne Hend. unfold endswith_char in Hend.
  destruct (last x) as [d|] eqn:Hlast.
  - apply last_Some in Hlast as [x' ->]. exists x', d. split; [reflexivity|].
    rewrite Ascii.eqb_sym. exact Hend.
  - apply last_None in Hlast. congruence.
Qed.

(** The directory of [x/b], for a name [b] without slash and a directory
    [x] that does not end with one, is [x]. *)
Lemma dirname_app_slash (x b : pystr) :
  x <> [] -> endswith_char "/" x = false -> ~ In "/"%char b ->
  dirname (x ++ py "/" ++ b) = x.
Proof.
  intros Hne Hend Hb.
  destruct (not_endswith_split x Hne Hend) as (x' & d & -> & Hd).
  assert (Hhead : head_of ((x' ++ [d]) ++ py "/" ++ b) = (x' ++ [d]) ++ py "/").
  { unfold head_of. rewrite basename_app_slash, (basename_no_slash b Hb).
    rewrite (app_assoc (x' ++ [d]) (py "/") b).
    rewrite length_app, Nat.add_sub. apply take_app_length. }
  unfold dirname. rewrite Hhead.
  rewrite !forallb_app. cbn [forallb]. rewrite Hd, andb_false_r. cbn [andb].
  unfold rstrip_slash, py. rewrite !rev_app_distr.
  cbn [list_ascii_of_string rev app lstrip_slash].
  rewrite Ascii.eqb_refl, Hd. cbn [rev]. rewrite rev_involutive. reflexivity.
Qed.

(** ["{:02d}".format(n)] and [str(n).zfill(2)] print the same. *)
Lemma format_02d_zfill (n : Z) : format_02d n = zfill 2 (str_of_Z n).
Proof.
  unfold format_02d, str_of_Z, zfill. destruct (n <? 0) eqn:Hneg.
  - rewrite Ascii.eqb_refl. reflexivity.
  - apply Z.ltb_ge in Hneg.
    destruct (str_of_nonneg_spec n Hneg) as (Hne & Hall & _).
    destruct (str_of_nonneg n) as [|c t]; [congruence|].
    inversion Hall as [|? ? Hc _]; subst.
    destruct (is_digit_not_sign c Hc) as [-> ->]. reflexivity.
Qed.

Lemma format_02d_chars (n : Z) (c : ascii) :
  In c (format_02d n) -> c = "-"%char \/ is_digit c = true.
Proof.
  assert (Hpad : forall k, In c (List.repeat "0"%char k) -> is_digit c = true).
  { intros k Hin. apply repeat_spec in Hin. subst c. reflexivity. }
  assert (Hdigits : forall m, 0 <= m -> In c (str_of_nonneg m) -> is_digit c = true).
  { intros m Hm Hin. destruct (str_of_nonneg_spec m Hm) as (_ & Hall & _).
    unfold all_digits in Hall. rewrite Forall_forall in Hall.
    apply Hall, list_elem_of_In, Hin. }
  unfold format_02d. destruct (n <? 0) eqn:Hneg.
  - apply Z.ltb_lt in Hneg. intros [<- | Hin]; [left; reflexivity|].
    right. apply in_app_or in Hin as [Hin | Hin]; [eapply Hpad; exact Hin|].
    apply (Hdigits (- n)); [lia | exact Hin].
  - apply Z.ltb_ge in Hneg. intros Hin. right.
    apply in_app_or in Hin as [Hin | Hin]; [eapply Hpad; exact Hin|].
    apply (Hdigits n); [lia | exact Hin].
Qed.

Lemma format_02d_no_slash (n : Z) : ~ In "/"%char (format_02d n).
Proof. intros Hin. apply format_02d_chars in Hin as [H | H]; discriminate H. Qed.

Lemma format_02d_end (n : Z) :
  format_02d n <> [] /\ endswith_char "/" (format_02d n) = false.
Proof.
  split.
  - unfold format_02d. destruct (n <? 0) eqn:Hneg; [discriminate|].
    apply Z.ltb_ge in Hneg.
    destruct (str_of_nonneg_spec n Hneg) as (Hne & _).
    intros E. apply app_eq_nil in E as [_ E]. congruence.
  - rewrite format_02d_zfill. apply zfill_number_end.
Qed.

Lemma no_slash_end (s : pystr) : ~ In "/"%char s -> endswith_char "/" s = false.
Proof.
  intros Hs. unfold endswith_char. destruct (last s) as [d|] eqn:Hlast; [|reflexivity].
  apply Ascii.eqb_neq. intros <-. apply Hs.
  apply last_Some in Hlast as [s' ->]. apply in_or_app. right. left. reflexivity.
Qed.

End PathFacts.

(* ===================================================================== *)
(** * daomop/storage.py: the names of an artifact *)
(* ===================================================================== *)
Section ArtifactFacts.
Import Py PyMore Artifacts.

Lemma uri_splits (self : Artifact) :
  exists directory,
    uri self =
      directory ++ py "/" ++
      match ccd self with
      | Some n =>
          prefix self ++ observation_str (observation self) ++ version self ++
          format_02d n ++ ext self
      | None =>
          prefix self ++ observation_str (observation self) ++ version self ++
          ext self
      end /\
    directory =
      dbimages (observation self) ++ py "/" ++ subdir self ++
      match ccd self with
      | Some n => py "/ccd" ++ format_02d n
      | None => []
      end.
Proof.
  eexists. split; [|reflexivity].
  unfold uri. destruct (ccd self) as [n|].
  - rewrite <- !app_assoc. reflexivity.
  - rewrite app_nil_r, <- !app_assoc. reflexivity.
Qed.

(** X17: the local file name of an artifact, [Artifact.filename], does
    not depend on the container node nor on the sub-directory: it is the
    base name of [{prefix}{observation}{version}{NN}{ext}] ([NN] the CCD
    number on two digits, absent without a CCD), and is that very string
    when it holds no slash. *)
Theorem artifact_filename (self : Artifact) :
  let name :=
    match ccd self with
    | Some n =>
        prefix self ++ observation_str (observation self) ++ version self ++
        format_02d n ++ ext self
    | None =>
        prefix self ++ observation_str (observation self) ++ version self ++
        ext self
    end in
  filename self = basename name /\
  (~ In "/"%char name -> filename self = name).
Proof.
  intros name.
  assert (H : filename self = basename name).
  { unfold filename. destruct (uri_splits self) as (directory & -> & _).
    apply basename_app_slash. }
  split; [exact H|].
  intros Hname. rewrite H. apply basename_no_slash. exact Hname.
Qed.

(** X18: the directory of the logs.  For an exposure whose name holds no
    slash (and is not empty when there is no CCD), [log_location] is
    [DBIMAGES/expnum/ccdNN], or [DBIMAGES/expnum] without a CCD; the URI
    of the artifact is that directory, a slash, and the file name of the
    artifact. *)
Theorem log_location_layout (expnum : OssosStorage.pyobj) (ccd : option Z) :
  ~ In "/"%char (OssosStorage.str expnum) ->
  (ccd = None -> OssosStorage.str expnum <> []) ->
  let self := artifact_of (MkObservation expnum DBIMAGES) ccd in
  log_location expnum ccd =
    DBIMAGES ++ py "/" ++ OssosStorage.str expnum ++
    match ccd with
    | Some n => py "/ccd" ++ format_02d n
    | None => []
    end /\
  uri self = log_location expnum ccd ++ py "/" ++ filename self.
Proof.
  intros Hslash Hne self.
  destruct (uri_splits self) as (directory & Huri & Hdir).
  set (name := match Artifacts.ccd self with
               | Some n => _ | None => _ end) in Huri.
  assert (Hname : ~ In "/"%char name).
  { subst name. unfold self, artifact_of. cbn.
    destruct ccd as [n|]; cbn [app].
    - apply not_in_app; [exact Hslash|]. cbn [app].
      intros [Hp | Hin]; [discriminate Hp|]. revert Hin.
      apply not_in_app; [apply format_02d_no_slash|].
      cbn. intuition discriminate.
    - apply not_in_app; [exact Hslash|]. cbn. intuition discriminate. }
  assert (Hend : directory <> [] /\ endswith_char "/" directory = false).
  { subst directory. unfold self, artifact_of. cbn [observation dbimages Artifacts.ccd].
    split; [discriminate|].
    change (subdir _) with (OssosStorage.str expnum).
    destruct ccd as [n|].
    - destruct (format_02d_end n) as [Hn Hd].
      rewrite !app_assoc, endswith_char_app by exact Hn. exact Hd.
    - rewrite app_nil_r, app_assoc.
      rewrite endswith_char_app by (apply Hne; reflexivity).
      apply no_slash_end. exact Hslash. }
  destruct Hend as [Hdne Hdend].
  assert (Hloc : log_location expnum ccd = directory).
  { unfold log_location. fold self. rewrite Huri.
    apply dirname_app_slash; assumption. }
  split.
  - rewrite Hloc, Hdir. unfold self, artifact_of.
    cbn [observation dbimages Artifacts.ccd]. reflexivity.
  - rewrite Hloc. unfold filename. rewrite Huri at 2.
    rewrite basename_app_slash, (basename_no_slash name Hname). exact Huri.
Qed.


Lemma artifact_filename_witness :
  filename (artifact_of (MkObservation (OssosStorage.PInt 1616681) DBIMAGES) (Some 7)) =
  py "1616681p07.fits.fz".
Proof.
  apply (artifact_filename
           (artifact_of (MkObservation (OssosStorage.PInt 1616681) DBIMAGES) (Some 7))).
  vm_compute. intuition discriminate.
Defined.

Lemma log_location_layout_witness :
  log_location (OssosStorage.PInt 1616681) (Some 7) =
    py "vos:cfis/solar_system/dbimages/1616681/ccd07" /\
  uri (artifact_of (MkObservation (OssosStorage.PInt 1616681) DBIMAGES) (Some 7)) =
    log_location (OssosStorage.PInt 1616681) (Some 7) ++ py "/" ++
    filename (artifact_of (MkObservation (OssosStorage.PInt 1616681) DBIMAGES) (Some 7)).
Proof.
  apply (log_location_layout (OssosStorage.PInt 1616681) (Some 7)).
  - vm_compute. intuition discriminate.
  - discriminate.
Defined.

End ArtifactFacts.

(* ===================================================================== *)
(** * ossos/storage: the local file of [get_image] *)
(* ===================================================================== *)
Section GetImageFacts.
Import Py PyMore OssosStorage GetImage.

(** X19: the file in which [get_image] stores an image is named after the
    last component of the URI only: whatever [subdir] is, its name is the
    base name of [{prefix}{expnum}{version}{NN}{ext'}], and is that very
    string when it holds no slash. *)
Theorem get_image_filename_layout (expnum : pyobj) (ccd : option Z)
    (version : pystr) (ext subdir prefix : option pystr) :
  get_image_filename expnum ccd version ext subdir prefix =
    basename (image_name expnum ccd version ext prefix) /\
  (~ In "/"%char (image_name expnum ccd version ext prefix) ->
   get_image_filename expnum ccd version ext subdir prefix =
     image_name expnum ccd version ext prefix).
Proof.
  assert (H : get_image_filename expnum ccd version ext subdir prefix =
              basename (image_name expnum ccd version ext prefix)).
  { unfold get_image_filename, get_uri, image_name. rewrite dotted_spec.
    destruct ccd as [n|]; rewrite basename_path_join;
      destruct prefix; reflexivity. }
  split; [exact H|].
  intros Hname. rewrite H. apply basename_no_slash. exact Hname.
Qed.

Lemma get_image_filename_layout_witness :
  get_image_filename (PInt 1616681) (Some 7) (py "p") (Some (py "fits"))
                     (Some (py "elsewhere/")) None =
  py "1616681p07.fits".
Proof.
  apply (get_image_filename_layout (PInt 1616681) (Some 7) (py "p")
           (Some (py "fits")) (Some (py "elsewhere/")) None).
  vm_compute. intuition discriminate.
Defined.

End GetImageFacts.

(* ===================================================================== *)
(** * ossos/storage: from the constructor of a [SyncingVOFile] to [close] *)
(* ===================================================================== *)
Section SyncingLifeFacts.
Import Py PyMore OssosStorage SyncingLife.
Variable tempdir : pystr.




End SyncingLifeFacts.

(* ===================================================================== *)
(** * [mkdir]: the missing directories, the topmost first *)
(* ===================================================================== *)
Section MkdirFacts.
Import Py PyMore Mkdir.

Lemma queue_ancestors (dirs : gset pystr) (k : nat) :
  forall (fuel : nat) (dirname_ : pystr) (dir_list : list pystr),
  Forall (fun d => d ∉ dirs) (ancestors k dirname_) ->
  Nat.iter k dirname dirname_ ∈ dirs ->
  (k < fuel)%nat ->
  queue fuel dirs dirname_ dir_list = Some (dir_list ++ ancestors k dirname_).
Proof.
  induction k as [|k IH]; intros fuel d acc Hmissing Hdir Hfuel;
    (destruct fuel as [|fuel]; [lia|]); cbn [queue ancestors].
  - cbn [Nat.iter nat_rect] in Hdir. rewrite bool_decide_eq_true_2 by exact Hdir.
    rewrite app_nil_r. reflexivity.
  - cbn [ancestors] in Hmissing. inversion Hmissing as [|? ? Hd Hrest]; subst.
    rewrite bool_decide_eq_false_2 by exact Hd.
    rewrite IH; [rewrite <- app_assoc; reflexivity | exact Hrest | | lia].
    rewrite <- Nat.iter_succ_r. exact Hdir.
Qed.

Lemma queue_never (dirs : gset pystr) (fuel : nat) :
  forall (dirname_ : pystr) (dir_list : list pystr),
  (forall k, Nat.iter k dirname dirname_ ∉ dirs) ->
  queue fuel dirs dirname_ dir_list = None.
Proof.
  induction fuel as [|fuel IH]; intros d acc Hnever; [reflexivity|].
  cbn [queue]. rewrite bool_decide_eq_false_2 by exact (Hnever O).
  apply IH. intros k. rewrite <- Nat.iter_succ_r. apply Hnever.
Qed.

Lemma create_fold (l : list pystr) : forall (dirs : gset pystr) (made : list pystr),
  fold_left (fun '(dirs, made) d => ({[d]} ∪ dirs, made ++ [d])) l (dirs, made) =
  (list_to_set (rev l) ∪ dirs, made ++ l).
Proof.
  induction l as [|d l IH]; intros dirs made; cbn [fold_left rev].
  - rewrite app_nil_r. f_equal. cbn [list_to_set]. symmetry. apply (left_id_L ∅ (∪)).
  - rewrite IH. rewrite <- app_assoc. f_equal.
    rewrite list_to_set_app_L. cbn [list_to_set].
    rewrite (right_id_L ∅ (∪)), (assoc_L (∪)). reflexivity.
Qed.

Lemma create_spec (dir_list : list pystr) (dirs : gset pystr) :
  create dir_list dirs = (list_to_set dir_list ∪ dirs, rev dir_list).
Proof.
  unfold create. rewrite create_fold, rev_involutive. reflexivity.
Qed.

(** In the reversed list of the missing directories every directory comes
    after its parent, the topmost one having its parent in VOSpace. *)
Lemma ancestors_parent_first (dirs : gset pystr) (k : nat) :
  forall (dirname_ : pystr) (pre post : list pystr) (d : pystr),
  Nat.iter k dirname dirname_ ∈ dirs ->
  rev (ancestors k dirname_) = pre ++ d :: post ->
  dirname d ∈ dirs \/ In (dirname d) pre.
Proof.
  induction k as [|k IH]; intros root pre post d Hdir Hsplit; cbn [ancestors rev] in Hsplit.
  - destruct pre; discriminate Hsplit.
  - rewrite Nat.iter_succ_r in Hdir.
    destruct post as [|p post _] using rev_ind.
    + apply app_inj_tail in Hsplit as [Hpre ->].
      destruct k as [|k]; [left; exact Hdir|].
      right. rewrite <- Hpre. cbn [ancestors rev].
      apply in_or_app. right. left. reflexivity.
    + rewrite app_comm_cons, app_assoc in Hsplit.
      apply app_inj_tail in Hsplit as [Hsplit _].
      exact (IH (dirname root) pre post d Hdir Hsplit).
Qed.

(** X21: when the [k]-th ancestor of the directory is the first one that
    exists in VOSpace, [mkdir] ends and makes exactly the [k] missing
    directories, from the topmost one down to the directory itself: each
    one is made when its parent exists, and the directory exists in the
    end. *)
Theorem mkdir_creates (dirname_ : pystr) (dirs : gset pystr) (k fuel : nat) :
  Forall (fun d => d ∉ dirs) (ancestors k dirname_) ->
  Nat.iter k dirname dirname_ ∈ dirs ->
  (k < fuel)%nat ->
  exists final made,
    mkdir fuel dirname_ dirs = Some (final, made) /\
    made = rev (ancestors k dirname_) /\
    final = list_to_set made ∪ dirs /\
    dirname_ ∈ final /\
    forall pre d post, made = pre ++ d :: post ->
      dirname d ∈ dirs \/ In (dirname d) pre.
Proof.
  intros Hmissing Hdir Hfuel.
  exists (list_to_set (rev (ancestors k dirname_)) ∪ dirs), (rev (ancestors k dirname_)).
  split.
  { unfold mkdir. rewrite (queue_ancestors dirs k fuel dirname_ []) by assumption.
    cbn [app]. rewrite create_spec. f_equal. f_equal. f_equal.
    apply set_eq. intros x. rewrite !elem_of_list_to_set, !list_elem_of_In, <- in_rev.
    reflexivity. }
  split; [reflexivity|]. split; [reflexivity|]. split.
  - destruct k as [|k]; [apply elem_of_union_r; exact Hdir|].
    apply elem_of_union_l, elem_of_list_to_set, list_elem_of_In.
    rewrite <- in_rev. left. reflexivity.
  - intros pre d post Hsplit.
    exact (ancestors_parent_first dirs k dirname_ pre post d Hdir Hsplit).
Qed.

(** X22: when no ancestor of the directory exists in VOSpace, the first
    loop of [mkdir] never ends: no number of turns is enough. *)
Theorem mkdir_never_ends (dirname_ : pystr) (dirs : gset pystr) :
  (forall k, Nat.iter k dirname dirname_ ∉ dirs) ->
  forall fuel, mkdir fuel dirname_ dirs = None.
Proof.
  intros Hnever fuel. unfold mkdir. rewrite queue_never by exact Hnever. reflexivity.
Qed.

Lemma mkdir_creates_witness :
  exists final,
    mkdir 3 (py "vos:OSSOS/dbimages/1616681/ccd07")
          ({[ py "vos:OSSOS/dbimages" ]} : gset pystr) =
    Some (final, [py "vos:OSSOS/dbimages/1616681";
                  py "vos:OSSOS/dbimages/1616681/ccd07"]).
Proof.
  destruct (mkdir_creates (py "vos:OSSOS/dbimages/1616681/ccd07")
              ({[ py "vos:OSSOS/dbimages" ]} : gset pystr) 2 3)
    as (final & made & Hmkdir & Hmade & _).
  - repeat constructor; intros Hin; apply elem_of_singleton in Hin;
      vm_compute in Hin; discriminate Hin.
  - apply elem_of_singleton. vm_compute. reflexivity.
  - lia.
  - exists final. rewrite Hmkdir, Hmade. reflexivity.
Defined.

Lemma mkdir_never_ends_witness :
  mkdir 1000 (py "vos:OSSOS/dbimages/1616681") (∅ : gset pystr) = None.
Proof.
  apply (mkdir_never_ends (py "vos:OSSOS/dbimages/1616681") ∅).
  intros k. apply not_elem_of_empty.
Defined.

End MkdirFacts.

(* ===================================================================== *)
(** * mopgui: the dictionary of the list control *)
(* ===================================================================== *)
Section ListCtrlFacts.
Import Py ListCtrl.

Lemma populate_from_map_seq (datatuples : list (list pystr)) :
  forall (index : nat) (item_data_map : gmap nat (list pystr)),
  populate_from index datatuples item_data_map =
  map_seq index datatuples ∪ item_data_map.
Proof.
  induction datatuples as [|tuple rest IH]; intros index m; cbn [populate_from map_seq].
  - rewrite (left_id_L ∅ (∪)). reflexivity.
  - rewrite IH. rewrite <- insert_union_l.
    symmetry. apply insert_union_r. apply lookup_map_seq_None. left. lia.
Qed.

(** X23: after [populate_list(datatuples)] the dictionary [itemDataMap]
    holds the tuples under their positions in the list, and nothing
    else. *)
Theorem populate_list_lookup (datatuples : list (list pystr)) (index : nat) :
  populate_list datatuples !! index = datatuples !! index.
Proof.
  unfold populate_list. rewrite populate_from_map_seq.
  rewrite (right_id_L ∅ (∪)). apply lookup_map_seq_0.
Qed.

End ListCtrlFacts.

(* ===================================================================== *)
(** * daomop/storage.py: the wildcards of a cutout, for bounds of any sign *)
(* ===================================================================== *)
Section WildcardFacts.
Import Py Storage.













End WildcardFacts.
